(** * test_maker: the step model, the Code Emitter and the Live Execution Engine

    A shallow embedding of
    - [lib/testStepTypes.ts]      ([TestStep], [generateStepCode], [getFullUrl]),
    - [lib/testCodeGenerator.ts]  ([formatExpectedResult]),
    - [components/BrowserTestRunner.tsx]
                                  ([parseSteps], [resolveUrl], [executeStep],
                                   [runTest]).

    Strings.  JavaScript strings are sequences of code units; the
    embedding uses [string] and so carries the code units below 256.
    Every string operation the program uses ([startsWith], [substring],
    [includes], [trim], the three regular expressions) works code unit by
    code unit.

    Exceptions.  An expression that may throw evaluates to a
    [Completion]: [Return v] or [Throw e].

    The host.  [JSON.parse], [JSON.stringify] and the Number type are
    parameters.  What the browser answers during a run (whether the
    window opens, whether its location can be read, what [querySelector]
    finds, what the clock says) is a [RunEnv], and every statement about
    a run holds for every [RunEnv].

    React state.  [runTest] and [executeStep] are closures created by one
    render of the component: the [results], [testWindow] and [error] they
    read are the state values of that render and stay the same for the
    whole run.  The setters act on the live state, which the next render
    will see.  [runTest] therefore takes the captured state as an
    argument and returns the live state it leaves, together with the
    trace of what it did to the outside. *)

From Stdlib Require Import ZArith Lia Ascii String.
From stdpp Require Import base option list strings pretty.

Local Open Scope nat_scope.

(** ** JavaScript string primitives *)

Module JsString.

(** [s.startsWith(p)] *)
Definition startsWith (s p : string) : bool := String.prefix p s.

(** [s.substring(n)] *)
Definition substringFrom (n : nat) (s : string) : string :=
  String.substring n (String.length s - n) s.

(** [s.substring(0, n)] *)
Fixpoint take (n : nat) (s : string) : string :=
  match n, s with
  | S n', String c r => String c (take n' r)
  | _, _ => EmptyString
  end.

(** [s.includes(sub)] *)
Fixpoint includes (s sub : string) : bool :=
  String.prefix sub s ||
  match s with
  | EmptyString => false
  | String _ r => includes r sub
  end.

(** The string is falsy exactly when it is empty. *)
Definition nonEmpty (s : string) : bool :=
  match s with EmptyString => false | String _ _ => true end.

(** An optional property [x?: string] is truthy when present and non-empty. *)
Definition truthy (o : option string) : bool :=
  match o with Some s => nonEmpty s | None => false end.

(** [o || d] for an optional string property. *)
Definition orElse (o : option string) (d : string) : string :=
  match o with
  | Some s => if nonEmpty s then s else d
  | None => d
  end.

(** [`${o}`] read where the program has already tested [o] truthy. *)
Definition get (o : option string) : string := default EmptyString o.

(** White space of [String.prototype.trim] and of [\s]: TAB, LF, VT, FF,
    CR, SP and NBSP are the ones below 256. *)
Definition isWhiteSpace (c : ascii) : bool :=
  let n := nat_of_ascii c in
  ((9 <=? n) && (n <=? 13)) || (n =? 32) || (n =? 160).

Fixpoint dropWhile (p : ascii -> bool) (s : string) : string :=
  match s with
  | EmptyString => EmptyString
  | String c r => if p c then dropWhile p r else s
  end.

(** Removes the longest suffix whose code units all satisfy [p]. *)
Fixpoint dropWhileEnd (p : ascii -> bool) (s : string) : string :=
  match s with
  | EmptyString => EmptyString
  | String c r =>
      match dropWhileEnd p r with
      | EmptyString => if p c then EmptyString else String c EmptyString
      | r' => String c r'
      end
  end.

(** [s.trim()] *)
Definition trim (s : string) : string :=
  dropWhileEnd isWhiteSpace (dropWhile isWhiteSpace s).

Definition isSlash (c : ascii) : bool := Ascii.eqb c "/".

(** [s.replace(/\/+$/, '')]: the only match of [\/+$] is the maximal run
    of slashes that ends the string. *)
Definition stripTrailingSlashes (s : string) : string :=
  dropWhileEnd isSlash s.

Definition isDigit (c : ascii) : bool :=
  let n := nat_of_ascii c in (48 <=? n) && (n <=? 57).

Definition isLetter (c : ascii) : bool :=
  let n := nat_of_ascii c in
  ((65 <=? n) && (n <=? 90)) || ((97 <=? n) && (n <=? 122)).

(** [s.replace(/[^a-zA-Z0-9]/g, '')] *)
Fixpoint keepAlnum (s : string) : string :=
  match s with
  | EmptyString => EmptyString
  | String c r =>
      if isLetter c || isDigit c then String c (keepAlnum r) else keepAlnum r
  end.

Fixpoint forallb (p : ascii -> bool) (s : string) : bool :=
  match s with
  | EmptyString => true
  | String c r => p c && forallb p r
  end.

End JsString.

Import JsString.

(** ** The step model ([lib/testStepTypes.ts]) *)

Inductive StepType :=
| navigate | click | fill | wait | waitForPageLoad
| verifyElement | assert | custom | api_call.

Definition StepType_eqb (a b : StepType) : bool :=
  match a, b with
  | navigate, navigate | click, click | fill, fill | wait, wait
  | waitForPageLoad, waitForPageLoad | verifyElement, verifyElement
  | assert, assert | custom, custom | api_call, api_call => true
  | _, _ => false
  end.

(** [`${step.type}`] *)
Definition StepType_name (t : StepType) : string :=
  match t with
  | navigate => "navigate" | click => "click" | fill => "fill"
  | wait => "wait" | waitForPageLoad => "waitForPageLoad"
  | verifyElement => "verifyElement" | assert => "assert"
  | custom => "custom" | api_call => "api_call"
  end.

(** The interface [TestStep].  The records of the program share field
    names ([status], [message], [url]), so each record's fields carry a
    prefix here.  An optional property is an [option]. *)
Record TestStep := mkStep {
  s_id : string;
  s_type : StepType;
  s_url : option string;
  s_selector : option string;
  s_value : option string;
  s_action : option string;
  s_description : string;
  s_method : option string;
  s_headers : option string;
  s_body : option string;
  s_expectedStatus : option string
}.

(** A step with only the mandatory fields set. *)
Definition bareStep (t : StepType) (d : string) : TestStep :=
  mkStep EmptyString t None None None None d None None None None.

(** ** Platform interface: completions and JSON values *)

Inductive Exn :=
| SyntaxError (msg : string)
| TypeError (msg : string)
| DOMException (msg : string)
| NotAnError.

(** [err instanceof Error ? err.message : 'Unknown error'] *)
Definition errorMessage (e : Exn) : string :=
  match e with
  | SyntaxError msg | TypeError msg | DOMException msg => msg
  | NotAnError => "Unknown error"
  end.

(** The outcome of evaluating an expression that may throw. *)
Inductive Completion (A : Type) :=
| Return (a : A)
| Throw (e : Exn).
Arguments Return {A} a.
Arguments Throw {A} e.

Definition bind {A B} (c : Completion A) (k : A -> Completion B) : Completion B :=
  match c with
  | Return a => k a
  | Throw e => Throw e
  end.

Definition returned {A} (c : Completion A) : bool :=
  match c with Return _ => true | Throw _ => false end.

Section Json.

(** The Number type of the host; only its truthiness is observed. *)
Variable JsNumber : Type.
Variable numberIsZero : JsNumber -> bool.

(** The values [JSON.parse] can produce. *)
#[warnings="-register-all"]
Inductive Json :=
| JNull
| JBool (b : bool)
| JNumber (n : JsNumber)
| JString (s : string)
| JArray (items : list Json)
| JObject (members : list (string * Json)).

(** [Array.isArray(v)], with the array when it is one. *)
Definition asArray (v : Json) : option (list Json) :=
  match v with JArray items => Some items | _ => None end.

(** [if (v)] *)
Definition jsonTruthy (v : Json) : bool :=
  match v with
  | JNull => false
  | JBool b => b
  | JNumber n => negb (numberIsZero n)
  | JString s => nonEmpty s
  | JArray _ | JObject _ => true
  end.

(** [Object.keys(v).length] *)
Definition Object_keys_length (v : Json) : Completion nat :=
  match v with
  | JNull => Throw (TypeError "Cannot convert undefined or null to object")
  | JBool _ | JNumber _ => Return 0
  | JString s => Return (String.length s)
  | JArray items => Return (length items)
  | JObject members => Return (length members)
  end.

End Json.

Arguments JNull {JsNumber}.
Arguments JBool {JsNumber} b.
Arguments JNumber {JsNumber} n.
Arguments JString {JsNumber} s.
Arguments JArray {JsNumber} items.
Arguments JObject {JsNumber} members.
Arguments asArray {JsNumber} v.
Arguments jsonTruthy {JsNumber} numberIsZero v.
Arguments Object_keys_length {JsNumber} v.

(** ** Code Emitter: [generateStepCode] ([lib/testStepTypes.ts]) *)

Definition indent : string := "      ".
Definition defaultBase : string := "https://staging.joinsucceed.ai".

(** [url.startsWith('http://') || url.startsWith('https://')] *)
Definition isAbsolute (url : string) : bool :=
  startsWith url "http://" || startsWith url "https://".

(** [url.startsWith('/') ? url : `/${url}`] *)
Definition cleanUrl (url : string) : string :=
  if startsWith url "/" then url else "/" +:+ url.

(** The part of [getFullUrl] and [resolveUrl] after the base is chosen. *)
Definition resolveAgainst (base url : string) : string :=
  if isAbsolute url then url
  else stripTrailingSlashes base +:+ cleanUrl url.

(** [getFullUrl], a closure over the [baseUrl] argument of [generateStepCode]. *)
Definition getFullUrl (baseUrl : option string) (url : string) : string :=
  if isAbsolute url then url
  else
    let base := orElse baseUrl defaultBase in
    let cleanBase := stripTrailingSlashes base in
    cleanBase +:+ cleanUrl url.

(** The locator expression of the selenium branches, written out at
    each of their click, fill, wait and verifyElement cases. *)
Definition byMethod (selector : string) : string :=
  if startsWith selector "#" then
    "By.id('" +:+ substringFrom 1 selector +:+ "')"
  else if startsWith selector "." then
    "By.className('" +:+ substringFrom 1 selector +:+ "')"
  else
    "By.css('" +:+ selector +:+ "')".

(** [elementVarName]; [rand] is the draw
    [Math.random().toString(36).substring(2, 10)]. *)
Definition elementVarName (step : TestStep) (stepIndex : option nat)
    (rand : string) : string :=
  match stepIndex with
  | Some n => "element" +:+ pretty n
  | None =>
      "element" +:+
      (if nonEmpty (s_id step) then take 8 (keepAlnum (s_id step)) else rand)
  end.

(** [step.action || step.description] *)
Definition actionOrDescription (step : TestStep) : string :=
  orElse (s_action step) (s_description step).

(** The selenium cases; the typescript and the javascript branch are the
    same text.  [None] when no case applies. *)
Definition seleniumCode (step : TestStep) (elementVar : string)
    (baseUrl : option string) : option string :=
  match s_type step with
  | navigate =>
      if truthy (s_url step) then
        Some (indent +:+ "await driver.get('" +:+
              getFullUrl baseUrl (get (s_url step)) +:+ "')")
      else None
  | click =>
      if truthy (s_selector step) then
        Some (indent +:+ "await driver.findElement(" +:+
              byMethod (get (s_selector step)) +:+ ").click()")
      else None
  | fill =>
      if truthy (s_selector step) && truthy (s_value step) then
        Some (indent +:+ "await driver.findElement(" +:+
              byMethod (get (s_selector step)) +:+ ").sendKeys('" +:+
              get (s_value step) +:+ "')")
      else None
  | wait =>
      if truthy (s_selector step) then
        Some (indent +:+ "await driver.wait(until.elementLocated(" +:+
              byMethod (get (s_selector step)) +:+ "), 10000)")
      else None
  | waitForPageLoad =>
      Some (indent +:+
        "await driver.wait(async () => await driver.executeScript('return document.readyState') === 'complete', 10000)")
  | verifyElement =>
      if truthy (s_selector step) then
        Some (indent +:+ "const " +:+ elementVar +:+
              " = await driver.findElement(" +:+
              byMethod (get (s_selector step)) +:+ ")" +:+
              String "010" indent +:+ "expect(await " +:+ elementVar +:+
              ".isDisplayed()).to.be.true")
      else None
  | assert =>
      if nonEmpty (actionOrDescription step) then
        Some (indent +:+ "expect(" +:+ actionOrDescription step +:+
              ").to.be.true")
      else None
  | custom =>
      if nonEmpty (actionOrDescription step) then
        Some (indent +:+ actionOrDescription step)
      else None
  | api_call => None
  end.

Definition playwrightCode (step : TestStep) (baseUrl : option string)
    : option string :=
  match s_type step with
  | navigate =>
      if truthy (s_url step) then
        Some (indent +:+ "await page.goto('" +:+
              getFullUrl baseUrl (get (s_url step)) +:+ "')")
      else None
  | click =>
      if truthy (s_selector step) then
        Some (indent +:+ "await page.click('" +:+ get (s_selector step) +:+ "')")
      else None
  | fill =>
      if truthy (s_selector step) && truthy (s_value step) then
        Some (indent +:+ "await page.fill('" +:+ get (s_selector step) +:+
              "', '" +:+ get (s_value step) +:+ "')")
      else None
  | wait =>
      if truthy (s_selector step) then
        Some (indent +:+ "await page.waitForSelector('" +:+
              get (s_selector step) +:+ "')")
      else None
  | waitForPageLoad =>
      let d := s_description step in
      let loadState :=
        orElse (s_action step) (if nonEmpty d then d else "networkidle") in
      Some (indent +:+ "await page.waitForLoadState('" +:+ loadState +:+ "')")
  | verifyElement =>
      if truthy (s_selector step) then
        Some (indent +:+ "await expect(page.locator('" +:+
              get (s_selector step) +:+ "')).toBeVisible()")
      else None
  | assert =>
      if nonEmpty (actionOrDescription step) then
        Some (indent +:+ "expect(" +:+ actionOrDescription step +:+
              ").toBeTruthy()")
      else None
  | custom =>
      if nonEmpty (actionOrDescription step) then
        Some (indent +:+ actionOrDescription step)
      else None
  | api_call => None
  end.

Definition cypressCode (step : TestStep) (baseUrl : option string)
    : option string :=
  match s_type step with
  | navigate =>
      if truthy (s_url step) then
        Some (indent +:+ "cy.visit('" +:+
              getFullUrl baseUrl (get (s_url step)) +:+ "')")
      else None
  | click =>
      if truthy (s_selector step) then
        Some (indent +:+ "cy.get('" +:+ get (s_selector step) +:+ "').click()")
      else None
  | fill =>
      if truthy (s_selector step) && truthy (s_value step) then
        Some (indent +:+ "cy.get('" +:+ get (s_selector step) +:+
              "').type('" +:+ get (s_value step) +:+ "')")
      else None
  | wait =>
      if truthy (s_selector step) then
        Some (indent +:+ "cy.get('" +:+ get (s_selector step) +:+
              "', { timeout: 10000 })")
      else None
  | waitForPageLoad =>
      Some (indent +:+ "cy.wait(1000) // Wait for page load")
  | verifyElement =>
      if truthy (s_selector step) then
        Some (indent +:+ "cy.get('" +:+ get (s_selector step) +:+
              "').should('be.visible')")
      else None
  | assert =>
      if nonEmpty (actionOrDescription step) then
        Some (indent +:+ "expect(" +:+ actionOrDescription step +:+
              ").to.be.true")
      else None
  | custom =>
      if nonEmpty (actionOrDescription step) then
        Some (indent +:+ actionOrDescription step)
      else None
  | api_call => None
  end.

Section Emitter.

(** The host's JSON object. *)
Context {JsNumber : Type}.
Variable numberIsZero : JsNumber -> bool.
Variable JSON_parse : string -> Completion (Json JsNumber).
Variable JSON_stringify : Json JsNumber -> string.

(** [step.headers ? JSON.parse(step.headers) : {}] *)
Definition parseHeaders (step : TestStep) : Completion (Json JsNumber) :=
  if truthy (s_headers step) then JSON_parse (get (s_headers step))
  else Return (JObject []).

(** [step.body ? JSON.parse(step.body) : null] *)
Definition parseBody (step : TestStep) : Completion (Json JsNumber) :=
  if truthy (s_body step) then JSON_parse (get (s_body step))
  else Return JNull.

(** The [framework === 'jest'] block of the api_call case. *)
Definition jestApiCall (method url expectedStatus : string)
    (headers body : Json JsNumber) : Completion string :=
  let dbIndent := "    " in
  let code := dbIndent +:+ "const response = await fetch('" +:+ url +:+
              "', {" +:+ String "010" EmptyString in
  let code := code +:+ dbIndent +:+ "  method: '" +:+ method +:+ "'," +:+
              String "010" EmptyString in
  bind (Object_keys_length headers) (fun n =>
    let code :=
      if 0 <? n then
        code +:+ dbIndent +:+ "  headers: " +:+ JSON_stringify headers +:+
        "," +:+ String "010" EmptyString
      else code in
    let code :=
      if jsonTruthy numberIsZero body then
        code +:+ dbIndent +:+ "  body: JSON.stringify(" +:+
        JSON_stringify body +:+ ")," +:+ String "010" EmptyString
      else code in
    let code := code +:+ dbIndent +:+ "})" +:+ String "010" EmptyString in
    let code := code +:+ dbIndent +:+ "expect(response.status).toBe(" +:+
                expectedStatus +:+ ")" in
    Return code).

(** The [step.type === 'api_call'] block. *)
Definition apiCallCode (step : TestStep) (framework : string)
    : Completion string :=
  let method := orElse (s_method step) "GET" in
  let url := orElse (s_url step) EmptyString in
  bind (parseHeaders step) (fun headers =>
  bind (parseBody step) (fun body =>
    let expectedStatus := orElse (s_expectedStatus step) "200" in
    if String.eqb framework "jest" then
      jestApiCall method url expectedStatus headers body
    else
      Return ("// API Call: " +:+ method +:+ " " +:+ url))).

(** [generateStepCode(step, framework, language = 'typescript',
    stepIndex?, baseUrl?)] *)
Definition generateStepCode (step : TestStep) (framework : string)
    (language : option string) (stepIndex : option nat)
    (baseUrl : option string) (rand : string) : Completion string :=
  let language := default "typescript" language in
  let elementVar := elementVarName step stepIndex rand in
  match s_type step with
  | api_call => apiCallCode step framework
  | _ =>
      let fallback := indent +:+ "// " +:+ s_description step in
      let code :=
        if String.eqb framework "selenium" then
          if String.eqb language "typescript" then
            seleniumCode step elementVar baseUrl
          else
            seleniumCode step elementVar baseUrl
        else if String.eqb framework "playwright" then
          playwrightCode step baseUrl
        else if String.eqb framework "cypress" then
          cypressCode step baseUrl
        else None in
      Return (default fallback code)
  end.

End Emitter.

(** ** Code Emitter: [formatExpectedResult] ([lib/testCodeGenerator.ts]) *)

Definition isIdentStart (c : ascii) : bool :=
  isLetter c || Ascii.eqb c "_" || Ascii.eqb c "$".

Definition isIdentPart (c : ascii) : bool :=
  isIdentStart c || isDigit c.

Definition isComparisonChar (c : ascii) : bool :=
  Ascii.eqb c "!" || Ascii.eqb c "=" || Ascii.eqb c "<" || Ascii.eqb c ">".

(** [s.match(/^[a-zA-Z_$][a-zA-Z0-9_$]*\s*[!=<>]/)].  The three classes are
    pairwise disjoint, so the two starred groups match greedily. *)
Definition matchesComparison (s : string) : bool :=
  match s with
  | EmptyString => false
  | String c r =>
      isIdentStart c &&
      match dropWhile isWhiteSpace (dropWhile isIdentPart r) with
      | EmptyString => false
      | String o _ => isComparisonChar o
      end
  end.

Definition isQuote (c : ascii) : bool :=
  Ascii.eqb c "'" || Ascii.eqb c (ascii_of_nat 34) || Ascii.eqb c "`".

(** [s.match] against the pattern "start of text, then a single quote, a
    double quote or a backquote". *)
Definition matchesStringLiteral (s : string) : bool :=
  match s with
  | EmptyString => false
  | String c _ => isQuote c
  end.

(** The [isValidExpression] disjunction, on the trimmed text. *)
Definition isValidExpression (trimmed : string) : bool :=
  startsWith trimmed "true" ||
  startsWith trimmed "false" ||
  startsWith trimmed "page." ||
  startsWith trimmed "driver." ||
  startsWith trimmed "cy." ||
  startsWith trimmed "await " ||
  startsWith trimmed "expect(" ||
  matchesComparison trimmed ||
  matchesStringLiteral trimmed.

Definition formatExpectedResult (expectedResult : string) : string :=
  if negb (nonEmpty expectedResult) || negb (nonEmpty (trim expectedResult))
  then "true"
  else
    let trimmed := trim expectedResult in
    if isValidExpression trimmed then trimmed else "true".

(** ** Live Execution Engine ([components/BrowserTestRunner.tsx]) *)

(** The part of [SavedTestCase] the runner reads. *)
Record TestCase := mkTestCase {
  tc_id : string;
  tc_steps : list string;
  tc_baseUrl : option string;
  tc_targetPageUrl : string
}.

Section ParseSteps.

Context {JsNumber : Type}.
Variable JSON_parse : string -> Completion (Json JsNumber).

(** [parseSteps]: the parsed array is returned as [TestStep[]] by an
    unchecked cast.  The inner [try] swallows the exception of
    [JSON.parse]; nothing else in the body throws, so the outer
    [catch] is never entered. *)
Definition parseSteps (testCase : TestCase) : list (Json JsNumber) :=
  match tc_steps testCase with
  | firstStep :: _ =>
      if startsWith firstStep "[" || startsWith firstStep "{" then
        match JSON_parse firstStep with
        | Return parsed =>
            match asArray parsed with
            | Some items => items
            | None => []
            end
        | Throw _ => []
        end
      else []
  | [] => []
  end.

End ParseSteps.

(** [resolveUrl], a closure over the [testCase] prop. *)
Definition resolveUrl (testCase : TestCase) (url : string) : string :=
  if isAbsolute url then url
  else
    let baseUrl :=
      orElse (tc_baseUrl testCase)
        (if nonEmpty (tc_targetPageUrl testCase) then tc_targetPageUrl testCase
         else defaultBase) in
    let cleanBase := stripTrailingSlashes baseUrl in
    cleanBase +:+ cleanUrl url.

Inductive Status := pending | running | passed | failed.

Definition Status_eqb (a b : Status) : bool :=
  match a, b with
  | pending, pending | running, running | passed, passed | failed, failed => true
  | _, _ => false
  end.

Record TestResult := mkResult {
  r_step : string;
  r_status : Status;
  r_message : option string;
  r_duration : option Z
}.

(** The body of the POST to [/api/test-executions]. *)
Record ExecutionRecord := mkRecord {
  e_testCaseId : string;
  e_status : Status;
  e_startedAt : string;
  e_completedAt : string;
  e_durationMs : Z;
  e_totalSteps : nat;
  e_passedSteps : nat;
  e_failedSteps : nat;
  e_errorMessage : option string;
  e_stepResults : list TestResult
}.

(** A handle on a browser window. *)
Definition Win := nat.

(** What the run does to the outside, in order. *)
Inductive Effect :=
| EOpenWindow (w : option Win)
| EInitialNavigation (w : Win) (url : string)
| EExecuteStep (i : nat)
| EStepNavigation (i : nat) (w : Win) (url : string)
| EPost (r : ExecutionRecord)
| ESetIsRunning (b : bool).

(** The result of [querySelector] as the step cases look at it. *)
Inductive Element :=
| NoElement
| FoundElement (visible : bool).

(** What one call of [executeStep] observes of the window it holds:
    the read of [closed], the read of [location.href], the assignment to
    [location.href], the read of [location.href] after it, and the [try]
    block around [querySelector] and the action on the element. *)
Record WindowObs := mkObs {
  o_closed : Completion bool;
  o_href : Completion unit;
  o_assign : Completion unit;
  o_hrefAfter : Completion unit;
  o_dom : Completion Element
}.

Record StepResult := mkStepResult {
  success : bool;
  message : string
}.

Definition ok (m : string) : StepResult := mkStepResult true m.
Definition ko (m : string) : StepResult := mkStepResult false m.

Section ExecuteStep.

(** The state and props captured by the closure: [testWindow] is the
    state value of the render that created the closure. *)
Variable testCase : TestCase.
Variable testWindow : option Win.

(** The guard before the [switch]: [Some r] when it returns [r]. *)
Definition windowGuard (step : TestStep) (obs : WindowObs)
    : option StepResult :=
  match s_type step with
  | wait | waitForPageLoad => None
  | t =>
      match testWindow with
      | None => Some (ko "Test window is not available")
      | Some _ =>
          match t with
          | navigate => None
          | _ =>
              let isWindowClosed :=
                match o_closed obs with
                | Return b => b
                | Throw _ => false
                end in
              if isWindowClosed then Some (ko "Test window was closed")
              else None
          end
      end
  end.

(** [canAccessWindow] *)
Definition canAccessWindow (obs : WindowObs) : bool :=
  match testWindow with
  | Some _ => returned (o_href obs)
  | None => false
  end.

(** The [switch] of [executeStep].  For steps of the declared type
    [resolveUrl] does not throw and every other throwing operation sits
    in a [try] of its own, so the 'Navigation failed' and
    'Error executing step' handlers are not entered. *)
Definition stepSwitch (step : TestStep) (stepIndex : nat) (obs : WindowObs)
    : StepResult * list Effect :=
  match s_type step with
  | navigate =>
      match testWindow with
      | None => (ko "Test window is not available", [])
      | Some w =>
          if truthy (s_url step) then
            let fullUrl := resolveUrl testCase (get (s_url step)) in
            match o_assign obs with
            | Return _ =>
                match o_hrefAfter obs with
                | Return _ =>
                    (ok ("Navigated to " +:+ fullUrl),
                     [EStepNavigation stepIndex w fullUrl])
                | Throw _ =>
                    (ok ("Navigated to " +:+ fullUrl +:+
                         " (cross-origin - watch the test window)"),
                     [EStepNavigation stepIndex w fullUrl])
                end
            | Throw _ =>
                (ok ("Navigation attempted to " +:+ fullUrl +:+
                     " (cross-origin - watch the test window to verify)"),
                 [EStepNavigation stepIndex w fullUrl])
            end
          else (ko "No URL provided", [])
      end
  | waitForPageLoad =>
      if negb (canAccessWindow obs) then
        (ok "Waiting for page load (cross-origin - watch the test window)", [])
      else (ok "Page loaded", [])
  | wait =>
      if truthy (s_selector step) then
        if negb (canAccessWindow obs) then
          (ok ("Waited for " +:+ get (s_selector step) +:+
               " (cross-origin - watch the test window)"), [])
        else (ok ("Waited for " +:+ get (s_selector step)), [])
      else (ko "No selector provided", [])
  | click =>
      match testWindow with
      | None => (ko "Test window is not available", [])
      | Some _ =>
          if truthy (s_selector step) then
            if negb (canAccessWindow obs) then
              (ko "Cannot access window (cross-origin). Please verify manually in the test window.", [])
            else
              match o_dom obs with
              | Return (FoundElement _) =>
                  (ok ("Clicked " +:+ get (s_selector step)), [])
              | Return NoElement =>
                  (ko ("Element not found: " +:+ get (s_selector step)), [])
              | Throw err =>
                  (ko ("Error clicking: " +:+ errorMessage err), [])
              end
          else (ko "No selector provided", [])
      end
  | fill =>
      match testWindow with
      | None => (ko "Test window is not available", [])
      | Some _ =>
          if truthy (s_selector step) && truthy (s_value step) then
            if negb (canAccessWindow obs) then
              (ko "Cannot access window (cross-origin). Please fill manually in the test window.", [])
            else
              match o_dom obs with
              | Return (FoundElement _) =>
                  (ok ("Filled " +:+ get (s_selector step) +:+ " with " +:+
                       get (s_value step)), [])
              | Return NoElement =>
                  (ko ("Element not found: " +:+ get (s_selector step)), [])
              | Throw err =>
                  (ko ("Error filling: " +:+ errorMessage err), [])
              end
          else (ko "No selector or value provided", [])
      end
  | verifyElement =>
      match testWindow with
      | None => (ko "Test window is not available", [])
      | Some _ =>
          if truthy (s_selector step) then
            if negb (canAccessWindow obs) then
              (ko "Cannot verify element (cross-origin). Please verify manually in the test window.", [])
            else
              match o_dom obs with
              | Return (FoundElement true) =>
                  (ok ("Element found and visible: " +:+
                       get (s_selector step)), [])
              | Return _ =>
                  (ko ("Element not found or not visible: " +:+
                       get (s_selector step)), [])
              | Throw err =>
                  (ko ("Error verifying: " +:+ errorMessage err), [])
              end
          else (ko "No selector provided", [])
      end
  | assert =>
      let d := s_description step in
      (ok (if nonEmpty d then d else "Assertion passed"), [])
  | custom | api_call =>
      (ko ("Unknown step type: " +:+ StepType_name (s_type step)), [])
  end.

Definition executeStep (step : TestStep) (stepIndex : nat) (obs : WindowObs)
    : StepResult * list Effect :=
  match windowGuard step obs with
  | Some r => (r, [])
  | None => stepSwitch step stepIndex obs
  end.

End ExecuteStep.

(** The React state of the component. *)
Record Component := mkComponent {
  isRunning : bool;
  results : list TestResult;
  currentStep : Z;
  testWindow : option Win;
  error : option string
}.

Definition initialState : Component := mkComponent false [] (-1) None None.

Definition setIsRunning (b : bool) (c : Component) : Component :=
  mkComponent b (results c) (currentStep c) (testWindow c) (error c).
Definition setResults (f : list TestResult -> list TestResult) (c : Component)
    : Component :=
  mkComponent (isRunning c) (f (results c)) (currentStep c) (testWindow c)
    (error c).
Definition setCurrentStep (n : Z) (c : Component) : Component :=
  mkComponent (isRunning c) (results c) n (testWindow c) (error c).
Definition setTestWindow (w : option Win) (c : Component) : Component :=
  mkComponent (isRunning c) (results c) (currentStep c) w (error c).
Definition setError (e : option string) (c : Component) : Component :=
  mkComponent (isRunning c) (results c) (currentStep c) (testWindow c) e.

(** What the browser and the clock answer during one run. *)
Record RunEnv := mkEnv {
  env_open : option Win;          (* [window.open]; [None] when blocked *)
  env_write : Completion unit;    (* [newWindow.document.write] and [close] *)
  env_assign : Completion unit;   (* the up-front assignment to [location.href] *)
  env_href : Completion unit;     (* the read of [location.href] after it *)
  env_obs : nat -> WindowObs;     (* what [executeStep] observes at step [i] *)
  env_duration : nat -> Z;        (* [Date.now() - startTime] at step [i] *)
  env_startedAt : string;
  env_completedAt : string;
  env_totalDuration : Z
}.

(** [result.message.includes(..) || ..] *)
Definition isCrossOriginWarning (message : string) : bool :=
  includes message "cross-origin" ||
  includes message "watch the test window" ||
  includes message "manual verification".

(** [prev.map((r, idx) => idx === i ? f(r) : r)] *)
Definition mapAt (i : nat) (f : TestResult -> TestResult)
    (prev : list TestResult) : list TestResult :=
  imap (fun idx r => if idx =? i then f r else r) prev.

(** [rs.filter(r => r.status === st).length] *)
Definition countStatus (st : Status) (rs : list TestResult) : nat :=
  length (List.filter (fun r => Status_eqb (r_status r) st) rs).

(** [step.description || step.type] *)
Definition stepLabel (step : TestStep) : string :=
  if nonEmpty (s_description step) then s_description step
  else StepType_name (s_type step).

(** [{ ...r, status: 'running' }] *)
Definition markRunning (r : TestResult) : TestResult :=
  mkResult (r_step r) running (r_message r) (r_duration r).

(** [{ ...r, status: 'passed', message }] *)
Definition markPassed (msg : string) (r : TestResult) : TestResult :=
  mkResult (r_step r) passed (Some msg) (r_duration r).

(** [{ ...r, status: result.success ? 'passed' : 'failed',
       message: result.message, duration }] *)
Definition finishResult (result : StepResult) (duration : Z) (r : TestResult)
    : TestResult :=
  mkResult (r_step r) (if success result then passed else failed)
    (Some (message result)) (Some duration).

(** [structuredSteps.find(s => s.type === 'navigate' && s.url)] *)
Definition firstNavigateStep (steps : list TestStep) : option TestStep :=
  List.find (fun s => StepType_eqb (s_type s) navigate && truthy (s_url s)) steps.

Inductive LoopExit := Completed | Aborted.

Section RunTest.

Variable testCase : TestCase.
Variable structuredSteps : list TestStep.

(** The state of the render whose closure is running: [results],
    [testWindow] and [error] keep these values for the whole run,
    whatever the setters do to the live state. *)
Variable captured : Component.
Variable env : RunEnv.

Definition failureMessage (i : nat) (result : StepResult) : string :=
  "Test failed at step " +:+ pretty (i + 1) +:+ ": " +:+ message result.

(** The record posted on the early-abort path. *)
Definition abortRecord (i : nat) (result : StepResult) (duration : Z)
    : ExecutionRecord :=
  let currentResults :=
    mapAt i (finishResult result duration) (results captured) in
  mkRecord (tc_id testCase) failed (env_startedAt env) (env_completedAt env)
    (env_totalDuration env) (length structuredSteps)
    (countStatus passed currentResults) (countStatus failed currentResults)
    (Some (failureMessage i result)) currentResults.

(** The record posted when the loop ran to its end. *)
Definition completionRecord : ExecutionRecord :=
  let passedSteps := countStatus passed (results captured) in
  let failedSteps := countStatus failed (results captured) in
  let finalStatus := if 0 <? failedSteps then failed else passed in
  mkRecord (tc_id testCase) finalStatus (env_startedAt env)
    (env_completedAt env) (env_totalDuration env) (length structuredSteps)
    passedSteps failedSteps
    (if truthy (error captured) then error captured else None)
    (results captured).

(** The [for] loop from index [i] on, [rest] being the steps from [i]. *)
Fixpoint runLoop (skipFirstNavigate : bool) (i : nat) (rest : list TestStep)
    (live : Component) : LoopExit * Component * list Effect :=
  match rest with
  | [] => (Completed, live, [])
  | step :: rest' =>
      if skipFirstNavigate && (i =? 0) && StepType_eqb (s_type step) navigate
      then
        let live := setCurrentStep (Z.of_nat i) live in
        let live :=
          setResults
            (mapAt i (markPassed ("Already navigated to " +:+
                                  resolveUrl testCase (orElse (s_url step) EmptyString))))
            live in
        runLoop skipFirstNavigate (S i) rest' live
      else
        let live := setCurrentStep (Z.of_nat i) live in
        let live := setResults (mapAt i markRunning) live in
        let '(result, effs) :=
          executeStep testCase (testWindow captured) step i (env_obs env i) in
        let duration := env_duration env i in
        let live := setResults (mapAt i (finishResult result duration)) live in
        if negb (success result) && negb (isCrossOriginWarning (message result))
        then
          let live := setError (Some (failureMessage i result)) live in
          let live := setIsRunning false live in
          (Aborted, live,
           EExecuteStep i :: effs ++
           [EPost (abortRecord i result duration); ESetIsRunning false])
        else
          let '(exit, live', tr) :=
            runLoop skipFirstNavigate (S i) rest' live in
          (exit, live', EExecuteStep i :: effs ++ tr)
  end.

(** From the loop to the end of [runTest]. *)
Definition mainLoop (skipFirstNavigate : bool) (live : Component)
    (pre : list Effect) : Component * list Effect * Completion unit :=
  let '(exit, live, tr) := runLoop skipFirstNavigate 0 structuredSteps live in
  match exit with
  | Aborted => (live, pre ++ tr, Return tt)
  | Completed =>
      let live := setIsRunning false live in
      let live := setCurrentStep (-1) live in
      (live, pre ++ tr ++ [EPost completionRecord; ESetIsRunning false],
       Return tt)
  end.

(** The up-front navigation and what follows it. *)
Definition afterWrite (newWindow : Win) (live : Component)
    (pre : list Effect) : Component * list Effect * Completion unit :=
  match firstNavigateStep structuredSteps with
  | Some firstNavigate =>
      let fullUrl := resolveUrl testCase (get (s_url firstNavigate)) in
      let pre := pre ++ [EInitialNavigation newWindow fullUrl] in
      match env_assign env with
      | Return _ =>
          let live :=
            match env_href env with
            | Return _ => live
            | Throw _ =>
                setError (Some "Note: Test window navigated to a different origin. Some automated steps may require manual verification.") live
            end in
          mainLoop true live pre
      | Throw err =>
          let live :=
            setError (Some ("Failed to navigate: " +:+ errorMessage err)) live in
          let live := setIsRunning false live in
          (live, pre ++ [ESetIsRunning false], Return tt)
      end
  | None => mainLoop false live pre
  end.

(** [runTest]: the live state it leaves, what it did, and whether the
    async function returned or threw. *)
Definition runTest : Component * list Effect * Completion unit :=
  match structuredSteps with
  | [] =>
      (setError (Some "No structured test steps found. This test case may need to be edited to include step-by-step instructions.") captured,
       [], Return tt)
  | _ =>
      let live := setIsRunning true captured in
      let live := setError None live in
      let live :=
        setResults
          (fun _ => map (fun step => mkResult (stepLabel step) pending None None)
                      structuredSteps)
          live in
      match env_open env with
      | None =>
          let live :=
            setError (Some "Failed to open test window. Please allow popups for this site.") live in
          let live := setIsRunning false live in
          (live, [ESetIsRunning true; EOpenWindow None; ESetIsRunning false],
           Return tt)
      | Some newWindow =>
          let live := setTestWindow (Some newWindow) live in
          let pre := [ESetIsRunning true; EOpenWindow (Some newWindow)] in
          match env_write env with
          | Throw err => (live, pre, Throw err)
          | Return _ => afterWrite newWindow live pre
          end
      end
  end.

End RunTest.

(** The parts of a run's outcome. *)
Definition stateOf (out : Component * list Effect * Completion unit) : Component :=
  out.1.1.
Definition traceOf (out : Component * list Effect * Completion unit) : list Effect :=
  out.1.2.

(** The records posted, in order. *)
Fixpoint posts (tr : list Effect) : list ExecutionRecord :=
  match tr with
  | [] => []
  | EPost r :: tr' => r :: posts tr'
  | _ :: tr' => posts tr'
  end.

(** ** The steps shown before a run: [getDisplaySteps]
       ([components/BrowserTestRunner.tsx]) *)

(** An entry of the list the component shows while there are no results. *)
Record DisplayStep := mkDisplay {
  d_description : string;
  d_isCode : option bool
}.

(** [step.trim().startsWith('await') || .. 'const' || .. 'expect'] *)
Definition looksLikeCodeLine (step : string) : bool :=
  startsWith (trim step) "await" || startsWith (trim step) "const" ||
  startsWith (trim step) "expect".

Section DisplaySteps.

Context {JsNumber : Type}.
Variable JSON_parse : string -> Completion (Json JsNumber).

(** The negation of the [filter] callback: the string starts with an
    opening bracket or brace and [JSON.parse] accepts it. *)
Definition isJsonText (step : string) : bool :=
  (startsWith step "[" || startsWith step "{") && returned (JSON_parse step).

(** [getDisplaySteps]; [structuredSteps] is the result of [parseSteps]
    read at its declared type. *)
Definition getDisplaySteps (testCase : TestCase)
    (structuredSteps : list TestStep) : list DisplayStep :=
  if 0 <? length structuredSteps then
    map (fun step => mkDisplay (stepLabel step) None) structuredSteps
  else
    map (fun step => mkDisplay step (Some (looksLikeCodeLine step)))
      (List.filter (fun step => negb (isJsonText step)) (tc_steps testCase)).

End DisplaySteps.

(** ** More string primitives *)

(** [String.prototype.toLowerCase] on one code unit below 256: the
    letters A to Z and the Latin-1 capitals (192 to 222 but the
    multiplication sign 215) move up by 32. *)
Definition toLowerUnit (c : ascii) : ascii :=
  let n := nat_of_ascii c in
  if ((65 <=? n) && (n <=? 90)) ||
     ((192 <=? n) && (n <=? 222) && negb (n =? 215))
  then ascii_of_nat (n + 32) else c.

Fixpoint mapUnits (f : ascii -> ascii) (s : string) : string :=
  match s with
  | EmptyString => EmptyString
  | String c r => String (f c) (mapUnits f r)
  end.

(** [s.toLowerCase()] *)
Definition toLowerCase (s : string) : string := mapUnits toLowerUnit s.

(** [s.replace(/C+/g, rep)] for a class [C] of code units: every maximal
    run of units of the class becomes one [rep].  [inRun] tells that the
    unit before was of the class. *)
Fixpoint replaceRunsFrom (inRun : bool) (p : ascii -> bool) (rep : string)
    (s : string) : string :=
  match s with
  | EmptyString => EmptyString
  | String c r =>
      if p c then
        (if inRun then EmptyString else rep) +:+ replaceRunsFrom true p rep r
      else String c (replaceRunsFrom false p rep r)
  end.

Definition replaceRuns (p : ascii -> bool) (rep : string) (s : string) : string :=
  replaceRunsFrom false p rep s.

(** [s.replace(/C/g, rep)] for a class [C] of code units. *)
Fixpoint replaceEach (p : ascii -> bool) (rep : string) (s : string) : string :=
  match s with
  | EmptyString => EmptyString
  | String c r =>
      if p c then rep +:+ replaceEach p rep r else String c (replaceEach p rep r)
  end.

(** [lines.join(sep)] *)
Fixpoint join (sep : string) (items : list string) : string :=
  match items with
  | [] => EmptyString
  | [x] => x
  | x :: rest => x +:+ sep +:+ join sep rest
  end.

Definition newline : string := String "010" EmptyString.
Definition isNewline (c : ascii) : bool := Ascii.eqb c "010".
Definition isApostrophe (c : ascii) : bool := Ascii.eqb c "'".
Definition doubleQuote : string := String "034" EmptyString.

(** ** Code Emitter: [generateTestCode] ([lib/testCodeGenerator.ts]) *)

(** The interface [TestCase] of the generator. *)
Record GeneratorCase := mkCase {
  g_name : string;
  g_description : string;
  g_steps : list string;
  g_expectedResult : string
}.

(** [testCase.name.toLowerCase().replace(/\s+/g, '_')] *)
Definition pythonName (name : string) : string :=
  replaceRuns isWhiteSpace "_" (toLowerCase name).

(** [testCase.name.replace(/\s+/g, '')] *)
Definition javaName (name : string) : string :=
  replaceRuns isWhiteSpace EmptyString name.

(** [s.replace(/'/g, "\\'")] *)
Definition escapeApostrophes (s : string) : string :=
  replaceEach isApostrophe (String "\" (String "'" EmptyString)) s.

(** [cleanDesc]: newlines to spaces, apostrophes escaped, cut at 200. *)
Definition cleanDesc (description : string) : string :=
  take 200 (escapeApostrophes (replaceEach isNewline " " description)).

(** [cleanName] *)
Definition cleanName (name : string) : string := escapeApostrophes name.

(** [testCase.steps.map(step => `    ${step}`).join('\n')] *)
Definition indentedSteps (steps : list string) : string :=
  join newline (map (fun step => "    " +:+ step) steps).

(** [generateTestCode]; each template literal is given line by line. *)
Definition generateTestCode (testCase : GeneratorCase)
    (framework language : string) : string :=
  let steps := indentedSteps (g_steps testCase) in
  let name := g_name testCase in
  let description := g_description testCase in
  let expectedResult := g_expectedResult testCase in
  let safeExpectedResult := formatExpectedResult expectedResult in
  let docstring :=
    "    " +:+ doubleQuote +:+ doubleQuote +:+ doubleQuote +:+ description +:+
    doubleQuote +:+ doubleQuote +:+ doubleQuote in
  if String.eqb language "python" then
    if String.eqb framework "playwright" then
      join newline
        ["import pytest";
         "from playwright.sync_api import Page, expect";
         EmptyString;
         "def test_" +:+ pythonName name +:+ "(page: Page):";
         docstring;
         steps;
         "    # Expected: " +:+ expectedResult;
         "    expect(" +:+ safeExpectedResult +:+ ")"]
    else if String.eqb framework "selenium" then
      join newline
        ["from selenium import webdriver";
         "from selenium.webdriver.common.by import By";
         "from selenium.webdriver.support.ui import WebDriverWait";
         "from selenium.webdriver.support import expected_conditions as EC";
         EmptyString;
         "def test_" +:+ pythonName name +:+ "():";
         docstring;
         "    driver = webdriver.Chrome()";
         "    try:";
         steps;
         "        # Expected: " +:+ expectedResult;
         "        assert " +:+ safeExpectedResult;
         "    finally:";
         "        driver.quit()"]
    else
      join newline
        ["def test_" +:+ pythonName name +:+ "():";
         docstring;
         steps;
         "    # Expected: " +:+ expectedResult;
         "    assert " +:+ safeExpectedResult]
  else if String.eqb language "java" then
    if String.eqb framework "selenium" then
      join newline
        ["import org.openqa.selenium.WebDriver;";
         "import org.openqa.selenium.chrome.ChromeDriver;";
         "import org.junit.Test;";
         "import static org.junit.Assert.assertTrue;";
         EmptyString;
         "public class " +:+ javaName name +:+ "Test {";
         "    @Test";
         "    public void test" +:+ javaName name +:+ "() {";
         "        // " +:+ description;
         "        WebDriver driver = new ChromeDriver();";
         "        try {";
         steps;
         "            // Expected: " +:+ expectedResult;
         "            assertTrue(" +:+ safeExpectedResult +:+ ");";
         "        } finally {";
         "            driver.quit();";
         "        }";
         "    }";
         "}"]
    else
      join newline
        ["@Test";
         "public void test" +:+ javaName name +:+ "() {";
         "    // " +:+ description;
         steps;
         "    // Expected: " +:+ expectedResult;
         "    assertTrue(" +:+ safeExpectedResult +:+ ");";
         "}"]
  else if String.eqb framework "playwright" then
    join newline
      ["import { test, expect } from '@playwright/test'";
       EmptyString;
       "test('" +:+ description +:+ "', async ({ page }) => {";
       steps;
       "  // Expected: " +:+ expectedResult;
       "  expect(" +:+ safeExpectedResult +:+ ").toBeTruthy()";
       "})"]
  else if String.eqb framework "selenium" then
    if String.eqb language "typescript" then
      join newline
        ["import { Builder, By, until } from 'selenium-webdriver'";
         "import { expect } from 'chai'";
         EmptyString;
         "describe('" +:+ cleanName name +:+ "', () => {";
         "  it('" +:+ cleanDesc description +:+ "', async () => {";
         "    const driver = await new Builder().forBrowser('chrome').build()";
         "    try {";
         steps;
         "      // Expected: " +:+ expectedResult;
         "      expect(" +:+ safeExpectedResult +:+ ").to.be.true";
         "    } finally {";
         "      await driver.quit()";
         "    }";
         "  })";
         "})"]
    else
      join newline
        ["const { Builder, By, until } = require('selenium-webdriver')";
         "const { expect } = require('chai')";
         EmptyString;
         "describe('" +:+ name +:+ "', () => {";
         "  it('" +:+ description +:+ "', async () => {";
         "    const driver = await new Builder().forBrowser('chrome').build()";
         "    try {";
         steps;
         "      // Expected: " +:+ expectedResult;
         "      expect(" +:+ safeExpectedResult +:+ ").to.be.true";
         "    } finally {";
         "      await driver.quit()";
         "    }";
         "  })";
         "})"]
  else if String.eqb framework "cypress" then
    join newline
      ["describe('" +:+ name +:+ "', () => {";
       "  it('" +:+ description +:+ "', () => {";
       steps;
       "    // Expected: " +:+ expectedResult;
       "    expect(" +:+ safeExpectedResult +:+ ").to.be.true";
       "  })";
       "})"]
  else if String.eqb framework "jest" then
    join newline
      ["describe('" +:+ name +:+ "', () => {";
       "  it('" +:+ description +:+ "', async () => {";
       steps;
       "    // Expected: " +:+ expectedResult;
       "    // Note: assertions are handled within steps for API calls";
       "    if ('" +:+ expectedResult +:+ "' && '" +:+ expectedResult +:+
         "' !== 'true') {";
       "       expect(" +:+ safeExpectedResult +:+ ").toBe(true)";
       "    }";
       "  })";
       "})"]
  else if String.eqb framework "mocha" then
    join newline
      ["describe('" +:+ name +:+ "', () => {";
       "  it('" +:+ description +:+ "', () => {";
       steps;
       "    // Expected: " +:+ expectedResult;
       "    expect(" +:+ safeExpectedResult +:+ ").to.be.true";
       "  })";
       "})"]
  else if String.eqb framework "vitest" then
    join newline
      ["import { describe, it, expect } from 'vitest'";
       EmptyString;
       "describe('" +:+ name +:+ "', () => {";
       "  it('" +:+ description +:+ "', () => {";
       steps;
       "    // Expected: " +:+ expectedResult;
       "    expect(" +:+ safeExpectedResult +:+ ").toBe(true)";
       "  })";
       "})"]
  else
    join newline
      ["// " +:+ name;
       "// " +:+ description;
       join newline (g_steps testCase);
       "// Expected: " +:+ expectedResult].

(** ** Test-case route: [generateTestFileContent]
       ([app/api/test-cases/route.ts]) *)

(** The [filter] callback [s && s.trim()]. *)
Definition nonBlank (s : string) : bool := nonEmpty s && nonEmpty (trim s).

(** [getImports(fw, lang)] *)
Definition getImports (fw lang : string) : string :=
  if String.eqb fw "playwright" then
    if String.eqb lang "python" then
      join newline
        [ "import pytest";
          "from playwright.sync_api import Page, expect" ]
    else "import { test, expect } from '@playwright/test'"
  else if String.eqb fw "selenium" then
    if String.eqb lang "python" then
      join newline
        [ "from selenium import webdriver";
          "from selenium.webdriver.common.by import By";
          "from selenium.webdriver.support.ui import WebDriverWait";
          "from selenium.webdriver.support import expected_conditions as EC" ]
    else if String.eqb lang "java" then
      join newline
        [ "import org.openqa.selenium.WebDriver;";
          "import org.openqa.selenium.chrome.ChromeDriver;";
          "import org.junit.Test;";
          "import static org.junit.Assert.assertTrue;" ]
    else if String.eqb lang "typescript" then
      join newline
        [ "import { Builder, By, until } from 'selenium-webdriver'";
          "import { expect } from 'chai'" ]
    else
      join newline
        [ "const { Builder, By, until } = require('selenium-webdriver');";
          "const { expect } = require('chai');" ]
  else if String.eqb fw "cypress" then
    "// Cypress commands are available globally"
  else if String.eqb fw "jest" then "// Jest globals are available"
  else if String.eqb fw "mocha" then "const { expect } = require('chai')"
  else if String.eqb fw "vitest" then
    "import { describe, it, expect } from 'vitest'"
  else EmptyString.

(** [testCode.includes('import ') || testCode.includes('require(')] *)
Definition hasImports (testCode : string) : bool :=
  includes testCode "import " || includes testCode "require(".

(** [imports ? `${imports}\n\n${testCode}` : testCode] with
    [imports = hasImports ? '' : getImports(framework, language)] *)
Definition withImports (framework language testCode : string) : string :=
  let imports :=
    if hasImports testCode then EmptyString
    else getImports framework language in
  if nonEmpty imports then imports +:+ newline +:+ newline +:+ testCode
  else testCode.

Section TestFileContent.

Context {JsNumber : Type}.
Variable numberIsZero : JsNumber -> bool.
Variable JSON_parse : string -> Completion (Json JsNumber).
Variable JSON_stringify : Json JsNumber -> string.

(** [JSON.parse(firstStep)] read at its declared type [TestStep[]]. *)
Variable parseStructured : string -> Completion (list TestStep).

Variable framework language : string.
Variable baseUrl : option string.

(** [generateStepCode(step, framework, language, index, baseUrl)]; an
    index is passed, so no random name is drawn. *)
Definition stepCodeAt (index : nat) (step : TestStep) : Completion string :=
  generateStepCode numberIsZero JSON_parse JSON_stringify step framework
    (Some language) (Some index) baseUrl EmptyString.

(** [structuredSteps.map((step, index) => generateStepCode(..))] from
    position [index] on: the first exception ends the map. *)
Fixpoint mapStepCodes (index : nat) (structuredSteps : list TestStep)
    : Completion (list string) :=
  match structuredSteps with
  | [] => Return []
  | step :: rest =>
      bind (stepCodeAt index step) (fun code =>
      bind (mapStepCodes (S index) rest) (fun codes =>
        Return (code :: codes)))
  end.

(** The value of [stepCodes] when [generateTestCode] is called. *)
Definition stepCodesOf (steps : list string) : list string :=
  match steps with
  | [] => []
  | firstStep :: _ =>
      if startsWith (trim firstStep) "[" then
        match bind (parseStructured firstStep) (mapStepCodes 0) with
        | Return codes => codes
        | Throw _ => List.filter nonBlank steps
        end
      else List.filter nonBlank steps
  end.

(** [generateTestFileContent(name, description, steps, expectedResult,
    framework, language, baseUrl)] *)
Definition generateTestFileContent (name description : string)
    (steps : list string) (expectedResult : string) : string :=
  let testCode :=
    generateTestCode (mkCase name description (stepCodesOf steps) expectedResult)
      framework language in
  withImports framework language testCode.

End TestFileContent.

(** ** Download route: the file name
       ([app/api/download-test-file/route.ts]) *)

Definition isDash (c : ascii) : bool := Ascii.eqb c "-".

Definition dropFirstIf (p : ascii -> bool) (s : string) : string :=
  match s with
  | EmptyString => EmptyString
  | String c r => if p c then r else s
  end.

Fixpoint dropLastIf (p : ascii -> bool) (s : string) : string :=
  match s with
  | EmptyString => EmptyString
  | String c EmptyString => if p c then EmptyString else s
  | String c r => String c (dropLastIf p r)
  end.

(** [s.replace(/^-|-$/g, '')]: one dash is removed at the start and one
    at the end; on the one-unit string made of a dash both alternatives
    meet on the same unit and the result is empty either way. *)
Definition stripEdgeDashes (s : string) : string :=
  dropLastIf isDash (dropFirstIf isDash s).

(** [testCase.name.replace(/[^a-z0-9]/gi, '-').toLowerCase()
      .replace(/-+/g, '-').replace(/^-|-$/g, '')] *)
Definition safeName (name : string) : string :=
  stripEdgeDashes
    (replaceRuns isDash "-"
       (toLowerCase
          (replaceEach (fun c => negb (isLetter c || isDigit c)) "-" name))).

(** ** Test-case form: [handleSubmit] ([components/TestCaseModal.tsx]) *)

(** The fields of the form data that [handleSubmit] reads. *)
Record FormData := mkForm {
  f_steps : list string;
  f_structuredSteps : list TestStep;
  f_framework : string;
  f_language : string;
  f_baseUrl : string
}.

Section HandleSubmit.

Context {JsNumber : Type}.
Variable numberIsZero : JsNumber -> bool.
Variable JSON_parse : string -> Completion (Json JsNumber).
Variable JSON_stringify : Json JsNumber -> string.

(** [JSON.stringify(formData.structuredSteps)] *)
Variable stringifySteps : list TestStep -> string.

(** [handleSubmit]: the [steps] of the object given to [onSave]; an
    exception of [generateStepCode] leaves the handler before [onSave]
    is called. *)
Definition handleSubmit (useStructuredSteps : bool) (formData : FormData)
    : Completion (list string) :=
  if useStructuredSteps then
    if 0 <? length (f_structuredSteps formData) then
      bind (mapStepCodes numberIsZero JSON_parse JSON_stringify
              (f_framework formData) (f_language formData)
              (Some (f_baseUrl formData)) 0 (f_structuredSteps formData))
        (fun stepCodes =>
           Return (stringifySteps (f_structuredSteps formData) :: stepCodes))
    else Return ["[]"]
  else
    let steps :=
      List.filter (fun step => nonEmpty (trim step)) (f_steps formData) in
    if length steps =? 0 then Return [EmptyString] else Return steps.

End HandleSubmit.

(** ** Vocabulary of the statements *)

(** [n] slashes. *)
Fixpoint slashes (n : nat) : string :=
  match n with
  | 0 => EmptyString
  | S n' => String "/" (slashes n')
  end.

(** Whether the last code unit satisfies [p]. *)
Fixpoint endsWith (p : ascii -> bool) (s : string) : bool :=
  match s with
  | EmptyString => false
  | String c EmptyString => p c
  | String _ r => endsWith p r
  end.

(** [s] splits as one identifier start, identifier parts, white space,
    one comparison character, and anything. *)
Definition comparisonShape (s : string) : Prop :=
  exists c ident ws o tail,
    s = String c (ident +:+ ws +:+ String o tail) /\
    isIdentStart c = true /\
    forallb isIdentPart ident = true /\
    forallb isWhiteSpace ws = true /\
    isComparisonChar o = true.

(** The base [getFullUrl] resolves against. *)
Definition emitterBase (baseUrl : option string) : string :=
  orElse baseUrl defaultBase.

(** The base [resolveUrl] resolves against. *)
Definition runnerBase (testCase : TestCase) : string :=
  orElse (tc_baseUrl testCase)
    (if nonEmpty (tc_targetPageUrl testCase) then tc_targetPageUrl testCase
     else defaultBase).

(** What the claim says of a resolver [resolve] working against [base],
    with re-application restricted to where it holds. *)
Definition resolutionLaws (resolve : string -> string) (base : string) : Prop :=
  forall url,
    (isAbsolute url = true -> resolve url = url) /\
    (isAbsolute url = false ->
       resolve url =
         stripTrailingSlashes base +:+
         (if startsWith url "/" then url else "/" +:+ url)) /\
    (isAbsolute url = true \/ isAbsolute (stripTrailingSlashes base) = true ->
       resolve (resolve url) = resolve url).

(** A stand-in for [JSON.parse] that accepts three literal texts and
    rejects every other text; the statements are instantiated with it. *)
Definition literalParse (s : string) : Completion (Json Z) :=
  if String.eqb s "[]" then Return (JArray [])
  else if String.eqb s "[null]" then Return (JArray [JNull])
  else if String.eqb s "{}" then Return (JObject [])
  else Throw (SyntaxError "Unexpected token").

(** The matching stand-in for [JSON.stringify]. *)
Definition literalStringify (v : Json Z) : string :=
  match v with
  | JArray [] => "[]"
  | JArray [JNull] => "[null]"
  | JObject [] => "{}"
  | _ => "null"
  end.

(** [field] is a non-empty string that [parse] rejects with [e]. *)
Definition invalidJson {JsNumber : Type}
    (parse : string -> Completion (Json JsNumber))
    (field : option string) (e : Exn) : Prop :=
  truthy field = true /\ parse (get field) = Throw e.

(** A result the loop goes on after: the step passed, or it failed with
    a cross-origin-qualified message. *)
Definition settled (r : TestResult) : Prop :=
  r_status r = passed \/
  (r_status r = failed /\
   exists m, r_message r = Some m /\ isCrossOriginWarning m = true).

(** A result the loop stops at: the step failed and its message is not
    cross-origin-qualified. *)
Definition fatal (r : TestResult) : Prop :=
  r_status r = failed /\
  exists m, r_message r = Some m /\ isCrossOriginWarning m = false.

(** The trace ends with the only POST, of a record with status failed,
    followed by [setIsRunning(false)]. *)
Definition abortTrace (tr : list Effect) : Prop :=
  exists pre rec,
    tr = pre ++ [EPost rec; ESetIsRunning false] /\
    posts pre = [] /\ e_status rec = failed.

(** What the loop over the [n] steps from index [i] does to the results
    [before] it, leaving [after]. *)
Definition loopSpec (i n : nat) (before after : list TestResult)
    (exit : LoopExit) (tr : list Effect) : Prop :=
  length after = length before /\
  (forall j, j < i -> after !! j = before !! j) /\
  match exit with
  | Completed =>
      (forall j r, i <= j < i + n -> after !! j = Some r -> settled r) /\
      (forall j, i + n <= j -> after !! j = before !! j) /\
      posts tr = []
  | Aborted =>
      exists k, i <= k < i + n /\
        (forall j r, i <= j < k -> after !! j = Some r -> settled r) /\
        (forall r, after !! k = Some r -> fatal r) /\
        (forall j, k < j -> after !! j = before !! j) /\
        abortTrace tr
  end.

(** The results [runTest] starts from. *)
Definition pendingResults (steps : list TestStep) : list TestResult :=
  map (fun step => mkResult (stepLabel step) pending None None) steps.

(** *** Sample runs *)

Definition sampleCase : TestCase :=
  mkTestCase "tc-1" [] (Some "https://shop.test/") "https://shop.test/home".

(** A window on the runner's own origin that shows a visible element for
    every selector. *)
Definition sameOrigin : WindowObs :=
  mkObs (Return false) (Return tt) (Return tt) (Return tt)
    (Return (FoundElement true)).

(** A window that went to another origin: it is open, and every access
    to its location or document is refused. *)
Definition crossOrigin : WindowObs :=
  let refused := DOMException "Blocked a frame from accessing a cross-origin frame." in
  mkObs (Return false) (Throw refused) (Return tt) (Throw refused)
    (Throw refused).

(** A browser that opens window 7 and answers every step with [obs]. *)
Definition browser (obs : WindowObs) : RunEnv :=
  mkEnv (Some 7) (Return tt) (Return tt) (Return tt) (fun _ => obs)
    (fun _ => 5%Z) "2024-01-01T10:00:00.000Z" "2024-01-01T10:00:09.000Z"
    9000%Z.

Definition stepVerify (selector : string) : TestStep :=
  mkStep "v" verifyElement None (Some selector) None None "Verify element"
    None None None None.
Definition stepClick (selector : string) : TestStep :=
  mkStep "c" click None (Some selector) None None "Click element"
    None None None None.
Definition stepWait (selector : string) : TestStep :=
  mkStep "w" wait None (Some selector) None None "Wait for element"
    None None None None.
Definition stepNavigate (url : string) : TestStep :=
  mkStep "n" navigate (Some url) None None None "Navigate to URL"
    None None None None.
Definition stepCustom (code : string) : TestStep :=
  mkStep "x" custom None None None (Some code) "Custom code"
    None None None None.
Definition stepAssert (condition : string) : TestStep :=
  mkStep "a" assert None None None (Some condition) "Assert condition"
    None None None None.

(** The sequence "verify the placeholder the runner itself writes". *)
Definition verifyPlaceholder : list TestStep := [stepVerify ".loading"].

(** A checkout sequence with a custom step in it. *)
Definition checkout : list TestStep :=
  [stepNavigate "https://shop.test/cart"; stepClick "#buy";
   stepCustom "await page.pause()"; stepClick "#confirm"].

(** A sequence whose navigate step is not the first one. *)
Definition waitThenNavigate : list TestStep :=
  [stepWait "#app"; stepNavigate "/cart"].

(** A window on the runner's own origin that shows no element for any
    selector. *)
Definition emptyPage : WindowObs :=
  mkObs (Return false) (Return tt) (Return tt) (Return tt) (Return NoElement).

(** A sequence whose first selector spells the marker text. *)
Definition bannerThenWait : list TestStep :=
  [stepClick "#cross-origin-banner"; stepWait "#app"].

(** The failure messages [executeStep] gives when the cross-origin
    boundary alone keeps it from the page: the ones of its
    [!canAccessWindow] branches that report a failure. *)
Definition originBoundaryMessage (m : string) : Prop :=
  m = "Cannot access window (cross-origin). Please verify manually in the test window." \/
  m = "Cannot access window (cross-origin). Please fill manually in the test window." \/
  m = "Cannot verify element (cross-origin). Please verify manually in the test window.".

(** [s] is the step at position [i], it is a navigate step with a URL,
    and no step before it is one. *)
Definition firstNavigateAt (steps : list TestStep) (i : nat) (s : TestStep)
    : Prop :=
  steps !! i = Some s /\ s_type s = navigate /\ truthy (s_url s) = true /\
  forall j s', j < i -> steps !! j = Some s' ->
    ~ (s_type s' = navigate /\ truthy (s_url s') = true).

(** The second click on "Run Test": the first run starts from the initial
    state of the component, the second from the state the first left. *)
Definition secondRun (steps : list TestStep) (env1 env2 : RunEnv)
    : Component * list Effect * Completion unit :=
  let run1 := runTest sampleCase steps initialState env1 in
  runTest sampleCase steps (stateOf run1) env2.

(** What [executeStep] returns for a step that never looks at the page:
    the window guard, then [verdict]. *)
Definition guarded (testWindow : option Win) (obs : WindowObs)
    (verdict : StepResult) : StepResult :=
  match testWindow with
  | None => ko "Test window is not available"
  | Some _ =>
      match o_closed obs with
      | Return true => ko "Test window was closed"
      | _ => verdict
      end
  end.

(** The effects the loop can have from index [i] on. *)
Definition loopEffectFrom (i : nat) (e : Effect) : Prop :=
  match e with
  | EExecuteStep j | EStepNavigation j _ _ => i <= j
  | EPost _ | ESetIsRunning _ => True
  | EOpenWindow _ | EInitialNavigation _ _ => False
  end.

(** The up-front navigation of a run in window [w], if it has one. *)
Definition upfrontNavigation (testCase : TestCase) (steps : list TestStep)
    (w : Win) : list Effect :=
  match firstNavigateStep steps with
  | Some firstNavigate =>
      [EInitialNavigation w (resolveUrl testCase (get (s_url firstNavigate)))]
  | None => []
  end.

(** *** Vocabulary of the further properties *)

(** Whether the loop skips a navigate step at position 0: the sequence
    has a navigate step with a URL and the up-front assignment went
    through. *)
Definition skipsFirst (steps : list TestStep) (env : RunEnv) : bool :=
  match firstNavigateStep steps with
  | Some _ => returned (env_assign env)
  | None => false
  end.

(** Whether a run gets as far as the loop. *)
Definition reachesLoop (steps : list TestStep) (env : RunEnv) : bool :=
  match steps with
  | [] => false
  | _ =>
      match env_open env with
      | None => false
      | Some _ =>
          returned (env_write env) &&
          match firstNavigateStep steps with
          | Some _ => returned (env_assign env)
          | None => true
          end
      end
  end.

(** What one iteration of the loop writes at position [i], over the
    result [r] found there. *)
Definition stepOutcome (testCase : TestCase) (captured : Component)
    (env : RunEnv) (skip : bool) (i : nat) (step : TestStep) (r : TestResult)
    : TestResult :=
  if skip && (i =? 0) && StepType_eqb (s_type step) navigate then
    markPassed ("Already navigated to " +:+
                resolveUrl testCase (orElse (s_url step) EmptyString)) r
  else
    finishResult
      (executeStep testCase (testWindow captured) step i (env_obs env i)).1
      (env_duration env i) (markRunning r).

(** The pending result [runTest] creates for a step. *)
Definition pendingResult (step : TestStep) : TestResult :=
  mkResult (stepLabel step) pending None None.

(** A step the runner has a case for, with the fields that case needs. *)
Definition runnable (step : TestStep) : bool :=
  match s_type step with
  | navigate => truthy (s_url step)
  | click | wait | verifyElement => truthy (s_selector step)
  | fill => truthy (s_selector step) && truthy (s_value step)
  | waitForPageLoad | assert => true
  | custom | api_call => false
  end.

(** The window the closure holds is open and on another origin when
    [executeStep] looks at it. *)
Definition openCrossOrigin (obs : WindowObs) : Prop :=
  o_closed obs <> Return true /\ returned (o_href obs) = false.

(** A step that has the fields its case of the emitter tests. *)
Definition emittable (step : TestStep) : bool :=
  match s_type step with
  | navigate => truthy (s_url step)
  | click | wait | verifyElement => truthy (s_selector step)
  | fill => truthy (s_selector step) && truthy (s_value step)
  | waitForPageLoad => true
  | assert | custom => nonEmpty (actionOrDescription step)
  | api_call => false
  end.

(** The frameworks [generateStepCode] has step cases for. *)
Definition hasStepCases (framework : string) : bool :=
  String.eqb framework "selenium" || String.eqb framework "playwright" ||
  String.eqb framework "cypress".

(** The field is absent or empty, or [parse] accepts it as [v]. *)
Definition parsesTo {JsNumber : Type}
    (parse : string -> Completion (Json JsNumber))
    (field : option string) (absent v : Json JsNumber) : Prop :=
  (truthy field = false /\ v = absent) \/
  (truthy field = true /\ parse (get field) = Return v).

(** Whether the first code unit satisfies [p]. *)
Definition startsWithClass (p : ascii -> bool) (s : string) : bool :=
  match s with
  | EmptyString => false
  | String c _ => p c
  end.

(** Every apostrophe comes right after a backslash; [afterBackslash]
    tells that the unit before the text is one. *)
Fixpoint escapedFrom (afterBackslash : bool) (s : string) : bool :=
  match s with
  | EmptyString => true
  | String c r =>
      (negb (isApostrophe c) || afterBackslash) &&
      escapedFrom (Ascii.eqb c "\") r
  end.

Definition isUpperAZ (c : ascii) : bool :=
  let n := nat_of_ascii c in (65 <=? n) && (n <=? 90).

Definition isLowerAZ (c : ascii) : bool :=
  let n := nat_of_ascii c in (97 <=? n) && (n <=? 122).

(** The code units of a file-name stem: a to z, 0 to 9 and the dash. *)
Definition isSlugUnit (c : ascii) : bool :=
  isLowerAZ c || isDigit c || isDash c.

(** No two neighbouring code units both satisfy [p]; [inRun] tells that
    the unit before the text satisfies it. *)
Fixpoint noRunFrom (inRun : bool) (p : ascii -> bool) (s : string) : bool :=
  match s with
  | EmptyString => true
  | String c r => negb (inRun && p c) && noRunFrom (p c) p r
  end.

(** A stand-in for [JSON.parse] read at the type [TestStep[]]: it accepts
    one text, a list of two steps the second of which is an api_call
    step with unbalanced headers. *)
Definition twoStepsText : string := "[{..navigate..},{..api_call..}]".

Definition stepBrokenCall : TestStep :=
  mkStep "s2" api_call (Some "https://api.test/users") None None None
    "Create user" (Some "POST") (Some "{name: Ann") None None.

Definition literalSteps (broken : bool) (s : string)
    : Completion (list TestStep) :=
  if String.eqb s twoStepsText then
    Return [stepNavigate "/login";
            if broken then stepBrokenCall else stepClick "#buy"]
  else Throw (SyntaxError "Unexpected token").

(** The frameworks whose import header names a module. *)
Definition importing (framework : string) : bool :=
  String.eqb framework "playwright" || String.eqb framework "selenium" ||
  String.eqb framework "mocha" || String.eqb framework "vitest".

(** * Properties *)

(** Let [simpl] compute appends of literals in the proofs below. *)
#[local] Arguments String.append !s1 s2 : simpl nomatch.

(** ** String primitives *)

Lemma substring_whole (s : string) : String.substring 0 (String.length s) s = s.
Proof. induction s as [|c r IH]; simpl; [reflexivity | now rewrite IH]. Qed.

Lemma substringFrom_1 (c : ascii) (r : string) : substringFrom 1 (String c r) = r.
Proof.
  unfold substringFrom. simpl. rewrite Nat.sub_0_r. apply substring_whole.
Qed.

Lemma startsWith_char (c d : ascii) (r : string) :
  startsWith (String d r) (String c EmptyString) = Ascii.eqb c d.
Proof.
  unfold startsWith. simpl.
  destruct (ascii_dec c d) as [->|Hne].
  - rewrite Ascii.eqb_refl. now destruct r.
  - symmetry. now apply Ascii.eqb_neq.
Qed.

Lemma startsWith_app (s t p : string) :
  startsWith s p = true -> startsWith (s +:+ t) p = true.
Proof.
  unfold startsWith. revert s.
  induction p as [|c p IH]; intros s H.
  - now destruct (s +:+ t).
  - destruct s as [|d s]; simpl in *; [discriminate|].
    destruct (ascii_dec c d); [now apply IH | discriminate].
Qed.

Lemma nonEmpty_false (s : string) : nonEmpty s = false -> s = EmptyString.
Proof. now destruct s. Qed.

Lemma dropWhileEnd_not_ends (p : ascii -> bool) (s : string) :
  endsWith p (dropWhileEnd p s) = false.
Proof.
  induction s as [|c r IH]; simpl; [reflexivity|].
  destruct (dropWhileEnd p r) as [|d r'] eqn:E.
  - destruct (p c) eqn:Hc; simpl; [reflexivity | exact Hc].
  - exact IH.
Qed.

Lemma isSlash_eq (c : ascii) : isSlash c = true -> c = "/"%char.
Proof. unfold isSlash. apply Ascii.eqb_eq. Qed.

(** [stripTrailingSlashes] removes a run of slashes at the end, and what
    it leaves does not end with a slash: it is the replacement of the
    match of [\/+$] by the empty string. *)
Lemma stripTrailingSlashes_spec (s : string) :
  (exists n, s = stripTrailingSlashes s +:+ slashes n) /\
  endsWith isSlash (stripTrailingSlashes s) = false.
Proof.
  split; [|apply dropWhileEnd_not_ends].
  unfold stripTrailingSlashes.
  induction s as [|c r [n IH]]; simpl.
  - now exists 0.
  - destruct (dropWhileEnd isSlash r) as [|d r'] eqn:E.
    + destruct (isSlash c) eqn:Hc.
      * exists (S n). simpl in *. apply isSlash_eq in Hc. now subst.
      * exists n. simpl in *. now f_equal.
    + exists n. simpl in *. now f_equal.
Qed.

(** ** The comparison pattern as a regular expression *)

Lemma dropWhile_split (p : ascii -> bool) (s : string) :
  exists pre, s = pre +:+ dropWhile p s /\ forallb p pre = true.
Proof.
  induction s as [|c r [pre [E F]]]; simpl.
  - now exists EmptyString.
  - destruct (p c) eqn:Hc.
    + exists (String c pre). simpl. rewrite Hc, F. split; [now f_equal | reflexivity].
    + now exists EmptyString.
Qed.

Lemma dropWhile_skip (p : ascii -> bool) (pre rest : string) :
  forallb p pre = true ->
  match rest with EmptyString => True | String c _ => p c = false end ->
  dropWhile p (pre +:+ rest) = rest.
Proof.
  induction pre as [|c r IH]; simpl; intros F H.
  - destruct rest as [|d t]; simpl; [reflexivity | now rewrite H].
  - apply andb_true_iff in F as [Hc F]. rewrite Hc. now apply IH.
Qed.

Lemma classes_disjoint (c : ascii) :
  (isWhiteSpace c = true -> isIdentPart c = false) /\
  (isComparisonChar c = true -> isIdentPart c = false /\ isWhiteSpace c = false).
Proof.
  destruct c as [[] [] [] [] [] [] [] []]; vm_compute; repeat split; congruence.
Qed.

Lemma matchesComparison_regex (s : string) :
  matchesComparison s = true <-> comparisonShape s.
Proof.
  split.
  - destruct s as [|c r]; simpl; [discriminate|].
    intros H. apply andb_true_iff in H as [Hc H].
    destruct (dropWhile_split isIdentPart r) as [ident [E1 F1]].
    destruct (dropWhile_split isWhiteSpace (dropWhile isIdentPart r))
      as [ws [E2 F2]].
    destruct (dropWhile isWhiteSpace (dropWhile isIdentPart r))
      as [|o tail]; [discriminate|].
    exists c, ident, ws, o, tail. repeat split; try assumption.
    f_equal. rewrite E2 in E1. exact E1.
  - intros (c & ident & ws & o & tail & -> & Hc & Fi & Fw & Ho). simpl.
    rewrite Hc. simpl.
    destruct (classes_disjoint o) as [_ Hd]. destruct (Hd Ho) as [Ho1 Ho2].
    rewrite (dropWhile_skip isIdentPart ident (ws +:+ String o tail) Fi).
    + now rewrite (dropWhile_skip isWhiteSpace ws (String o tail) Fw Ho2).
    + destruct ws as [|w ws']; simpl; [exact Ho1|].
      simpl in Fw. apply andb_true_iff in Fw as [Hw _].
      exact (proj1 (classes_disjoint w) Hw).
Qed.

(** ** Code Emitter: selector classification *)

(** The selenium cases embed [byMethod] of the selector unchanged. *)
Lemma seleniumCode_click (step : TestStep) (elementVar : string)
    (baseUrl : option string) (selector : string) :
  s_type step = click -> s_selector step = Some selector ->
  nonEmpty selector = true ->
  seleniumCode step elementVar baseUrl =
    Some (indent +:+ "await driver.findElement(" +:+ byMethod selector +:+
          ").click()").
Proof.
  intros Ht Hs Hn. unfold seleniumCode, truthy, get. rewrite Ht, Hs. simpl.
  now rewrite Hn.
Qed.

(** The three cases of the locator expression. *)
Lemma byMethod_cases (selector : string) :
  (forall rest, selector = String "#" rest ->
     byMethod selector = "By.id('" +:+ rest +:+ "')") /\
  (forall rest, selector = String "." rest ->
     byMethod selector = "By.className('" +:+ rest +:+ "')") /\
  (startsWith selector "#" = false -> startsWith selector "." = false ->
     byMethod selector = "By.css('" +:+ selector +:+ "')").
Proof.
  unfold byMethod. repeat split.
  - intros rest ->. rewrite startsWith_char. simpl. now rewrite substringFrom_1.
  - intros rest ->. rewrite !startsWith_char. simpl. now rewrite substringFrom_1.
  - now intros -> ->.
Qed.

(** C6, as the code has it.  In the selenium code that
    [generateStepCode] emits for a click, fill, wait or verifyElement
    step, the locator is a function of the selector alone, defined for
    every selector that is not empty: a selector that starts with "#"
    gives an id locator on the rest of the text, one that starts with "."
    a class-name locator on the rest of the text, and every other one a
    css locator on the whole text.  Language, step index, base URL and
    the other fields of the step do not change it. *)
Theorem C6_selector_classification {JsNumber : Type}
    (numberIsZero : JsNumber -> bool)
    (JSON_parse : string -> Completion (Json JsNumber))
    (JSON_stringify : Json JsNumber -> string) (selector : string) :
  nonEmpty selector = true ->
  exists locator,
    ((exists rest, selector = String "#" rest /\
                   locator = "By.id('" +:+ rest +:+ "')") \/
     (exists rest, selector = String "." rest /\
                   locator = "By.className('" +:+ rest +:+ "')") \/
     (startsWith selector "#" = false /\ startsWith selector "." = false /\
      locator = "By.css('" +:+ selector +:+ "')")) /\
    forall (step : TestStep) (language : option string)
           (stepIndex : option nat) (baseUrl : option string) (rand : string),
      s_selector step = Some selector ->
      let code :=
        generateStepCode numberIsZero JSON_parse JSON_stringify step
          "selenium" language stepIndex baseUrl rand in
      let elementVar := elementVarName step stepIndex rand in
      (s_type step = click ->
         code = Return (indent +:+ "await driver.findElement(" +:+ locator +:+
                        ").click()")) /\
      (s_type step = fill ->
       forall value, s_value step = Some value -> nonEmpty value = true ->
         code = Return (indent +:+ "await driver.findElement(" +:+ locator +:+
                        ").sendKeys('" +:+ value +:+ "')")) /\
      (s_type step = wait ->
         code = Return (indent +:+ "await driver.wait(until.elementLocated(" +:+
                        locator +:+ "), 10000)")) /\
      (s_type step = verifyElement ->
         code = Return (indent +:+ "const " +:+ elementVar +:+
                        " = await driver.findElement(" +:+ locator +:+ ")" +:+
                        String "010" indent +:+ "expect(await " +:+
                        elementVar +:+ ".isDisplayed()).to.be.true")).
Proof.
  intros Hn. exists (byMethod selector). split.
  - destruct (byMethod_cases selector) as (Hid & Hclass & Hcss).
    destruct selector as [|c r]; [discriminate Hn|].
    destruct (startsWith (String c r) "#") eqn:E1.
    { left. rewrite startsWith_char in E1. apply Ascii.eqb_eq in E1.
      subst c. exists r. split; [reflexivity | now apply Hid]. }
    destruct (startsWith (String c r) ".") eqn:E2.
    { right. left. rewrite startsWith_char in E2. apply Ascii.eqb_eq in E2.
      subst c. exists r. split; [reflexivity | now apply Hclass]. }
    right. right. split; [reflexivity|]. split; [reflexivity|].
    now apply Hcss.
  - intros step language stepIndex baseUrl rand Hs. simpl.
    unfold generateStepCode.
    split; [|split; [|split]].
    + intros Ht. rewrite Ht. simpl.
      destruct (String.eqb (default "typescript" language) "typescript");
        unfold seleniumCode, truthy, get; rewrite Ht, Hs; simpl;
        now rewrite Hn.
    + intros Ht value Hv Hnv. rewrite Ht. simpl.
      destruct (String.eqb (default "typescript" language) "typescript");
        unfold seleniumCode, truthy, get; rewrite Ht, Hs, Hv; simpl;
        now rewrite Hn, Hnv.
    + intros Ht. rewrite Ht. simpl.
      destruct (String.eqb (default "typescript" language) "typescript");
        unfold seleniumCode, truthy, get; rewrite Ht, Hs; simpl;
        now rewrite Hn.
    + intros Ht. rewrite Ht. simpl.
      destruct (String.eqb (default "typescript" language) "typescript");
        unfold seleniumCode, truthy, get; rewrite Ht, Hs; simpl;
        now rewrite Hn.
Qed.

Lemma C6_selector_classification_witness :
  generateStepCode (Z.eqb 0) literalParse literalStringify
    (stepClick "#submit") "selenium" None (Some 0) None "r"
  = Return "      await driver.findElement(By.id('submit')).click()".
Proof.
  destruct (C6_selector_classification (Z.eqb 0) literalParse
              literalStringify "#submit" eq_refl)
    as (locator & Hclass & Hcode).
  destruct Hclass as [(rest & Hsel & ->)|[(rest & Hsel & _)|(H & _)]];
    try discriminate.
  injection Hsel as <-.
  exact (proj1 (Hcode (stepClick "#submit") None (Some 0) None "r" eq_refl)
           eq_refl).
Defined.

(** C6 as stated fails on the empty string: for a click step whose
    selector is empty the emitter classifies nothing and emits the
    comment fallback instead of a css locator on the empty text. *)
Lemma C6_counterexample :
  let code :=
    generateStepCode (Z.eqb 0) literalParse literalStringify
      (stepClick EmptyString) "selenium" None (Some 0) None "r" in
  code = Return "      // Click element" /\
  code <> Return "      await driver.findElement(By.css('')).click()".
Proof. split; [reflexivity | discriminate]. Qed.

(** ** Code Emitter and runner: URL resolution *)

Lemma getFullUrl_resolveAgainst (baseUrl : option string) (url : string) :
  getFullUrl baseUrl url = resolveAgainst (emitterBase baseUrl) url.
Proof. reflexivity. Qed.

Lemma resolveUrl_resolveAgainst (testCase : TestCase) (url : string) :
  resolveUrl testCase url = resolveAgainst (runnerBase testCase) url.
Proof. reflexivity. Qed.

Lemma isAbsolute_app (s t : string) :
  isAbsolute s = true -> isAbsolute (s +:+ t) = true.
Proof.
  unfold isAbsolute. intros H. apply orb_true_iff in H. apply orb_true_iff.
  destruct H as [H|H]; [left|right]; now apply startsWith_app.
Qed.

Lemma resolveAgainst_idempotent (base url : string) :
  isAbsolute url = true \/ isAbsolute (stripTrailingSlashes base) = true ->
  resolveAgainst base (resolveAgainst base url) = resolveAgainst base url.
Proof.
  intros H. unfold resolveAgainst.
  destruct (isAbsolute url) eqn:Hu.
  - now rewrite Hu.
  - destruct H as [H|H]; [discriminate|].
    now rewrite (isAbsolute_app _ (cleanUrl url) H).
Qed.

Lemma resolveAgainst_laws (base : string) :
  resolutionLaws (resolveAgainst base) base.
Proof.
  intros url. repeat split.
  - intros H. unfold resolveAgainst. now rewrite H.
  - intros H. unfold resolveAgainst. now rewrite H.
  - apply resolveAgainst_idempotent.
Qed.

(** C7, as the code has it.  Both resolvers ([getFullUrl] of the emitter,
    against the configured base or the default one, and [resolveUrl] of
    the runner, against the test case's base, its target page or the
    default) return a URL that starts with "http://" or "https://"
    unchanged whatever the base; resolve any other URL to the base with
    its trailing slashes stripped followed by the URL, which gets one
    slash in front when it does not start with one; and leave an
    already-resolved URL unchanged whenever the stripped base itself
    starts with "http://" or "https://", as the default base does.
    Being functions, they give the same output for the same input. *)
Theorem C7_url_resolution (baseUrl : option string) (testCase : TestCase) :
  resolutionLaws (getFullUrl baseUrl) (emitterBase baseUrl) /\
  resolutionLaws (resolveUrl testCase) (runnerBase testCase) /\
  isAbsolute (stripTrailingSlashes defaultBase) = true /\
  (forall base,
     (exists n, base = stripTrailingSlashes base +:+ slashes n) /\
     endsWith isSlash (stripTrailingSlashes base) = false).
Proof.
  split; [|split; [|split]].
  - intros url. rewrite !getFullUrl_resolveAgainst. apply resolveAgainst_laws.
  - intros url. rewrite !resolveUrl_resolveAgainst. apply resolveAgainst_laws.
  - reflexivity.
  - apply stripTrailingSlashes_spec.
Qed.

Lemma C7_url_resolution_witness :
  getFullUrl (Some "https://app.test//") "https://other.test/a" =
    "https://other.test/a" /\
  getFullUrl (Some "https://app.test//") "login" = "https://app.test/login" /\
  getFullUrl (Some "https://app.test//")
    (getFullUrl (Some "https://app.test//") "login") =
    getFullUrl (Some "https://app.test//") "login".
Proof.
  pose proof
    (C7_url_resolution (Some "https://app.test//") (mkTestCase EmptyString [] None EmptyString))
    as [Hlaws _].
  split; [|split].
  - exact (proj1 (Hlaws "https://other.test/a") eq_refl).
  - exact (proj1 (proj2 (Hlaws "login")) eq_refl).
  - exact (proj2 (proj2 (Hlaws "login")) (or_intror eq_refl)).
Defined.

(** C7 as stated fails: against a base without a scheme, resolving the
    resolved URL again prefixes the base a second time. *)
Lemma C7_counterexample :
  getFullUrl (Some "localhost:3000") "login" = "localhost:3000/login" /\
  getFullUrl (Some "localhost:3000") "localhost:3000/login" =
    "localhost:3000/localhost:3000/login" /\
  getFullUrl (Some "localhost:3000")
    (getFullUrl (Some "localhost:3000") "login") <>
    getFullUrl (Some "localhost:3000") "login".
Proof. repeat split. vm_compute. discriminate. Qed.

(** ** Code Emitter: expected-result formatting *)

Lemma isValidExpression_nonEmpty (s : string) :
  isValidExpression s = true -> nonEmpty s = true.
Proof. now destruct s. Qed.

(** C8.  The formatter never returns the empty text: when the trimmed
    input does not look like code (no recognised prefix, no comparison,
    no string literal), which covers the empty and the white-space-only
    input, it returns "true"; otherwise it returns the trimmed input. *)
Theorem C8_formatExpectedResult (expectedResult : string) :
  formatExpectedResult expectedResult <> EmptyString /\
  (isValidExpression (trim expectedResult) = false ->
     formatExpectedResult expectedResult = "true") /\
  (isValidExpression (trim expectedResult) = true ->
     formatExpectedResult expectedResult = trim expectedResult) /\
  (trim expectedResult = EmptyString ->
     formatExpectedResult expectedResult = "true").
Proof.
  unfold formatExpectedResult.
  destruct (isValidExpression (trim expectedResult)) eqn:Hv.
  - pose proof (isValidExpression_nonEmpty _ Hv) as Hn.
    assert (Hn' : nonEmpty expectedResult = true).
    { destruct expectedResult; [discriminate Hn | reflexivity]. }
    rewrite Hn, Hn'. simpl. repeat split; try discriminate.
    + intros E. rewrite E in Hn. discriminate.
    + intros E. rewrite E in Hn. discriminate.
  - repeat split; try discriminate;
      destruct (negb (nonEmpty expectedResult) || negb (nonEmpty (trim expectedResult)));
      try discriminate; reflexivity.
Qed.

Lemma C8_formatExpectedResult_witness :
  formatExpectedResult "User sees the dashboard" = "true" /\
  formatExpectedResult "  count >= 3 " = "count >= 3" /\
  formatExpectedResult "   " = "true".
Proof.
  split; [|split].
  - exact (proj1 (proj2 (C8_formatExpectedResult "User sees the dashboard"))
             eq_refl).
  - exact (proj1 (proj2 (proj2 (C8_formatExpectedResult "  count >= 3 ")))
             eq_refl).
  - exact (proj2 (proj2 (proj2 (C8_formatExpectedResult "   "))) eq_refl).
Defined.

(** ** Sequence loading: [parseSteps] *)

Section ParseStepsFacts.

Context {JsNumber : Type}.
Variable JSON_parse : string -> Completion (Json JsNumber).

(** A JSON text whose first code unit is an opening brace denotes an
    object or is malformed: [JSON.parse] never turns it into an array. *)
Hypothesis JSON_parse_brace :
  forall s items, startsWith s "{" = true -> JSON_parse s <> Return (JArray items).

(** C9.  For a non-empty list of strings, [parseSteps] returns the parsed
    array exactly when the first string starts with "[" and [JSON.parse]
    turns it into an array; in every other case (another first code unit,
    a parse error, a parsed value that is no array) it returns no
    structured steps.  It is a total function: the exception of
    [JSON.parse] does not leave it. *)
Theorem C9_parseSteps (testCase : TestCase) (firstStep : string)
    (rest : list string) :
  tc_steps testCase = firstStep :: rest ->
  (forall items,
     startsWith firstStep "[" = true ->
     JSON_parse firstStep = Return (JArray items) ->
     parseSteps JSON_parse testCase = items) /\
  (startsWith firstStep "[" = false \/
   (forall items, JSON_parse firstStep <> Return (JArray items)) ->
     parseSteps JSON_parse testCase = []).
Proof.
  intros Hsteps. unfold parseSteps. rewrite Hsteps. split.
  - intros items Hb Hp. now rewrite Hb, Hp.
  - intros H.
    destruct (startsWith firstStep "[") eqn:Hb; simpl.
    + destruct H as [H|H]; [discriminate|].
      destruct (JSON_parse firstStep) as [v|e] eqn:Hp; [|reflexivity].
      destruct v; try reflexivity. now destruct (H items).
    + destruct (startsWith firstStep "{") eqn:Hc; [|reflexivity].
      destruct (JSON_parse firstStep) as [v|e] eqn:Hp; [|reflexivity].
      destruct v; try reflexivity.
      now destruct (JSON_parse_brace firstStep items Hc).
Qed.

End ParseStepsFacts.

Lemma literalParse_brace (s : string) (items : list (Json Z)) :
  startsWith s "{" = true -> literalParse s <> Return (JArray items).
Proof.
  unfold literalParse. intros Hs.
  destruct (String.eqb s "[]") eqn:E1.
  { apply String.eqb_eq in E1. subst s. discriminate Hs. }
  destruct (String.eqb s "[null]") eqn:E2.
  { apply String.eqb_eq in E2. subst s. discriminate Hs. }
  destruct (String.eqb s "{}"); discriminate.
Qed.

Lemma C9_parseSteps_witness :
  parseSteps literalParse
    (mkTestCase "tc-1" ["[null]"; "await page.goto('/')"] None EmptyString)
    = [JNull] /\
  parseSteps literalParse (mkTestCase "tc-2" ["open the page"] None EmptyString) = [].
Proof.
  split.
  - refine (proj1 (C9_parseSteps literalParse literalParse_brace
                     (mkTestCase "tc-1" ["[null]"; "await page.goto('/')"]
                        None EmptyString)
                     "[null]" ["await page.goto('/')"] eq_refl)
              [JNull] eq_refl eq_refl).
  - refine (proj2 (C9_parseSteps literalParse literalParse_brace
                     (mkTestCase "tc-2" ["open the page"] None EmptyString)
                     "open the page" [] eq_refl) (or_introl eq_refl)).
Defined.

(** ** Code Emitter: exceptions of [generateStepCode] *)

Section EmitterFacts.

Context {JsNumber : Type}.
Variable numberIsZero : JsNumber -> bool.
Variable JSON_parse : string -> Completion (Json JsNumber).
Variable JSON_stringify : Json JsNumber -> string.

Lemma apiCallCode_headers (step : TestStep) (framework : string) (e : Exn) :
  invalidJson JSON_parse (s_headers step) e ->
  apiCallCode numberIsZero JSON_parse JSON_stringify step framework = Throw e.
Proof.
  intros [Ht Hp]. unfold apiCallCode, parseHeaders. now rewrite Ht, Hp.
Qed.

Lemma apiCallCode_body (step : TestStep) (framework : string) (e : Exn) :
  returned (parseHeaders JSON_parse step) = true ->
  invalidJson JSON_parse (s_body step) e ->
  apiCallCode numberIsZero JSON_parse JSON_stringify step framework = Throw e.
Proof.
  intros Hh [Ht Hp]. unfold apiCallCode.
  destruct (parseHeaders JSON_parse step) as [h|]; [|discriminate]. simpl.
  unfold parseBody. now rewrite Ht, Hp.
Qed.

(** C10.  For every framework and language, an api_call step whose
    headers or body is a non-empty string that [JSON.parse] rejects makes
    [generateStepCode] throw that parse error (the one of the headers
    when both are rejected) instead of returning text; a step of any
    other type makes it return text. *)
Theorem C10_generateStepCode_throws (step : TestStep) (framework : string)
    (language : option string) (stepIndex : option nat)
    (baseUrl : option string) (rand : string) :
  let run :=
    generateStepCode numberIsZero JSON_parse JSON_stringify step framework
      language stepIndex baseUrl rand in
  (s_type step = api_call ->
   (exists e, invalidJson JSON_parse (s_headers step) e) \/
   (exists e, invalidJson JSON_parse (s_body step) e) ->
     exists e, run = Throw e /\
       (invalidJson JSON_parse (s_headers step) e \/
        invalidJson JSON_parse (s_body step) e)) /\
  (s_type step <> api_call -> exists code, run = Return code).
Proof.
  simpl. split.
  - intros Ht H. unfold generateStepCode. rewrite Ht.
    destruct (truthy (s_headers step)) eqn:Hh.
    + destruct (JSON_parse (get (s_headers step))) as [h|e] eqn:Hp.
      * destruct H as [[e [_ He]]|[e He]]; [congruence|].
        exists e. split; [|now right].
        apply apiCallCode_body; [|exact He].
        unfold parseHeaders. now rewrite Hh, Hp.
      * exists e. split; [|now left]. now apply apiCallCode_headers.
    + destruct H as [[e [He _]]|[e He]]; [congruence|].
      exists e. split; [|now right].
      apply apiCallCode_body; [|exact He].
      unfold parseHeaders. now rewrite Hh.
  - intros Ht. unfold generateStepCode.
    destruct (s_type step); try (eexists; reflexivity). now destruct Ht.
Qed.

(** The locator of a selenium click is [byMethod] of the selector, in
    both languages. *)
Lemma generateStepCode_selenium_click (step : TestStep)
    (language : option string) (stepIndex : option nat)
    (baseUrl : option string) (rand selector : string) :
  s_type step = click -> s_selector step = Some selector ->
  nonEmpty selector = true ->
  generateStepCode numberIsZero JSON_parse JSON_stringify step "selenium"
    language stepIndex baseUrl rand =
    Return (indent +:+ "await driver.findElement(" +:+ byMethod selector +:+
            ").click()").
Proof.
  intros Ht Hs Hn. unfold generateStepCode. rewrite Ht.
  change (String.eqb "selenium" "selenium") with true. cbv iota.
  destruct (String.eqb (default "typescript" language) "typescript");
    now rewrite (seleniumCode_click step _ baseUrl selector Ht Hs Hn).
Qed.

End EmitterFacts.

Lemma C10_generateStepCode_throws_witness :
  let broken :=
    mkStep "s1" api_call (Some "https://api.test/users") None None None
      "Create user" (Some "POST") (Some "{}") (Some "{name: Ann") None in
  (exists e,
     generateStepCode (Z.eqb 0) literalParse literalStringify broken
       "playwright" None (Some 0) None "r" = Throw e) /\
  (exists code,
     generateStepCode (Z.eqb 0) literalParse literalStringify
       (bareStep assert "page loaded") "jest" None (Some 1) None "r"
     = Return code).
Proof.
  intros broken. split.
  - destruct (proj1 (C10_generateStepCode_throws (Z.eqb 0) literalParse
                       literalStringify broken "playwright" None (Some 0)
                       None "r") eq_refl)
      as [e [He _]].
    + right. exists (SyntaxError "Unexpected token"). split; reflexivity.
    + exists e. exact He.
  - apply (proj2 (C10_generateStepCode_throws (Z.eqb 0) literalParse
                    literalStringify (bareStep assert "page loaded") "jest"
                    None (Some 1) None "r")).
    discriminate.
Defined.

(** ** Live Execution Engine: the loop *)

Lemma posts_app (a b : list Effect) : posts (a ++ b) = posts a ++ posts b.
Proof.
  induction a as [|e a IH]; simpl; [reflexivity|].
  destruct e; simpl; now rewrite IH.
Qed.

Lemma lookup_mapAt (i : nat) (f : TestResult -> TestResult)
    (l : list TestResult) (j : nat) :
  mapAt i f l !! j = (fun r => if j =? i then f r else r) <$> (l !! j).
Proof. unfold mapAt. apply list_lookup_imap. Qed.

Lemma lookup_mapAt_ne (i : nat) (f : TestResult -> TestResult)
    (l : list TestResult) (j : nat) :
  j <> i -> mapAt i f l !! j = l !! j.
Proof.
  intros Hne. rewrite lookup_mapAt.
  destruct (Nat.eqb_spec j i); [contradiction|]. now destruct (l !! j).
Qed.

Lemma lookup_mapAt_eq (i : nat) (f : TestResult -> TestResult)
    (l : list TestResult) :
  mapAt i f l !! i = f <$> (l !! i).
Proof. rewrite lookup_mapAt. now rewrite Nat.eqb_refl. Qed.

Lemma length_mapAt (i : nat) (f : TestResult -> TestResult)
    (l : list TestResult) :
  length (mapAt i f l) = length l.
Proof. unfold mapAt. apply length_imap. Qed.

Lemma executeStep_posts (testCase : TestCase) (w : option Win)
    (step : TestStep) (i : nat) (obs : WindowObs) :
  posts (executeStep testCase w step i obs).2 = [].
Proof.
  unfold executeStep. destruct (windowGuard w step obs); [reflexivity|].
  unfold stepSwitch.
  repeat match goal with
         | |- context [match ?x with _ => _ end] => destruct x; try reflexivity
         end.
Qed.

Lemma executeStep_only_navigates (testCase : TestCase) (w : option Win)
    (step : TestStep) (i : nat) (obs : WindowObs) (e : Effect) :
  In e (executeStep testCase w step i obs).2 ->
  exists w' url, e = EStepNavigation i w' url.
Proof.
  unfold executeStep. destruct (windowGuard w step obs); [intros []|].
  unfold stepSwitch.
  repeat match goal with
         | |- context [match ?x with _ => _ end] => destruct x
         end;
    simpl; intros H; try contradiction;
    destruct H as [<-|[]]; eauto.
Qed.

Lemma abortTrace_app (pre tr : list Effect) :
  posts pre = [] -> abortTrace tr -> abortTrace (pre ++ tr).
Proof.
  intros Hpre (p & rec & -> & Hp & Hs).
  exists (pre ++ p), rec. rewrite posts_app, Hpre, Hp, app_assoc. now repeat split.
Qed.

(** One more settled step in front of a loop that satisfies its
    description. *)
Lemma loopSpec_cons (i n : nat) (before mid after : list TestResult)
    (exit : LoopExit) (pre tr : list Effect) :
  length mid = length before ->
  (forall j, j <> i -> mid !! j = before !! j) ->
  (forall r, mid !! i = Some r -> settled r) ->
  posts pre = [] ->
  loopSpec (S i) n mid after exit tr ->
  loopSpec i (S n) before after exit (pre ++ tr).
Proof.
  intros Hlen Hframe Hi Hpre (Hl & Hbelow & Hexit).
  split; [congruence|]. split.
  { intros j Hj. rewrite Hbelow by lia. apply Hframe. lia. }
  destruct exit.
  - destruct Hexit as (Hin & Habove & Hposts). repeat split.
    + intros j r Hj Hr. destruct (decide (j = i)) as [->|Hne].
      * apply Hi. now rewrite <- Hbelow by lia.
      * apply (Hin j); [lia | exact Hr].
    + intros j Hj. rewrite Habove by lia. apply Hframe. lia.
    + now rewrite posts_app, Hpre, Hposts.
  - destruct Hexit as (k & Hk & Hin & Hat & Habove & Htr).
    exists k. split; [lia|]. split; [|split; [exact Hat|split]].
    + intros j r Hj Hr. destruct (decide (j = i)) as [->|Hne].
      * apply Hi. now rewrite <- Hbelow by lia.
      * apply (Hin j); [lia | exact Hr].
    + intros j Hj. rewrite Habove by lia. apply Hframe. lia.
    + now apply abortTrace_app.
Qed.

Section LoopFacts.

Variable testCase : TestCase.
Variable structuredSteps : list TestStep.
Variable captured : Component.
Variable env : RunEnv.
Variable skipFirstNavigate : bool.

Lemma runLoop_spec (rest : list TestStep) :
  forall (i : nat) (live live' : Component) (exit : LoopExit)
         (tr : list Effect),
    runLoop testCase structuredSteps captured env skipFirstNavigate i rest live
      = (exit, live', tr) ->
    loopSpec i (length rest) (results live) (results live') exit tr.
Proof.
  induction rest as [|step rest' IH]; intros i live live' exit tr Hrun.
  - injection Hrun as <- <- <-.
    split; [reflexivity|]. split; [reflexivity|].
    split; [intros j r Hj; simpl in Hj; lia|]. now split.
  - simpl in Hrun.
    destruct (skipFirstNavigate && (i =? 0) &&
              StepType_eqb (s_type step) navigate) eqn:Hskip.
    + apply IH in Hrun. simpl in Hrun.
      apply (loopSpec_cons i (length rest') (results live) _ _ exit [] tr)
        in Hrun; [exact Hrun | | | | reflexivity].
      * apply length_mapAt.
      * intros j Hne. now apply lookup_mapAt_ne.
      * intros r. rewrite lookup_mapAt_eq.
        destruct (results live !! i); simpl; [|discriminate].
        intros [= <-]. now left.
    + destruct (executeStep testCase (testWindow captured) step i
                  (env_obs env i)) as [result effs] eqn:Hexec.
      assert (Heffs : posts (EExecuteStep i :: effs) = []).
      { simpl. pose proof (executeStep_posts testCase (testWindow captured)
                             step i (env_obs env i)) as H.
        now rewrite Hexec in H. }
      destruct (negb (success result) &&
                negb (isCrossOriginWarning (message result))) eqn:Habort.
      * injection Hrun as <- <- <-. simpl.
        apply andb_true_iff in Habort as [Hs Hc].
        apply negb_true_iff in Hs, Hc.
        split; [now rewrite !length_mapAt|]. split.
        { intros j Hj. rewrite !lookup_mapAt_ne by lia. reflexivity. }
        exists i. split; [lia|]. split; [intros j r Hj; lia|]. split; [|split].
        -- intros r H. rewrite lookup_mapAt_eq in H.
           destruct (mapAt i markRunning (results live) !! i); [|discriminate].
           simpl in H. injection H as <-. unfold fatal. simpl. rewrite Hs.
           split; [reflexivity|]. now exists (message result).
        -- intros j Hj. rewrite !lookup_mapAt_ne by lia. reflexivity.
        -- exists (EExecuteStep i :: effs), (abortRecord testCase structuredSteps
                     captured env i result (env_duration env i)).
           split; [reflexivity|]. split; [exact Heffs | reflexivity].
      * destruct (runLoop testCase structuredSteps captured env
                    skipFirstNavigate (S i) rest' _)
          as [[exit0 live0] tr0] eqn:Hrec.
        injection Hrun as <- <- <-.
        apply IH in Hrec. simpl in Hrec.
        change (EExecuteStep i :: effs ++ tr0)
          with ((EExecuteStep i :: effs) ++ tr0).
        apply (loopSpec_cons i (length rest') (results live) _ _ exit0
                 (EExecuteStep i :: effs) tr0)
          in Hrec; [exact Hrec | | | | exact Heffs].
        -- now rewrite !length_mapAt.
        -- intros j Hne. now rewrite !lookup_mapAt_ne.
        -- intros r. rewrite !lookup_mapAt_eq.
           destruct (results live !! i); simpl; [|discriminate].
           intros [= <-]. unfold settled. simpl.
           destruct (success result); [now left|]. right. split; [reflexivity|].
           exists (message result). split; [reflexivity|].
           simpl in Habort. now apply negb_false_iff in Habort.
Qed.

(** A step the loop called [executeStep] on does not end pending. *)
Lemma runLoop_executed (rest : list TestStep) :
  forall (i : nat) (live live' : Component) (exit : LoopExit)
         (tr : list Effect),
    runLoop testCase structuredSteps captured env skipFirstNavigate i rest live
      = (exit, live', tr) ->
    forall j r, In (EExecuteStep j) tr -> results live' !! j = Some r ->
      r_status r <> pending.
Proof.
  induction rest as [|step rest' IH]; intros i live live' exit tr Hrun j r Hin Hr.
  - injection Hrun as <- <- <-. destruct Hin.
  - simpl in Hrun.
    destruct (skipFirstNavigate && (i =? 0) &&
              StepType_eqb (s_type step) navigate).
    { exact (IH _ _ _ _ _ Hrun j r Hin Hr). }
    pose proof (executeStep_only_navigates testCase (testWindow captured)
                  step i (env_obs env i) (EExecuteStep j)) as Hnot.
    destruct (executeStep testCase (testWindow captured) step i (env_obs env i))
      as [result effs].
    simpl in Hnot.
    assert (Hnot' : ~ In (EExecuteStep j) effs).
    { intros H. destruct (Hnot H) as (w' & u & Heq). discriminate Heq. }
    clear Hnot. rename Hnot' into Hnot.
    destruct (negb (success result) &&
              negb (isCrossOriginWarning (message result))).
    + injection Hrun as <- <- <-.
      simpl in Hin. destruct Hin as [Hin|Hin].
      * injection Hin as <-. simpl in Hr. rewrite lookup_mapAt_eq in Hr.
        destruct (mapAt i markRunning (results live) !! i); [|discriminate].
        simpl in Hr. injection Hr as <-. simpl. now destruct (success result).
      * apply in_app_or in Hin as [Hin|Hin]; [contradiction|].
        simpl in Hin. destruct Hin as [Hin|[Hin|[]]]; discriminate.
    + destruct (runLoop testCase structuredSteps captured env
                  skipFirstNavigate (S i) rest' _)
        as [[exit0 live0] tr0] eqn:Hrec.
      injection Hrun as <- <- <-.
      simpl in Hin. destruct Hin as [Hin|Hin].
      * injection Hin as <-.
        apply runLoop_spec in Hrec. destruct Hrec as (_ & Hbelow & _).
        rewrite (Hbelow i ltac:(lia)) in Hr. simpl in Hr.
        rewrite lookup_mapAt_eq in Hr.
        destruct (mapAt i markRunning (results live) !! i); [|discriminate].
        simpl in Hr. injection Hr as <-. simpl. now destruct (success result).
      * apply in_app_or in Hin as [Hin|Hin]; [contradiction|].
        exact (IH _ _ _ _ _ Hrec j r Hin Hr).
Qed.

End LoopFacts.

(** ** Live Execution Engine: the whole run *)

Lemma lookup_pendingResults (steps : list TestStep) (j : nat) (r : TestResult) :
  pendingResults steps !! j = Some r -> r_status r = pending.
Proof.
  unfold pendingResults. rewrite list_lookup_fmap.
  destruct (steps !! j); simpl; [|discriminate]. now intros [= <-].
Qed.

Lemma length_pendingResults (steps : list TestStep) :
  length (pendingResults steps) = length steps.
Proof. unfold pendingResults. apply length_map. Qed.

Lemma settled_not_fatal (r : TestResult) : settled r -> fatal r -> False.
Proof.
  intros [Hp|(_ & m & Hm & Hc)] (Hf & m' & Hm' & Hc'); congruence.
Qed.

Lemma abortTrace_posts (tr : list Effect) :
  abortTrace tr -> exists rec, posts tr = [rec] /\ e_status rec = failed.
Proof.
  intros (pre & rec & -> & Hpre & Hs). exists rec.
  rewrite posts_app, Hpre. now split.
Qed.

(** A run over a non-empty sequence either ends before the loop, with
    every result pending and nothing posted, or goes through the loop
    from the all-pending results. *)
Lemma runTest_cases (testCase : TestCase) (steps : list TestStep)
    (captured : Component) (env : RunEnv) :
  steps <> [] ->
  let out := runTest testCase steps captured env in
  (results (stateOf out) = pendingResults steps /\ posts (traceOf out) = []) \/
  (exists skip live exit live' tr pre,
     results live = pendingResults steps /\
     runLoop testCase steps captured env skip 0 steps live = (exit, live', tr) /\
     posts pre = [] /\
     results (stateOf out) = results live' /\
     traceOf out =
       pre ++ tr ++
       match exit with
       | Completed =>
           [EPost (completionRecord testCase steps captured env);
            ESetIsRunning false]
       | Aborted => []
       end).
Proof.
  intros Hne. simpl. unfold runTest.
  destruct steps as [|s0 rest] eqn:Esteps; [contradiction|].
  rewrite <- Esteps. clear Hne.
  assert (Hmain : forall skip live pre,
            results live = pendingResults steps -> posts pre = [] ->
            let out := mainLoop testCase steps captured env skip live pre in
            exists skip live exit live' tr pre,
              results live = pendingResults steps /\
              runLoop testCase steps captured env skip 0 steps live
                = (exit, live', tr) /\
              posts pre = [] /\
              results (stateOf out) = results live' /\
              traceOf out =
                pre ++ tr ++
                match exit with
                | Completed =>
                    [EPost (completionRecord testCase steps captured env);
                     ESetIsRunning false]
                | Aborted => []
                end).
  { intros skip live pre Hlive Hpre. simpl. unfold mainLoop.
    destruct (runLoop testCase steps captured env skip 0 steps live)
      as [[exit live'] tr] eqn:Hrun.
    exists skip, live, exit, live', tr, pre.
    destruct exit; simpl; repeat split; try assumption.
    now rewrite app_nil_r. }
  destruct (env_open env) as [newWindow|]; [|left; now split].
  destruct (env_write env) as [[]|err]; [|left; now split].
  unfold afterWrite.
  destruct (firstNavigateStep steps) as [firstNavigate|].
  - destruct (env_assign env) as [[]|err].
    + right. apply Hmain.
      * now destruct (env_href env).
      * reflexivity.
    + left. now split.
  - right. apply Hmain; reflexivity.
Qed.

(** In a run over a non-empty sequence, the result of a step that is not
    pending was produced by the loop; the three ways the loop relates to
    a position [i] whose result is [r]. *)
Lemma runTest_position (testCase : TestCase) (steps : list TestStep)
    (captured : Component) (env : RunEnv) (i : nat) (r : TestResult) :
  let out := runTest testCase steps captured env in
  i < length steps ->
  results (stateOf out) !! i = Some r ->
  r_status r <> pending ->
  length (results (stateOf out)) = length steps /\
  ((forall j r', j < length steps ->
      results (stateOf out) !! j = Some r' -> settled r') /\
   posts (traceOf out) = [completionRecord testCase steps captured env]
   \/
   exists k, i <= k < length steps /\
     (forall j r', j < k -> results (stateOf out) !! j = Some r' -> settled r') /\
     (forall r', results (stateOf out) !! k = Some r' -> fatal r') /\
     (forall j r', k < j -> results (stateOf out) !! j = Some r' ->
        r_status r' = pending) /\
     abortTrace (traceOf out)).
Proof.
  simpl. intros Hi Hr Hnp.
  assert (Hne : steps <> []) by (destruct steps; [simpl in Hi; lia | discriminate]).
  destruct (runTest_cases testCase steps captured env Hne)
    as [[Hres _]|(skip & live & exit & live' & tr & pre & Hlive & Hrun & Hpre
                  & Hres & Htr)].
  { rewrite Hres in Hr. now apply lookup_pendingResults in Hr. }
  apply runLoop_spec in Hrun. rewrite Hlive in Hrun.
  destruct Hrun as (Hlen & _ & Hexit). rewrite <- Hres in Hlen, Hexit.
  rewrite length_pendingResults in Hlen. split; [exact Hlen|].
  destruct exit.
  - left. destruct Hexit as (Hin & _ & Hposts). split.
    + intros j r' Hj. apply Hin. lia.
    + rewrite Htr, !posts_app, Hpre, Hposts. reflexivity.
  - right. destruct Hexit as (k & Hk & Hin & Hat & Habove & Habort).
    assert (Hik : i <= k).
    { destruct (le_lt_dec i k) as [|Hlt]; [assumption|].
      rewrite (Habove i Hlt) in Hr. now apply lookup_pendingResults in Hr. }
    exists k. split; [lia|]. split; [|split; [exact Hat|split]].
    + intros j r' Hj. apply Hin. lia.
    + intros j r' Hj Hr'. rewrite (Habove j Hj) in Hr'.
      now apply lookup_pendingResults in Hr'.
    + rewrite Htr, app_nil_r. now apply abortTrace_app.
Qed.

(** A step [executeStep] was called on during a run does not end
    pending. *)
Lemma runTest_executed (testCase : TestCase) (steps : list TestStep)
    (captured : Component) (env : RunEnv) (j : nat) (r : TestResult) :
  let out := runTest testCase steps captured env in
  In (EExecuteStep j) (traceOf out) ->
  results (stateOf out) !! j = Some r ->
  r_status r <> pending.
Proof.
  simpl. unfold runTest.
  destruct steps as [|s0 rest] eqn:E; [intros []|]. rewrite <- E.
  assert (Hmain : forall skip live pre,
            ~ In (EExecuteStep j) pre ->
            let out := mainLoop testCase steps captured env skip live pre in
            In (EExecuteStep j) (traceOf out) ->
            results (stateOf out) !! j = Some r -> r_status r <> pending).
  { intros skip live pre Hpre. simpl. unfold mainLoop.
    destruct (runLoop testCase steps captured env skip 0 steps live)
      as [[exit live'] tr] eqn:Hrun.
    pose proof (runLoop_executed testCase steps captured env skip steps 0 live
                  live' exit tr Hrun j r) as Hexec.
    destruct exit; simpl; intros Hin Hr.
    - apply in_app_or in Hin as [Hin|Hin]; [contradiction|].
      apply in_app_or in Hin as [Hin|Hin]; [now apply Hexec|].
      simpl in Hin. destruct Hin as [Hin|[Hin|[]]]; discriminate.
    - apply in_app_or in Hin as [Hin|Hin]; [contradiction | now apply Hexec]. }
  destruct (env_open env) as [newWindow|].
  2:{ simpl. intros [H|[H|[H|[]]]]; discriminate. }
  destruct (env_write env) as [[]|err].
  2:{ simpl. intros [H|[H|[]]]; discriminate. }
  unfold afterWrite.
  destruct (firstNavigateStep steps) as [firstNavigate|].
  - destruct (env_assign env) as [[]|err].
    + apply Hmain. simpl. intros [H|[H|[H|[]]]]; discriminate.
    + simpl. intros [H|[H|[H|[H|[]]]]]; discriminate.
  - apply Hmain. simpl. intros [H|[H|[]]]; discriminate.
Qed.

(** C1, as the code has it.  If in a run the step at position [i] ends
    failed with a message that holds none of the three marker texts of
    [isCrossOriginWarning], the run stops there: every step after [i] is
    still pending when the run ends and [executeStep] was not called on
    it, exactly one record is posted, it has status failed, and the POST
    is the last thing the run does before [setIsRunning(false)]. *)
Theorem C1_plain_failure_aborts (testCase : TestCase) (steps : list TestStep)
    (captured : Component) (env : RunEnv) (i : nat) (r : TestResult)
    (m : string) :
  let out := runTest testCase steps captured env in
  i < length steps ->
  results (stateOf out) !! i = Some r ->
  r_status r = failed ->
  r_message r = Some m ->
  isCrossOriginWarning m = false ->
  (forall j r', i < j -> results (stateOf out) !! j = Some r' ->
     r_status r' = pending) /\
  (forall j, i < j -> j < length steps ->
     ~ In (EExecuteStep j) (traceOf out)) /\
  (exists rec, posts (traceOf out) = [rec] /\ e_status rec = failed) /\
  abortTrace (traceOf out).
Proof.
  simpl. intros Hi Hr Hf Hm Hc.
  assert (Hfatal : fatal r) by (split; [exact Hf | now exists m]).
  destruct (runTest_position testCase steps captured env i r Hi Hr)
    as (Hlen & [(Hall & _)|(k & Hk & Hin & Hat & Habove & Habort)]).
  { congruence. }
  { destruct (settled_not_fatal r (Hall i r Hi Hr) Hfatal). }
  assert (k = i) as ->.
  { destruct (decide (k = i)) as [|Hne]; [assumption|].
    destruct (settled_not_fatal r (Hin i r ltac:(lia) Hr) Hfatal). }
  split; [exact Habove|]. split.
  - intros j Hij Hj Hexec.
    destruct (lookup_lt_is_Some_2
                (results (stateOf (runTest testCase steps captured env))) j)
      as [rj Hrj]; [lia|].
    apply (runTest_executed testCase steps captured env j rj Hexec Hrj).
    now apply (Habove j).
  - split; [now apply abortTrace_posts | exact Habort].
Qed.

(** C2, as the code has it.  If in a run the step at position [i] ends
    failed with a cross-origin-qualified message, the loop goes on: every
    later step ends passed or failed, except the steps that come after a
    later step which failed with a message that is not
    cross-origin-qualified, and those stay pending.  The step right
    after [i] therefore always leaves pending. *)
Theorem C2_cross_origin_failure_continues (testCase : TestCase)
    (steps : list TestStep) (captured : Component) (env : RunEnv) (i : nat)
    (r : TestResult) (m : string) :
  let out := runTest testCase steps captured env in
  i < length steps ->
  results (stateOf out) !! i = Some r ->
  r_status r = failed ->
  r_message r = Some m ->
  isCrossOriginWarning m = true ->
  (forall j r', i < j -> results (stateOf out) !! j = Some r' ->
     (r_status r' = passed \/ r_status r' = failed) \/
     (r_status r' = pending /\
      exists k rk, i < k < j /\ results (stateOf out) !! k = Some rk /\
                   fatal rk)) /\
  (forall r', results (stateOf out) !! (S i) = Some r' ->
     r_status r' = passed \/ r_status r' = failed).
Proof.
  simpl. intros Hi Hr Hf Hm Hc.
  assert (Hsettled : settled r).
  { right. split; [exact Hf | now exists m]. }
  assert (Hstatus : forall r', settled r' \/ fatal r' ->
            r_status r' = passed \/ r_status r' = failed).
  { intros r' [[Hp|[Hq _]]|[Hq _]]; auto. }
  destruct (runTest_position testCase steps captured env i r Hi Hr)
    as (Hlen & [(Hall & _)|(k & Hk & Hin & Hat & Habove & Habort)]).
  { congruence. }
  { split.
    - intros j r' Hj Hr'. left. apply Hstatus. left.
      apply (Hall j r'); [|exact Hr'].
      apply lookup_lt_Some in Hr'. lia.
    - intros r' Hr'. apply Hstatus. left.
      apply (Hall (S i) r'); [|exact Hr'].
      apply lookup_lt_Some in Hr'. lia. }
  assert (Hik : i < k).
  { destruct (decide (k = i)) as [->|Hne]; [|lia].
    destruct (settled_not_fatal r Hsettled (Hat r Hr)). }
  assert (Hcase : forall j r', i < j -> j <= k ->
            results (stateOf (runTest testCase steps captured env)) !! j
              = Some r' ->
            r_status r' = passed \/ r_status r' = failed).
  { intros j r' Hij Hjk Hr'. apply Hstatus.
    destruct (decide (j = k)) as [->|Hne]; [right; now apply Hat|].
    left. apply (Hin j r'); [lia | exact Hr']. }
  split.
  - intros j r' Hj Hr'.
    destruct (le_lt_dec j k) as [Hjk|Hkj]; [left; now apply (Hcase j)|].
    right. split; [now apply (Habove j)|].
    destruct (lookup_lt_is_Some_2
                (results (stateOf (runTest testCase steps captured env))) k)
      as [rk Hrk]; [lia|].
    exists k, rk. split; [lia|]. split; [exact Hrk | now apply Hat].
  - intros r' Hr'. apply (Hcase (S i) r'); [lia | lia | exact Hr'].
Qed.

Lemma C1_plain_failure_aborts_witness :
  let out := runTest sampleCase checkout initialState (browser sameOrigin) in
  (forall j r', 1 < j -> results (stateOf out) !! j = Some r' ->
     r_status r' = pending) /\
  (forall j, 1 < j -> j < length checkout ->
     ~ In (EExecuteStep j) (traceOf out)) /\
  (exists rec, posts (traceOf out) = [rec] /\ e_status rec = failed) /\
  abortTrace (traceOf out).
Proof.
  refine (C1_plain_failure_aborts sampleCase checkout initialState
            (browser sameOrigin) 1
            (mkResult "Click element" failed
               (Some "Test window is not available") (Some 5%Z))
            "Test window is not available" _ _ _ _ _).
  - simpl. lia.
  - reflexivity.
  - reflexivity.
  - reflexivity.
  - reflexivity.
Defined.

Lemma C2_cross_origin_failure_continues_witness :
  let out := secondRun checkout (browser sameOrigin) (browser crossOrigin) in
  exists r', results (stateOf out) !! 2 = Some r' /\
             (r_status r' = passed \/ r_status r' = failed).
Proof.
  exists (mkResult "Custom code" failed (Some "Unknown step type: custom")
            (Some 5%Z)).
  split; [reflexivity|].
  refine (proj2 (C2_cross_origin_failure_continues sampleCase checkout
            (stateOf (runTest sampleCase checkout initialState
                        (browser sameOrigin)))
            (browser crossOrigin) 1
            (mkResult "Click element" failed
               (Some "Cannot access window (cross-origin). Please verify manually in the test window.")
               (Some 5%Z))
            "Cannot access window (cross-origin). Please verify manually in the test window."
            _ _ _ _ _) _ _).
  - simpl. lia.
  - reflexivity.
  - reflexivity.
  - reflexivity.
  - reflexivity.
  - reflexivity.
Defined.

(** C1 as stated fails: the run goes on after a failure that the
    cross-origin boundary has no part in.  In the second run of
    [bannerThenWait] the window is on the runner's own origin and shows
    no element; the click at position 0 fails because its element is
    missing, its message holds the marker text only through the selector,
    and the wait step at position 1 is executed and ends passed. *)
Lemma C1_counterexample :
  let out := secondRun bannerThenWait (browser sameOrigin) (browser emptyPage) in
  let m := "Element not found: #cross-origin-banner" in
  map (fun r => (r_status r, r_message r)) (results (stateOf out)) =
    [(failed, Some m); (passed, Some "Waited for #app")] /\
  canAccessWindow (Some 7) emptyPage = true /\
  ~ originBoundaryMessage m /\
  isCrossOriginWarning m = true /\
  In (EExecuteStep 1) (traceOf out) /\
  ~ (forall j r', 0 < j -> results (stateOf out) !! j = Some r' ->
       r_status r' = pending).
Proof.
  split; [reflexivity|]. split; [reflexivity|]. split.
  { intros [H|[H|H]]; discriminate H. }
  split; [reflexivity|]. split.
  { simpl. tauto. }
  intros H.
  discriminate (H 1 (mkResult "Wait for element" passed
                       (Some "Waited for #app") (Some 5%Z))
                  ltac:(lia) eq_refl).
Qed.

(** C2 as stated fails: in the second run of the checkout sequence
    against a cross-origin window, the click at position 1 fails with a
    cross-origin-qualified message and the loop goes on, the custom step
    at position 2 then fails with "Unknown step type: custom", which
    ends the run, and the click at position 3 is still pending. *)
Lemma C2_counterexample :
  let out := secondRun checkout (browser sameOrigin) (browser crossOrigin) in
  map (fun r => (r_status r, r_message r)) (results (stateOf out)) =
    [(passed, Some "Already navigated to https://shop.test/cart");
     (failed, Some "Cannot access window (cross-origin). Please verify manually in the test window.");
     (failed, Some "Unknown step type: custom");
     (pending, None)] /\
  isCrossOriginWarning
    "Cannot access window (cross-origin). Please verify manually in the test window."
    = true /\
  ~ (forall j r', 1 < j -> results (stateOf out) !! j = Some r' ->
       r_status r' <> pending).
Proof.
  split; [reflexivity|]. split; [reflexivity|].
  intros H.
  apply (H 3 (mkResult "Click element" pending None None));
    [lia | reflexivity | reflexivity].
Qed.

(** ** Live Execution Engine: the record of a completed run *)

(** When every step of a run ends passed or failed with a
    cross-origin-qualified message, the run posts exactly one record,
    and the status, the counts and the step results of that record are
    those of the results captured by the closure, not of this run. *)
Lemma completed_run_posts_snapshot (testCase : TestCase)
    (steps : list TestStep) (captured : Component) (env : RunEnv) :
  let out := runTest testCase steps captured env in
  steps <> [] ->
  (forall j r, results (stateOf out) !! j = Some r -> settled r) ->
  exists rec,
    posts (traceOf out) = [rec] /\
    e_stepResults rec = results captured /\
    e_status rec =
      (if 0 <? countStatus failed (results captured) then failed else passed).
Proof.
  simpl. intros Hne Hall.
  destruct steps as [|s0 rest] eqn:E; [contradiction|]. rewrite <- E in *.
  assert (H0 : 0 < length steps) by (rewrite E; simpl; lia).
  destruct (lookup_lt_is_Some_2 (pendingResults steps) 0) as [p Hp].
  { rewrite length_pendingResults. exact H0. }
  destruct (runTest_cases testCase steps captured env) as [[Hres _]|Hloop].
  { rewrite E. discriminate. }
  { rewrite <- Hres in Hp. pose proof (Hall 0 p Hp) as Hs.
    rewrite Hres in Hp. apply lookup_pendingResults in Hp.
    destruct Hs as [Hs|[Hs _]]; congruence. }
  destruct Hloop as (skip & live & exit & live' & tr & pre & Hlive & Hrun & Hpre
                     & Hres & Htr).
  apply runLoop_spec in Hrun. rewrite Hlive in Hrun.
  destruct Hrun as (Hlen & _ & Hexit). rewrite <- Hres in Hlen, Hexit.
  rewrite length_pendingResults in Hlen.
  destruct exit.
  - destruct Hexit as (_ & _ & Hposts).
    exists (completionRecord testCase steps captured env).
    rewrite Htr, !posts_app, Hpre, Hposts. now repeat split.
  - destruct Hexit as (k & Hk & _ & Hat & _).
    destruct (lookup_lt_is_Some_2
                (results (stateOf (runTest testCase steps captured env))) k)
      as [rk Hrk]; [lia|].
    destruct (settled_not_fatal rk (Hall k rk Hrk) (Hat rk Hrk)).
Qed.

(** C3 fails on the code.  "Run Test" is clicked twice on the sequence
    that verifies the placeholder element.  The first run fails (its
    closure holds no window) and leaves the result failed.  In the second
    run the only step passes and the loop runs to its end, yet the one
    record posted has status failed, no passed step and one failed step:
    it is computed from the results the closure captured, which are those
    of the first run. *)
Theorem C3_completed_run_reports_previous_run :
  let run1 :=
    runTest sampleCase verifyPlaceholder initialState (browser sameOrigin) in
  let run2 :=
    secondRun verifyPlaceholder (browser sameOrigin) (browser sameOrigin) in
  map r_status (results (stateOf run1)) = [failed] /\
  map (fun r => (r_status r, r_message r)) (results (stateOf run2)) =
    [(passed, Some "Element found and visible: .loading")] /\
  (forall j r, results (stateOf run2) !! j = Some r -> r_status r <> failed) /\
  exists rec,
    posts (traceOf run2) = [rec] /\
    e_status rec = failed /\
    e_passedSteps rec = 0 /\
    e_failedSteps rec = 1 /\
    e_stepResults rec = results (stateOf run1).
Proof.
  simpl. split; [reflexivity|]. split; [reflexivity|]. split.
  - intros [|j] r H; [|destruct j; discriminate H].
    injection H as <-. discriminate.
  - eexists. split; [reflexivity|]. now repeat split.
Qed.

(** ** Live Execution Engine: assert and custom steps *)

(** C4, as the code has it.  Neither an assert nor a custom step is
    executed against the page: [executeStep] does nothing to the window
    and its answer depends only on whether the closure holds a window and
    whether that window reports itself closed.  Past that guard an assert
    step reports success, with its description as message, and a custom
    step reports the failure "Unknown step type: custom". *)
Theorem C4_assert_and_custom_steps (testCase : TestCase)
    (testWindow : option Win) (step : TestStep) (stepIndex : nat)
    (obs : WindowObs) :
  (s_type step = assert ->
     executeStep testCase testWindow step stepIndex obs =
       (guarded testWindow obs
          (ok (if nonEmpty (s_description step) then s_description step
               else "Assertion passed")), [])) /\
  (s_type step = custom ->
     executeStep testCase testWindow step stepIndex obs =
       (guarded testWindow obs (ko "Unknown step type: custom"), []) /\
     success (executeStep testCase testWindow step stepIndex obs).1 = false).
Proof.
  unfold executeStep, windowGuard, stepSwitch, guarded.
  split; intros ->.
  - destruct testWindow; [|reflexivity]. now destruct (o_closed obs) as [[]|].
  - destruct testWindow; [|now split]. now destruct (o_closed obs) as [[]|].
Qed.

Lemma C4_assert_and_custom_steps_witness :
  executeStep sampleCase (Some 7) (stepAssert "cart.total > 0") 2 sameOrigin =
    (ok "Assert condition", []) /\
  executeStep sampleCase (Some 7) (stepCustom "await page.pause()") 2 sameOrigin =
    (ko "Unknown step type: custom", []).
Proof.
  split.
  - exact (proj1 (C4_assert_and_custom_steps sampleCase (Some 7)
                    (stepAssert "cart.total > 0") 2 sameOrigin) eq_refl).
  - exact (proj1 (proj2 (C4_assert_and_custom_steps sampleCase (Some 7)
                           (stepCustom "await page.pause()") 2 sameOrigin)
                    eq_refl)).
Defined.

(** C4 as stated fails: with an open window in hand the assert step
    reports success and the custom step reports failure. *)
Lemma C4_counterexample :
  success (executeStep sampleCase (Some 7) (stepAssert "cart.total > 0") 2
             sameOrigin).1 = true /\
  success (executeStep sampleCase (Some 7) (stepCustom "await page.pause()") 2
             sameOrigin).1 = false /\
  message (executeStep sampleCase (Some 7) (stepCustom "await page.pause()") 2
             sameOrigin).1 = "Unknown step type: custom".
Proof. repeat split. Qed.

(** ** Live Execution Engine: the up-front navigation *)

Lemma loopEffectFrom_weaken (i j : nat) (e : Effect) :
  i <= j -> loopEffectFrom j e -> loopEffectFrom i e.
Proof. destruct e; simpl; intros; try assumption; lia. Qed.

Lemma executeStep_effects (testCase : TestCase) (w : option Win)
    (step : TestStep) (i : nat) (obs : WindowObs) :
  Forall (loopEffectFrom i) (executeStep testCase w step i obs).2.
Proof.
  unfold executeStep. destruct (windowGuard w step obs); [constructor|].
  unfold stepSwitch.
  repeat match goal with
         | |- context [match ?x with _ => _ end] => destruct x
         end;
    simpl; repeat constructor.
Qed.

Lemma runLoop_effects (testCase : TestCase) (steps : list TestStep)
    (captured : Component) (env : RunEnv) (skip : bool)
    (rest : list TestStep) :
  forall (i : nat) (live : Component),
    Forall (loopEffectFrom i)
      (runLoop testCase steps captured env skip i rest live).2.
Proof.
  induction rest as [|step rest' IH]; intros i live; simpl; [constructor|].
  destruct (skip && (i =? 0) && StepType_eqb (s_type step) navigate).
  - eapply Forall_impl; [apply IH|].
    intros e. apply loopEffectFrom_weaken. lia.
  - pose proof (executeStep_effects testCase (testWindow captured) step i
                  (env_obs env i)) as Hexec.
    destruct (executeStep testCase (testWindow captured) step i (env_obs env i))
      as [result effs].
    simpl in Hexec.
    destruct (negb (success result) &&
              negb (isCrossOriginWarning (message result))).
    + simpl. constructor; [simpl; lia|].
      apply Forall_app. split; [exact Hexec|]. repeat constructor.
    + match goal with
      | |- context [runLoop ?a ?b ?c ?d ?e ?f ?g ?h] =>
          pose proof (IH f h) as Hrec;
          destruct (runLoop a b c d e f g h) as [[exit0 live0] tr0]
      end.
      simpl in *. constructor; [simpl; lia|].
      apply Forall_app. split; [exact Hexec|].
      eapply Forall_impl; [exact Hrec|].
      intros e. apply loopEffectFrom_weaken. lia.
Qed.

Lemma firstNavigateStep_Some (steps : list TestStep) :
  (exists s, In s steps /\ s_type s = navigate /\ truthy (s_url s) = true) <->
  (exists f, firstNavigateStep steps = Some f).
Proof.
  unfold firstNavigateStep. split.
  - intros (s & Hin & Ht & Hu).
    destruct (List.find _ steps) as [f|] eqn:E; [now exists f|].
    pose proof (List.find_none _ _ E s Hin) as H. simpl in H.
    rewrite Ht, Hu in H. discriminate.
  - intros [f E]. apply List.find_some in E as [Hin H].
    apply andb_true_iff in H as [Ht Hu].
    exists f. repeat split; try assumption. now destruct (s_type f).
Qed.

Lemma orElse_truthy (o : option string) (d : string) :
  truthy o = true -> orElse o d = get o.
Proof. destruct o as [u|]; simpl; [|discriminate]. now intros ->. Qed.

(** The trace of a run whose window was opened and written to: the
    up-front navigation, if any, comes right after the window is opened,
    and everything after it is an effect of the loop or the end of the
    run. *)
Lemma runTest_trace (testCase : TestCase) (steps : list TestStep)
    (captured : Component) (env : RunEnv) (w : Win) :
  steps <> [] ->
  env_open env = Some w -> env_write env = Return tt ->
  exists tail,
    traceOf (runTest testCase steps captured env) =
      [ESetIsRunning true; EOpenWindow (Some w)] ++
      upfrontNavigation testCase steps w ++ tail /\
    Forall (loopEffectFrom 0) tail.
Proof.
  intros Hne Hopen Hwrite. unfold runTest.
  destruct steps as [|s0 rest] eqn:E; [contradiction|]. rewrite <- E. clear Hne.
  rewrite Hopen, Hwrite. unfold afterWrite, upfrontNavigation.
  assert (Hmain : forall skip live pre,
            exists tail,
              traceOf (mainLoop testCase steps captured env skip live pre)
                = pre ++ tail /\
              Forall (loopEffectFrom 0) tail).
  { intros skip live pre. unfold mainLoop.
    pose proof (runLoop_effects testCase steps captured env skip steps 0 live)
      as Hloop.
    destruct (runLoop testCase steps captured env skip 0 steps live)
      as [[exit live'] tr].
    simpl in Hloop. destruct exit.
    - exists (tr ++ [EPost (completionRecord testCase steps captured env);
                     ESetIsRunning false]).
      split; [reflexivity|]. apply Forall_app. split; [exact Hloop|].
      repeat constructor.
    - now exists tr. }
  destruct (firstNavigateStep steps) as [f|].
  - destruct (env_assign env) as [[]|err].
    + match goal with
      | |- context [mainLoop ?a ?b ?c ?d ?e ?f ?g] =>
          destruct (Hmain e f g) as (tail & Htr & Htail)
      end.
      exists tail. split; [|exact Htail]. rewrite Htr. reflexivity.
    + exists [ESetIsRunning false]. split; [reflexivity|]. repeat constructor.
  - match goal with
    | |- context [mainLoop ?a ?b ?c ?d ?e ?f ?g] =>
        destruct (Hmain e f g) as (tail & Htr & Htail)
    end.
    exists tail. split; [|exact Htail]. rewrite Htr. reflexivity.
Qed.

Lemma loopEffectFrom_not_initial (i : nat) (tail : list Effect) (w : Win)
    (url : string) :
  Forall (loopEffectFrom i) tail -> ~ In (EInitialNavigation w url) tail.
Proof.
  intros Hall Hin. rewrite Forall_forall in Hall.
  apply list_elem_of_In in Hin. exact (Hall _ Hin).
Qed.

(** When the first step is a navigate step with a URL and the up-front
    assignment goes through, the loop marks position 0 passed without
    calling [executeStep] on it. *)
Lemma runTest_skips_first_navigate (testCase : TestCase) (s0 : TestStep)
    (rest : list TestStep) (captured : Component) (env : RunEnv) (w : Win) :
  let out := runTest testCase (s0 :: rest) captured env in
  env_open env = Some w -> env_write env = Return tt ->
  env_assign env = Return tt ->
  s_type s0 = navigate -> truthy (s_url s0) = true ->
  results (stateOf out) !! 0 =
    Some (mkResult (stepLabel s0) passed
            (Some ("Already navigated to " +:+
                   resolveUrl testCase (get (s_url s0)))) None) /\
  exists tail,
    traceOf out =
      [ESetIsRunning true; EOpenWindow (Some w);
       EInitialNavigation w (resolveUrl testCase (get (s_url s0)))] ++ tail /\
    Forall (loopEffectFrom 1) tail.
Proof.
  simpl. intros Hopen Hwrite Hassign Ht Hu.
  unfold runTest. rewrite Hopen, Hwrite. unfold afterWrite, firstNavigateStep.
  simpl List.find. rewrite Ht, Hu. simpl. rewrite Hassign.
  unfold mainLoop. simpl runLoop. rewrite Ht. simpl.
  rewrite (orElse_truthy _ EmptyString Hu).
  match goal with
  | |- context [runLoop ?a ?b ?c ?d ?e ?f ?g ?h] =>
      pose proof (runLoop_effects a b c d e g f h) as Heff;
      pose proof (runLoop_spec a b c d e g f h) as Hspec;
      destruct (runLoop a b c d e f g h) as [[exit live'] tr]
  end.
  specialize (Hspec live' exit tr eq_refl).
  destruct Hspec as (_ & Hbelow & _). specialize (Hbelow 0 ltac:(lia)).
  simpl in Heff.
  assert (Hzero : results live' !! 0 =
            Some (mkResult (stepLabel s0) passed
                    (Some ("Already navigated to " +:+
                           resolveUrl testCase (get (s_url s0)))) None)).
  { rewrite Hbelow. now destruct (env_href env). }
  destruct exit; simpl; (split; [exact Hzero|]).
  - eexists. split; [reflexivity|].
    apply Forall_app. split; [exact Heff|]. repeat constructor.
  - eexists. split; [reflexivity | exact Heff].
Qed.

(** [find] returns the first navigate step with a URL. *)
Lemma firstNavigateStep_at (steps : list TestStep) (f : TestStep) :
  firstNavigateStep steps = Some f <-> exists i, firstNavigateAt steps i f.
Proof.
  unfold firstNavigateStep, firstNavigateAt.
  induction steps as [|s rest IH]; simpl.
  { split; [discriminate | intros (i & H & _); discriminate H]. }
  assert (Hnav : StepType_eqb (s_type s) navigate && truthy (s_url s) = true
                 <-> s_type s = navigate /\ truthy (s_url s) = true).
  { rewrite andb_true_iff. now destruct (s_type s). }
  destruct (StepType_eqb (s_type s) navigate && truthy (s_url s)) eqn:E.
  - split.
    + intros [= <-]. exists 0. split; [reflexivity|].
      destruct (proj1 Hnav eq_refl) as [Ht Hu].
      split; [exact Ht|]. split; [exact Hu|]. intros j s' Hj. lia.
    + intros ([|i] & Hi & _ & _ & Hbefore).
      * now injection Hi as <-.
      * destruct (Hbefore 0 s ltac:(lia) eq_refl). now apply Hnav.
  - rewrite IH. split.
    + intros (i & Hi & Ht & Hu & Hbefore). exists (S i).
      split; [exact Hi|]. split; [exact Ht|]. split; [exact Hu|].
      intros [|j] s' Hj Hs'.
      * injection Hs' as <-. intros H. apply Hnav in H. discriminate H.
      * apply (Hbefore j s'); [lia | exact Hs'].
    + intros ([|i] & Hi & Ht & Hu & Hbefore).
      * injection Hi as <-. assert (H : false = true) by now apply Hnav.
        discriminate H.
      * exists i. split; [exact Hi|]. split; [exact Ht|]. split; [exact Hu|].
        intros j s' Hj Hs'. apply (Hbefore (S j) s'); [lia | exact Hs'].
Qed.

(** C5, as the code has it.  In a run whose window was opened and written
    to, the up-front navigation is performed exactly when some step of
    the sequence, at whatever position, is a navigate step with a URL,
    and it goes to the resolved URL of the first such step and nowhere
    else.  When the first step is such a step and the up-front assignment
    goes through, the run navigates up front to that step's resolved URL,
    the loop marks the first step passed with the message "Already
    navigated to" that URL, and it neither calls [executeStep] on that
    step nor navigates for it again. *)
Theorem C5_upfront_navigation (testCase : TestCase) (steps : list TestStep)
    (captured : Component) (env : RunEnv) (w : Win) :
  let out := runTest testCase steps captured env in
  env_open env = Some w -> env_write env = Return tt ->
  ((exists url, In (EInitialNavigation w url) (traceOf out)) <->
   (exists s, In s steps /\ s_type s = navigate /\ truthy (s_url s) = true)) /\
  (forall url,
     In (EInitialNavigation w url) (traceOf out) <->
     exists i s, firstNavigateAt steps i s /\
                 url = resolveUrl testCase (get (s_url s))) /\
  (forall s0 rest,
     steps = s0 :: rest -> s_type s0 = navigate -> truthy (s_url s0) = true ->
     env_assign env = Return tt ->
     let url := resolveUrl testCase (get (s_url s0)) in
     In (EInitialNavigation w url) (traceOf out) /\
     (exists r, results (stateOf out) !! 0 = Some r /\ r_status r = passed /\
                r_message r = Some ("Already navigated to " +:+ url)) /\
     ~ In (EExecuteStep 0) (traceOf out) /\
     (forall w' u, ~ In (EStepNavigation 0 w' u) (traceOf out))).
Proof.
  simpl. intros Hopen Hwrite. split; [|split].
  - destruct steps as [|s0 rest] eqn:E.
    { simpl. split; [intros [url []] | intros (s & [] & _)]. }
    rewrite <- E.
    destruct (runTest_trace testCase steps captured env w)
      as (tail & Htr & Htail); [rewrite E; discriminate | assumption..|].
    rewrite Htr, firstNavigateStep_Some. unfold upfrontNavigation.
    destruct (firstNavigateStep steps) as [f|]; split.
    + intros _. now exists f.
    + intros _. eexists. simpl. right. right. left. reflexivity.
    + intros [url Hin]. simpl in Hin.
      destruct Hin as [Hin|[Hin|Hin]]; try discriminate.
      now destruct (loopEffectFrom_not_initial 0 tail w url Htail).
    + intros [f Hf]. discriminate.
  - intros url. destruct steps as [|s0 rest] eqn:E.
    { simpl. split; [intros [] | intros (i & s & (H & _) & _); discriminate H]. }
    rewrite <- E.
    destruct (runTest_trace testCase steps captured env w)
      as (tail & Htr & Htail); [rewrite E; discriminate | assumption..|].
    rewrite Htr. unfold upfrontNavigation.
    destruct (firstNavigateStep steps) as [f|] eqn:Hfind; split.
    + intros Hin. simpl in Hin.
      destruct Hin as [Hin|[Hin|[Hin|Hin]]]; try discriminate.
      * injection Hin as <-.
        destruct (proj1 (firstNavigateStep_at steps f) Hfind) as [i Hi].
        now exists i, f.
      * now destruct (loopEffectFrom_not_initial 0 tail w url Htail).
    + intros (i & s & Hat & ->).
      assert (Hs : firstNavigateStep steps = Some s).
      { apply firstNavigateStep_at. now exists i. }
      rewrite Hfind in Hs. injection Hs as <-.
      simpl. right. right. left. reflexivity.
    + intros Hin. simpl in Hin.
      destruct Hin as [Hin|[Hin|Hin]]; try discriminate.
      now destruct (loopEffectFrom_not_initial 0 tail w url Htail).
    + intros (i & s & Hat & _).
      assert (Hs : firstNavigateStep steps = Some s).
      { apply firstNavigateStep_at. now exists i. }
      rewrite Hfind in Hs. discriminate Hs.
  - intros s0 rest -> Ht Hu Hassign.
    destruct (runTest_skips_first_navigate testCase s0 rest captured env w
                Hopen Hwrite Hassign Ht Hu) as (Hzero & tail & Htr & Htail).
    rewrite Htr. rewrite Forall_forall in Htail.
    split; [simpl; auto|]. split; [|split].
    + eexists. split; [exact Hzero|]. now split.
    + simpl. intros [H|[H|[H|H]]]; try discriminate.
      apply list_elem_of_In in H. specialize (Htail _ H). simpl in Htail. lia.
    + intros w' u. simpl. intros [H|[H|[H|H]]]; try discriminate.
      apply list_elem_of_In in H. specialize (Htail _ H). simpl in Htail. lia.
Qed.

Lemma C5_upfront_navigation_witness :
  let out := runTest sampleCase checkout initialState (browser sameOrigin) in
  In (EInitialNavigation 7 "https://shop.test/cart") (traceOf out) /\
  (exists r, results (stateOf out) !! 0 = Some r /\ r_status r = passed /\
             r_message r = Some "Already navigated to https://shop.test/cart") /\
  ~ In (EExecuteStep 0) (traceOf out) /\
  (forall w' u, ~ In (EStepNavigation 0 w' u) (traceOf out)).
Proof.
  exact (proj2 (proj2 (C5_upfront_navigation sampleCase checkout
                         initialState (browser sameOrigin) 7 eq_refl eq_refl))
           (stepNavigate "https://shop.test/cart") (tl checkout)
           eq_refl eq_refl eq_refl eq_refl).
Defined.

(** C5 as stated fails.  The first step of [waitThenNavigate] is a wait
    step, yet the first run navigates up front to the URL of the navigate
    step at position 1; in the second run, whose closure holds the
    window, the loop then navigates to that URL again at position 1. *)
Lemma C5_counterexample :
  let run1 :=
    runTest sampleCase waitThenNavigate initialState (browser sameOrigin) in
  let run2 :=
    secondRun waitThenNavigate (browser sameOrigin) (browser sameOrigin) in
  option_map s_type (head waitThenNavigate) = Some wait /\
  traceOf run1 =
    [ESetIsRunning true; EOpenWindow (Some 7);
     EInitialNavigation 7 "https://shop.test/cart";
     EExecuteStep 0; EExecuteStep 1;
     EPost (abortRecord sampleCase waitThenNavigate initialState
              (browser sameOrigin) 1 (ko "Test window is not available") 5);
     ESetIsRunning false] /\
  firstn 6 (traceOf run2) =
    [ESetIsRunning true; EOpenWindow (Some 7);
     EInitialNavigation 7 "https://shop.test/cart";
     EExecuteStep 0; EExecuteStep 1;
     EStepNavigation 1 7 "https://shop.test/cart"].
Proof. repeat split. Qed.


(** * Further properties of the code *)

(** ** Live Execution Engine: what the loop writes at each position *)

Section LoopOutcomes.

Variable testCase : TestCase.
Variable structuredSteps : list TestStep.
Variable captured : Component.
Variable env : RunEnv.
Variable skipFirstNavigate : bool.

(** A position the loop has left not pending holds the outcome of its
    step, computed over the result that was there before. *)
Lemma runLoop_outcome_at (rest : list TestStep) :
  forall (i : nat) (live live' : Component) (exit : LoopExit)
         (tr : list Effect),
    runLoop testCase structuredSteps captured env skipFirstNavigate i rest live
      = (exit, live', tr) ->
    forall j step r r0,
      i <= j -> rest !! (j - i) = Some step ->
      results live !! j = Some r0 -> r_status r0 = pending ->
      results live' !! j = Some r -> r_status r <> pending ->
      r = stepOutcome testCase captured env skipFirstNavigate j step r0.
Proof.
  induction rest as [|step0 rest' IH];
    intros i live live' exit tr Hrun j step r r0 Hij Hstep Hr0 Hp Hr Hnp.
  - rewrite lookup_nil in Hstep. discriminate.
  - pose proof (runLoop_spec testCase structuredSteps captured env
                  skipFirstNavigate (step0 :: rest') i live live' exit tr Hrun)
      as Hspec.
    simpl in Hrun. unfold stepOutcome.
    destruct (decide (j = i)) as [->|Hne].
    + rewrite Nat.sub_diag in Hstep. simpl in Hstep. injection Hstep as ->.
      destruct (skipFirstNavigate && (i =? 0) &&
                StepType_eqb (s_type step) navigate) eqn:Hskip.
      * apply runLoop_spec in Hrun. destruct Hrun as (_ & Hbelow & _).
        rewrite (Hbelow i ltac:(lia)) in Hr. simpl in Hr.
        rewrite lookup_mapAt_eq, Hr0 in Hr. simpl in Hr. now injection Hr as <-.
      * destruct (executeStep testCase (testWindow captured) step i
                    (env_obs env i)) as [result effs] eqn:Hexec.
        simpl.
        destruct (negb (success result) &&
                  negb (isCrossOriginWarning (message result))).
        -- injection Hrun as <- <- <-. simpl in Hr.
           rewrite !lookup_mapAt_eq, Hr0 in Hr. simpl in Hr.
           now injection Hr as <-.
        -- destruct (runLoop testCase structuredSteps captured env
                       skipFirstNavigate (S i) rest' _)
             as [[exit0 live0] tr0] eqn:Hrec.
           injection Hrun as <- <- <-.
           apply runLoop_spec in Hrec. destruct Hrec as (_ & Hbelow & _).
           rewrite (Hbelow i ltac:(lia)) in Hr. simpl in Hr.
           rewrite !lookup_mapAt_eq, Hr0 in Hr. simpl in Hr.
           now injection Hr as <-.
    + assert (Hstep' : rest' !! (j - S i) = Some step).
      { replace (j - i) with (S (j - S i)) in Hstep by lia. exact Hstep. }
      destruct (skipFirstNavigate && (i =? 0) &&
                StepType_eqb (s_type step0) navigate).
      * refine (IH (S i) _ live' exit tr Hrun j step r r0 ltac:(lia) Hstep'
                  _ Hp Hr Hnp).
        simpl. now rewrite lookup_mapAt_ne.
      * destruct (executeStep testCase (testWindow captured) step0 i
                    (env_obs env i)) as [result effs].
        destruct (negb (success result) &&
                  negb (isCrossOriginWarning (message result))).
        -- injection Hrun as <- <- <-. simpl in Hr.
           rewrite !lookup_mapAt_ne in Hr by assumption.
           congruence.
        -- destruct (runLoop testCase structuredSteps captured env
                       skipFirstNavigate (S i) rest' _)
             as [[exit0 live0] tr0] eqn:Hrec.
           injection Hrun as <- <- <-.
           refine (IH (S i) _ live0 exit0 tr0 Hrec j step r r0 ltac:(lia)
                     Hstep' _ Hp Hr Hnp).
           simpl. now rewrite !lookup_mapAt_ne.
Qed.

(** The loop leaves the window handle alone, and when it runs to its end
    it leaves [isRunning] and [error] alone too. *)
Lemma runLoop_frame (rest : list TestStep) :
  forall (i : nat) (live live' : Component) (exit : LoopExit)
         (tr : list Effect),
    runLoop testCase structuredSteps captured env skipFirstNavigate i rest live
      = (exit, live', tr) ->
    testWindow live' = testWindow live /\
    map r_step (results live') = map r_step (results live) /\
    (exit = Completed ->
       isRunning live' = isRunning live /\ error live' = error live).
Proof.
  assert (Hlabels : forall i f l,
            (forall r, r_step (f r) = r_step r) ->
            map r_step (mapAt i f l) = map r_step l).
  { intros i f l Hf. unfold mapAt. apply list_eq. intros j.
    rewrite !list_lookup_fmap, list_lookup_imap.
    destruct (l !! j) as [r|]; simpl; [|reflexivity].
    destruct (j =? i); [now rewrite Hf | reflexivity]. }
  induction rest as [|step rest' IH]; intros i live live' exit tr Hrun.
  - injection Hrun as <- <- <-. now repeat split.
  - simpl in Hrun.
    destruct (skipFirstNavigate && (i =? 0) &&
              StepType_eqb (s_type step) navigate).
    + apply IH in Hrun. simpl in Hrun.
      destruct Hrun as (Hw & Hl & Hc). split; [exact Hw|]. split; [|exact Hc].
      rewrite Hl. now apply Hlabels.
    + destruct (executeStep testCase (testWindow captured) step i
                  (env_obs env i)) as [result effs].
      destruct (negb (success result) &&
                negb (isCrossOriginWarning (message result))).
      * injection Hrun as <- <- <-. simpl.
        split; [reflexivity|]. split; [|discriminate].
        rewrite !Hlabels; reflexivity.
      * destruct (runLoop testCase structuredSteps captured env
                    skipFirstNavigate (S i) rest' _)
          as [[exit0 live0] tr0] eqn:Hrec.
        injection Hrun as <- <- <-.
        apply IH in Hrec. simpl in Hrec.
        destruct Hrec as (Hw & Hl & Hc). split; [exact Hw|]. split; [|exact Hc].
        rewrite Hl, !Hlabels; reflexivity.
Qed.

(** The way the loop stops: at some position [k] whose step failed with
    a message that is not cross-origin-qualified, it sets the error
    message, posts the abort record of that step and clears [isRunning]. *)
Lemma runLoop_abort (rest : list TestStep) :
  forall (i : nat) (live live' : Component) (tr : list Effect),
    runLoop testCase structuredSteps captured env skipFirstNavigate i rest live
      = (Aborted, live', tr) ->
    exists k step pre,
      let result :=
        (executeStep testCase (testWindow captured) step k (env_obs env k)).1 in
      i <= k /\ rest !! (k - i) = Some step /\
      success result = false /\
      isCrossOriginWarning (message result) = false /\
      tr = pre ++ [EPost (abortRecord testCase structuredSteps captured env k
                            result (env_duration env k));
                   ESetIsRunning false] /\
      posts pre = [] /\
      error live' = Some (failureMessage k result) /\
      isRunning live' = false /\
      (forall r0, results live !! k = Some r0 ->
         results live' !! k =
           Some (finishResult result (env_duration env k) (markRunning r0))).
Proof.
  induction rest as [|step rest' IH]; intros i live live' tr Hrun.
  - discriminate Hrun.
  - simpl in Hrun.
    destruct (skipFirstNavigate && (i =? 0) &&
              StepType_eqb (s_type step) navigate).
    + apply IH in Hrun.
      destruct Hrun as (k & stepk & pre & Hk & Hs & H1 & H2 & H3 & H4 & H5 & H6
                        & H7).
      exists k, stepk, pre. simpl.
      split; [lia|]. split.
      { replace (k - i) with (S (k - S i)) by lia. exact Hs. }
      repeat (split; [assumption|]).
      intros r0 Hr0. apply H7. simpl. rewrite lookup_mapAt_ne by lia.
      exact Hr0.
    + pose proof (executeStep_posts testCase (testWindow captured) step i
                    (env_obs env i)) as Hposts.
      destruct (executeStep testCase (testWindow captured) step i
                  (env_obs env i)) as [result effs] eqn:Hexec.
      simpl in Hposts.
      destruct (negb (success result) &&
                negb (isCrossOriginWarning (message result))) eqn:Habort.
      * injection Hrun as <- <-.
        apply andb_true_iff in Habort as [Hs Hc].
        apply negb_true_iff in Hs, Hc.
        exists i, step, (EExecuteStep i :: effs). simpl.
        rewrite Nat.sub_diag, Hexec. simpl.
        split; [lia|]. split; [reflexivity|].
        split; [exact Hs|]. split; [exact Hc|].
        split; [reflexivity|]. split; [exact Hposts|].
        split; [reflexivity|]. split; [reflexivity|].
        intros r0 Hr0. now rewrite !lookup_mapAt_eq, Hr0.
      * destruct (runLoop testCase structuredSteps captured env
                    skipFirstNavigate (S i) rest' _)
          as [[exit0 live0] tr0] eqn:Hrec.
        injection Hrun as -> <- <-.
        apply IH in Hrec.
        destruct Hrec as (k & stepk & pre & Hk & Hs & H1 & H2 & H3 & H4 & H5
                          & H6 & H7).
        exists k, stepk, ((EExecuteStep i :: effs) ++ pre). simpl.
        split; [lia|]. split.
        { replace (k - i) with (S (k - S i)) by lia. exact Hs. }
        split; [exact H1|]. split; [exact H2|]. split.
        { rewrite H3. simpl. now rewrite <- app_assoc. }
        split.
        { change (posts ((EExecuteStep i :: effs) ++ pre) = []).
          rewrite posts_app, H4. simpl. now rewrite Hposts. }
        split; [exact H5|]. split; [exact H6|].
        intros r0 Hr0. apply H7. simpl. rewrite !lookup_mapAt_ne by lia.
        exact Hr0.
Qed.

End LoopOutcomes.

(** ** Live Execution Engine: the run, from the outside *)

(** A run that does not get to the loop leaves the results it has just
    created, calls [executeStep] on no step and posts nothing. *)
Lemma runTest_not_reached (testCase : TestCase) (steps : list TestStep)
    (captured : Component) (env : RunEnv) :
  let out := runTest testCase steps captured env in
  reachesLoop steps env = false ->
  posts (traceOf out) = [] /\
  (forall j, ~ In (EExecuteStep j) (traceOf out)) /\
  (steps <> [] -> results (stateOf out) = pendingResults steps).
Proof.
  simpl. unfold reachesLoop, runTest.
  destruct steps as [|s0 rest] eqn:E.
  { intros _. split; [reflexivity|]. split; [intros j []|]. congruence. }
  rewrite <- E.
  destruct (env_open env) as [w|].
  2:{ intros _. split; [reflexivity|]. split; [|reflexivity].
      simpl. intros j [H|[H|[H|[]]]]; discriminate. }
  destruct (env_write env) as [[]|err].
  2:{ intros _. split; [reflexivity|]. split; [|reflexivity].
      simpl. intros j [H|[H|[]]]; discriminate. }
  unfold afterWrite.
  destruct (firstNavigateStep steps) as [f|]; [|discriminate].
  destruct (env_assign env) as [[]|err]; [discriminate|].
  intros _. split; [reflexivity|]. split; [|reflexivity].
  simpl. intros j [H|[H|[H|[H|[]]]]]; discriminate.
Qed.

(** A run that gets to the loop: the window it opened, the state the
    loop starts from, and how the outcome of the loop becomes the
    outcome of the run. *)
Lemma runTest_reached (testCase : TestCase) (steps : list TestStep)
    (captured : Component) (env : RunEnv) :
  reachesLoop steps env = true ->
  exists w live exit live' tr pre,
    env_open env = Some w /\
    results live = pendingResults steps /\
    testWindow live = Some w /\
    isRunning live = true /\
    runLoop testCase steps captured env (skipsFirst steps env) 0 steps live
      = (exit, live', tr) /\
    posts pre = [] /\
    (forall j, ~ In (EExecuteStep j) pre) /\
    runTest testCase steps captured env =
      (match exit with
       | Completed => setCurrentStep (-1) (setIsRunning false live')
       | Aborted => live'
       end,
       pre ++ tr ++
       match exit with
       | Completed =>
           [EPost (completionRecord testCase steps captured env);
            ESetIsRunning false]
       | Aborted => []
       end,
       Return tt).
Proof.
  unfold reachesLoop, skipsFirst, runTest.
  destruct steps as [|s0 rest] eqn:E; [discriminate|]. rewrite <- E.
  destruct (env_open env) as [w|]; [|discriminate].
  destruct (env_write env) as [[]|err]; [|discriminate].
  unfold afterWrite, mainLoop. simpl.
  destruct (firstNavigateStep steps) as [f|].
  - destruct (env_assign env) as [[]|err]; [|discriminate]. intros _.
    match goal with
    | |- context [runLoop ?a ?b ?c ?d ?e ?f ?g ?h] =>
        destruct (runLoop a b c d e f g h) as [[exit live'] tr] eqn:Hrun;
        exists w, h, exit, live', tr
    end.
    exists [ESetIsRunning true; EOpenWindow (Some w);
            EInitialNavigation w (resolveUrl testCase (get (s_url f)))].
    split; [reflexivity|]. split; [now destruct (env_href env)|].
    split; [now destruct (env_href env)|].
    split; [now destruct (env_href env)|].
    split; [exact Hrun|]. split; [reflexivity|]. split.
    + simpl. intros j [H|[H|[H|[]]]]; discriminate.
    + destruct exit; [reflexivity|]. now rewrite app_nil_r.
  - intros _.
    match goal with
    | |- context [runLoop ?a ?b ?c ?d ?e ?f ?g ?h] =>
        destruct (runLoop a b c d e f g h) as [[exit live'] tr] eqn:Hrun;
        exists w, h, exit, live', tr
    end.
    exists [ESetIsRunning true; EOpenWindow (Some w)].
    split; [reflexivity|]. split; [reflexivity|].
    split; [reflexivity|]. split; [reflexivity|]. split; [exact Hrun|].
    split; [reflexivity|]. split.
    + simpl. intros j [H|[H|[]]]; discriminate.
    + destruct exit; [reflexivity|]. now rewrite app_nil_r.
Qed.

Lemma lookup_pendingResults_step (steps : list TestStep) (j : nat) :
  pendingResults steps !! j = pendingResult <$> (steps !! j).
Proof. unfold pendingResults. apply list_lookup_fmap. Qed.

(** In a run, a result that is not pending is the outcome of its step
    over the pending result the run created for it. *)
Lemma runTest_outcome_at (testCase : TestCase) (steps : list TestStep)
    (captured : Component) (env : RunEnv) (j : nat) (step : TestStep)
    (r : TestResult) :
  let out := runTest testCase steps captured env in
  steps !! j = Some step ->
  results (stateOf out) !! j = Some r ->
  r_status r <> pending ->
  reachesLoop steps env = true /\
  r = stepOutcome testCase captured env (skipsFirst steps env) j step
        (pendingResult step).
Proof.
  simpl. intros Hstep Hr Hnp.
  assert (Hne : steps <> []) by (intros ->; discriminate Hstep).
  destruct (reachesLoop steps env) eqn:Hreach.
  2:{ destruct (runTest_not_reached testCase steps captured env Hreach)
        as (_ & _ & Hres).
      rewrite (Hres Hne) in Hr. now apply lookup_pendingResults in Hr. }
  split; [reflexivity|].
  destruct (runTest_reached testCase steps captured env Hreach)
    as (w & live & exit & live' & tr & pre & _ & Hlive & _ & _ & Hrun & _ & _
        & Hout).
  rewrite Hout in Hr.
  assert (Hr' : results live' !! j = Some r) by (now destruct exit).
  refine (runLoop_outcome_at testCase steps captured env _ steps 0 live live'
            exit tr Hrun j step r (pendingResult step) ltac:(lia) _ _ _ Hr' Hnp).
  - now rewrite Nat.sub_0_r.
  - now rewrite Hlive, lookup_pendingResults_step, Hstep.
  - reflexivity.
Qed.

(** X1.  A run posts exactly one record when it gets as far as the loop:
    the sequence is not empty, the window opened, the placeholder was
    written and the up-front navigation, if any, did not throw.
    Otherwise, for instance when the popup is blocked, it posts nothing,
    calls [executeStep] on no step and leaves every result pending. *)
Theorem run_posts_once_iff_loop_reached (testCase : TestCase)
    (steps : list TestStep) (captured : Component) (env : RunEnv) :
  let out := runTest testCase steps captured env in
  (reachesLoop steps env = true -> exists rec, posts (traceOf out) = [rec]) /\
  (reachesLoop steps env = false ->
     posts (traceOf out) = [] /\
     (forall j, ~ In (EExecuteStep j) (traceOf out)) /\
     (steps <> [] -> results (stateOf out) = pendingResults steps)).
Proof.
  simpl. split; [|apply runTest_not_reached].
  intros Hreach.
  destruct (runTest_reached testCase steps captured env Hreach)
    as (w & live & exit & live' & tr & pre & _ & _ & _ & _ & Hrun & Hpre & _
        & Hout).
  rewrite Hout. unfold traceOf. simpl. rewrite !posts_app, Hpre.
  apply runLoop_spec in Hrun. destruct Hrun as (_ & _ & Hexit).
  destruct exit.
  - destruct Hexit as (_ & _ & Hposts). rewrite Hposts. now eexists.
  - destruct Hexit as (k & _ & _ & _ & _ & Habort).
    apply abortTrace_posts in Habort as (rec & Hrec & _).
    exists rec. simpl. now rewrite Hrec.
Qed.

Lemma run_posts_once_iff_loop_reached_witness :
  (exists rec,
     posts (traceOf (runTest sampleCase checkout initialState
                       (browser sameOrigin))) = [rec]) /\
  posts (traceOf (runTest sampleCase checkout initialState
                    (mkEnv None (Return tt) (Return tt) (Return tt)
                       (fun _ => sameOrigin) (fun _ => 5%Z) "t0" "t1" 0%Z)))
    = [].
Proof.
  split.
  - exact (proj1 (run_posts_once_iff_loop_reached sampleCase checkout
                    initialState (browser sameOrigin)) eq_refl).
  - exact (proj1 (proj2 (run_posts_once_iff_loop_reached sampleCase checkout
                           initialState
                           (mkEnv None (Return tt) (Return tt) (Return tt)
                              (fun _ => sameOrigin) (fun _ => 5%Z) "t0" "t1"
                              0%Z)) eq_refl)).
Defined.

Lemma length_countStatus (st : Status) (rs : list TestResult) :
  countStatus st rs <= length rs.
Proof.
  unfold countStatus. induction rs as [|r rs IH]; simpl; [lia|].
  destruct (Status_eqb (r_status r) st); simpl; lia.
Qed.

(** X2.  Every record a run posts carries the test case id and the
    number of steps of the sequence, but its step results are computed
    from the results the closure captured: they are as many as those, the
    passed and failed counts are the counts of these same step results,
    and on a run whose closure captured no results (the first run of a
    mounted component) the record has no step results and both counts are
    zero, whatever happened to the steps. *)
Theorem posted_record_reflects_captured_results (testCase : TestCase)
    (steps : list TestStep) (captured : Component) (env : RunEnv)
    (rec : ExecutionRecord) :
  In rec (posts (traceOf (runTest testCase steps captured env))) ->
  e_testCaseId rec = tc_id testCase /\
  e_totalSteps rec = length steps /\
  length (e_stepResults rec) = length (results captured) /\
  e_passedSteps rec = countStatus passed (e_stepResults rec) /\
  e_failedSteps rec = countStatus failed (e_stepResults rec) /\
  (results captured = [] ->
     e_stepResults rec = [] /\ e_passedSteps rec = 0 /\ e_failedSteps rec = 0).
Proof.
  intros Hin.
  assert (Hcases :
            rec = completionRecord testCase steps captured env \/
            exists k result d,
              rec = abortRecord testCase steps captured env k result d).
  { destruct (reachesLoop steps env) eqn:Hreach.
    2:{ destruct (runTest_not_reached testCase steps captured env Hreach)
          as (Hposts & _). rewrite Hposts in Hin. destruct Hin. }
    destruct (runTest_reached testCase steps captured env Hreach)
      as (w & live & exit & live' & tr & pre & _ & _ & _ & _ & Hrun & Hpre & _
          & Hout).
    rewrite Hout in Hin. unfold traceOf in Hin. simpl in Hin.
    rewrite !posts_app, Hpre in Hin. simpl in Hin.
    destruct exit.
    - apply runLoop_spec in Hrun. destruct Hrun as (_ & _ & _ & _ & Hposts).
      rewrite Hposts in Hin. simpl in Hin. destruct Hin as [<-|[]]. now left.
    - apply runLoop_abort in Hrun.
      destruct Hrun as (k & step & pre' & _ & _ & _ & _ & Htr & Hpre' & _).
      rewrite Htr, posts_app, Hpre', app_nil_r in Hin. simpl in Hin.
      destruct Hin as [<-|[]]. right. now eexists _, _, _. }
  destruct Hcases as [->|(k & result & d & ->)]; simpl.
  - do 5 (split; [reflexivity|]). intros ->. now repeat split.
  - rewrite length_mapAt. do 5 (split; [reflexivity|]).
    intros ->. now repeat split.
Qed.

Lemma posted_record_reflects_captured_results_witness :
  let rec :=
    abortRecord sampleCase checkout initialState (browser sameOrigin) 1
      (ko "Test window is not available") 5 in
  e_status rec = failed /\ e_totalSteps rec = 4 /\
  e_stepResults rec = [] /\ e_passedSteps rec = 0 /\ e_failedSteps rec = 0.
Proof.
  pose proof (posted_record_reflects_captured_results sampleCase checkout
                initialState (browser sameOrigin)
                (abortRecord sampleCase checkout initialState
                   (browser sameOrigin) 1 (ko "Test window is not available") 5)
                (or_introl eq_refl)) as (_ & Ht & _ & _ & _ & Hfirst).
  destruct (Hfirst eq_refl) as (Hr & Hp & Hf).
  split; [reflexivity|]. split; [exact Ht|]. now repeat split.
Defined.

(** X3.  In a run over a non-empty sequence the results keep one entry
    per step, labelled with the step's description (or its type when the
    description is empty) in the order of the sequence, and no step is
    left running when the run ends: each is pending, passed or failed. *)
Theorem run_keeps_labels_and_leaves_none_running (testCase : TestCase)
    (steps : list TestStep) (captured : Component) (env : RunEnv) :
  let out := runTest testCase steps captured env in
  steps <> [] ->
  map r_step (results (stateOf out)) = map stepLabel steps /\
  (forall j r, results (stateOf out) !! j = Some r -> r_status r <> running).
Proof.
  simpl. intros Hne.
  assert (Hlabels : map r_step (results
            (stateOf (runTest testCase steps captured env)))
            = map stepLabel steps).
  { assert (Hp : map r_step (pendingResults steps) = map stepLabel steps).
    { unfold pendingResults. rewrite map_map. reflexivity. }
    destruct (reachesLoop steps env) eqn:Hreach.
    - destruct (runTest_reached testCase steps captured env Hreach)
        as (w & live & exit & live' & tr & pre & _ & Hlive & _ & _ & Hrun & _
            & _ & Hout).
      apply runLoop_frame in Hrun. destruct Hrun as (_ & Hl & _).
      rewrite Hout, <- Hp, <- Hlive, <- Hl. now destruct exit.
    - destruct (runTest_not_reached testCase steps captured env Hreach)
        as (_ & _ & Hres). now rewrite (Hres Hne). }
  split; [exact Hlabels|].
  intros j r Hr Hrun.
  assert (Hj : j < length steps).
  { apply lookup_lt_Some in Hr.
    apply (f_equal length) in Hlabels. rewrite !length_map in Hlabels. lia. }
  destruct (runTest_position testCase steps captured env j r Hj Hr)
    as (_ & [(Hall & _)|(k & Hk & Hin & Hat & Habove & _)]).
  - congruence.
  - destruct (Hall j r Hj Hr) as [H|[H _]]; congruence.
  - destruct (Nat.lt_trichotomy j k) as [Hlt|[->|Hgt]].
    + destruct (Hin j r Hlt Hr) as [H|[H _]]; congruence.
    + destruct (Hat r Hr) as [H _]. congruence.
    + rewrite (Habove j r Hgt Hr) in Hrun. discriminate.
Qed.

Lemma run_keeps_labels_and_leaves_none_running_witness :
  map r_step
    (results (stateOf (secondRun checkout (browser sameOrigin)
                         (browser crossOrigin)))) =
    ["Navigate to URL"; "Click element"; "Custom code"; "Click element"].
Proof.
  refine (proj1 (run_keeps_labels_and_leaves_none_running sampleCase checkout
                   (stateOf (runTest sampleCase checkout initialState
                               (browser sameOrigin)))
                   (browser crossOrigin) _)).
  discriminate.
Defined.

(** X4.  A run over a non-empty sequence throws only when writing the
    placeholder into the opened window throws, and then it leaves
    [isRunning] true with every result pending and nothing posted; a run
    that returns has cleared [isRunning]. *)
Theorem run_clears_isRunning_unless_write_throws (testCase : TestCase)
    (steps : list TestStep) (captured : Component) (env : RunEnv) :
  let out := runTest testCase steps captured env in
  steps <> [] ->
  (forall e, out.2 = Throw e <->
             (exists w, env_open env = Some w) /\ env_write env = Throw e) /\
  isRunning (stateOf out) = negb (returned out.2) /\
  (returned out.2 = false ->
     results (stateOf out) = pendingResults steps /\
     posts (traceOf out) = []).
Proof.
  simpl. intros Hne.
  destruct (reachesLoop steps env) eqn:Hreach.
  - destruct (runTest_reached testCase steps captured env Hreach)
      as (w & live & exit & live' & tr & pre & Hopen & _ & _ & _ & Hrun & _ & _
          & Hout).
    rewrite Hout. simpl.
    assert (Hwrite : returned (env_write env) = true).
    { unfold reachesLoop in Hreach. destruct steps; [discriminate|].
      rewrite Hopen in Hreach. now apply andb_true_iff in Hreach as [H _]. }
    split; [|split; [|discriminate]].
    + intros e. split; [discriminate|]. intros [_ H]. rewrite H in Hwrite.
      discriminate.
    + destruct exit; [reflexivity|].
      apply runLoop_abort in Hrun.
      now destruct Hrun as (k & step & pre' & _ & _ & _ & _ & _ & _ & _ & H & _).
  - pose proof (runTest_not_reached testCase steps captured env Hreach)
      as (Hposts & _ & Hres).
    specialize (Hres Hne).
    split; [|split; [|now split]].
    + unfold reachesLoop in Hreach. unfold runTest.
      destruct steps as [|s0 rest] eqn:E; [contradiction|]. rewrite <- E in *.
      destruct (env_open env) as [w|].
      2:{ intros e. simpl. split; [discriminate|]. now intros [[w Hw] _]. }
      destruct (env_write env) as [[]|err].
      2:{ intros e. simpl. split.
          - intros [= ->]. split; [now exists w | reflexivity].
          - now intros [_ [= ->]]. }
      unfold afterWrite.
      destruct (firstNavigateStep steps); [|discriminate].
      destruct (env_assign env) as [[]|err]; [discriminate|].
      intros e. simpl. split; [discriminate|]. intros [_ H]. discriminate.
    + unfold reachesLoop in Hreach. unfold runTest.
      destruct steps as [|s0 rest] eqn:E; [contradiction|]. rewrite <- E in *.
      destruct (env_open env) as [w|]; [|reflexivity].
      destruct (env_write env) as [[]|err]; [|reflexivity].
      unfold afterWrite.
      destruct (firstNavigateStep steps); [|discriminate].
      now destruct (env_assign env) as [[]|err].
Qed.

Lemma run_clears_isRunning_unless_write_throws_witness :
  let env :=
    mkEnv (Some 7) (Throw (DOMException "Blocked a frame from accessing a cross-origin frame."))
      (Return tt) (Return tt) (fun _ => crossOrigin) (fun _ => 5%Z) "t0" "t1"
      0%Z in
  let out := runTest sampleCase checkout initialState env in
  isRunning (stateOf out) = true /\
  results (stateOf out) = pendingResults checkout /\
  posts (traceOf out) = [].
Proof.
  simpl.
  pose proof (run_clears_isRunning_unless_write_throws sampleCase checkout
                initialState
                (mkEnv (Some 7) (Throw (DOMException "Blocked a frame from accessing a cross-origin frame."))
                   (Return tt) (Return tt) (fun _ => crossOrigin)
                   (fun _ => 5%Z) "t0" "t1" 0%Z)
                ltac:(discriminate)) as (_ & Hrunning & Hrest).
  split; [exact Hrunning|]. exact (Hrest eq_refl).
Defined.

(** ** Live Execution Engine: windows the closure cannot look into *)

(** Against an open window on another origin a runnable step is never a
    reason to stop: navigate, wait, waitForPageLoad and assert steps
    succeed, click, fill and verifyElement steps fail with a
    cross-origin-qualified message. *)
Lemma executeStep_cross_origin (testCase : TestCase) (w : Win)
    (step : TestStep) (i : nat) (obs : WindowObs) :
  let result := (executeStep testCase (Some w) step i obs).1 in
  openCrossOrigin obs -> runnable step = true ->
  (success result = true <->
     s_type step = navigate \/ s_type step = wait \/
     s_type step = waitForPageLoad \/ s_type step = assert) /\
  (success result = false -> isCrossOriginWarning (message result) = true).
Proof.
  simpl. intros [Hclosed Hhref]. unfold runnable, executeStep, windowGuard.
  assert (Hguard : (if match o_closed obs with
                        | Return b => b
                        | Throw _ => false
                        end
                    then Some (ko "Test window was closed") else None)
                   = @None StepResult).
  { destruct (o_closed obs) as [[]|]; [congruence|reflexivity|reflexivity]. }
  unfold stepSwitch, canAccessWindow. rewrite Hhref.
  destruct (s_type step) eqn:Ht; intros Hrun; try discriminate;
    try rewrite Hguard; try rewrite Hrun; simpl.
  - destruct (o_assign obs); [destruct (o_hrefAfter obs)|]; simpl;
      (split; [split; [auto | reflexivity] | discriminate]).
  - split; [|intros _; reflexivity].
    split; [discriminate|]. intros [H|[H|[H|H]]]; discriminate.
  - split; [|intros _; reflexivity].
    split; [discriminate|]. intros [H|[H|[H|H]]]; discriminate.
  - split; [split; [auto | reflexivity] | discriminate].
  - split; [split; [auto | reflexivity] | discriminate].
  - split; [|intros _; reflexivity].
    split; [discriminate|]. intros [H|[H|[H|H]]]; discriminate.
  - split; [split; [auto | reflexivity] | discriminate].
Qed.

(** X5.  When the closure holds a window that stays open and on another
    origin, a run over runnable steps that gets to the loop is never
    stopped: every navigate, wait, waitForPageLoad and assert step ends
    passed, every click, fill and verifyElement step ends failed with a
    cross-origin-qualified message, and the one record posted is the
    completion record. *)
Theorem cross_origin_run_completes (testCase : TestCase)
    (steps : list TestStep) (captured : Component) (env : RunEnv) (w : Win) :
  let out := runTest testCase steps captured env in
  testWindow captured = Some w ->
  (forall i, openCrossOrigin (env_obs env i)) ->
  Forall (fun step => runnable step = true) steps ->
  reachesLoop steps env = true ->
  (forall j step, steps !! j = Some step ->
     exists r, results (stateOf out) !! j = Some r /\ settled r /\
       (r_status r = passed <->
          s_type step = navigate \/ s_type step = wait \/
          s_type step = waitForPageLoad \/ s_type step = assert)) /\
  posts (traceOf out) = [completionRecord testCase steps captured env].
Proof.
  simpl. intros Hwin Hobs Hrunnable Hreach.
  rewrite Forall_lookup in Hrunnable.
  assert (Houtcome : forall j step r0,
            steps !! j = Some step ->
            let r := stepOutcome testCase captured env (skipsFirst steps env)
                       j step r0 in
            settled r /\
            (r_status r = passed <->
               s_type step = navigate \/ s_type step = wait \/
               s_type step = waitForPageLoad \/ s_type step = assert)).
  { intros j step r0 Hstep. simpl. unfold stepOutcome.
    destruct (skipsFirst steps env && (j =? 0) &&
              StepType_eqb (s_type step) navigate) eqn:Hskip.
    - apply andb_true_iff in Hskip as [_ Ht].
      assert (s_type step = navigate) by (now destruct (s_type step)).
      split; [now left|]. simpl. split; auto.
    - rewrite Hwin.
      destruct (executeStep_cross_origin testCase w step j (env_obs env j)
                  (Hobs j) (Hrunnable j step Hstep)) as [Hs Hc].
      unfold settled. simpl.
      destruct (success (executeStep testCase (Some w) step j
                           (env_obs env j)).1) eqn:Hsucc.
      + split; [now left|]. split; [intros _; now apply Hs | reflexivity].
      + split.
        * right. split; [reflexivity|]. eexists. split; [reflexivity|].
          now apply Hc.
        * split; [discriminate|]. intros H. apply Hs in H. discriminate. }
  destruct (runTest_reached testCase steps captured env Hreach)
    as (w' & live & exit & live' & tr & pre & _ & Hlive & _ & _ & Hrun & Hpre
        & _ & Hout).
  pose proof (runLoop_spec testCase steps captured env _ steps 0 live live'
                exit tr Hrun) as (Hlen & _ & Hexit).
  rewrite Hlive, length_pendingResults in Hlen.
  assert (Hat : forall j step r,
            steps !! j = Some step -> results live' !! j = Some r ->
            r_status r <> pending ->
            r = stepOutcome testCase captured env (skipsFirst steps env) j step
                  (pendingResult step)).
  { intros j step r Hstep Hr Hnp.
    refine (runLoop_outcome_at testCase steps captured env _ steps 0 live live'
              exit tr Hrun j step r (pendingResult step) ltac:(lia) _ _ _ Hr
              Hnp).
    - now rewrite Nat.sub_0_r.
    - now rewrite Hlive, lookup_pendingResults_step, Hstep.
    - reflexivity. }
  destruct exit.
  - destruct Hexit as (Hin & _ & Hposts). rewrite Hout. split.
    + intros j step Hstep.
      destruct (lookup_lt_is_Some_2 (results live') j) as [r Hr].
      { apply lookup_lt_Some in Hstep. lia. }
      exists r. split; [exact Hr|].
      assert (Hs : settled r).
      { apply (Hin j r); [|exact Hr]. apply lookup_lt_Some in Hstep. lia. }
      assert (Hnp : r_status r <> pending).
      { destruct Hs as [H|[H _]]; congruence. }
      rewrite (Hat j step r Hstep Hr Hnp).
      apply (Houtcome j step (pendingResult step) Hstep).
    + unfold traceOf. simpl. rewrite !posts_app, Hpre, Hposts. reflexivity.
  - destruct Hexit as (k & Hk & _ & Hfatal & _).
    destruct (lookup_lt_is_Some_2 steps k) as [step Hstep]; [lia|].
    destruct (lookup_lt_is_Some_2 (results live') k) as [r Hr]; [lia|].
    pose proof (Hfatal r Hr) as Hf.
    assert (Hnp : r_status r <> pending) by (destruct Hf; congruence).
    rewrite (Hat k step r Hstep Hr Hnp) in Hf.
    destruct (settled_not_fatal _
                (proj1 (Houtcome k step (pendingResult step) Hstep)) Hf).
Qed.

Lemma cross_origin_run_completes_witness :
  let steps :=
    [stepNavigate "https://shop.test/cart"; stepClick "#buy";
     stepAssert "cart.total > 0"] in
  let out := secondRun steps (browser sameOrigin) (browser crossOrigin) in
  map r_status (results (stateOf out)) = [passed; failed; passed] /\
  length (posts (traceOf out)) = 1.
Proof.
  split; [reflexivity|].
  refine (f_equal length
            (proj2 (cross_origin_run_completes sampleCase
                      [stepNavigate "https://shop.test/cart"; stepClick "#buy";
                       stepAssert "cart.total > 0"]
                      (stateOf (runTest sampleCase
                                  [stepNavigate "https://shop.test/cart";
                                   stepClick "#buy"; stepAssert "cart.total > 0"]
                                  initialState (browser sameOrigin)))
                      (browser crossOrigin) 7 eq_refl _ _ eq_refl))).
  - intros i. split; [discriminate | reflexivity].
  - repeat constructor.
Defined.

(** ** Live Execution Engine: a closure that holds no window *)

(** X6.  When the closure holds no window, as on the first run of a
    mounted component, whose state is still [null] when the closure is
    created, the only steps a run can pass are wait and waitForPageLoad
    steps and a navigate step skipped at position 0; every other step
    the loop gets to fails with "Test window is not available". *)
Theorem run_without_window (testCase : TestCase) (steps : list TestStep)
    (captured : Component) (env : RunEnv) (j : nat) (step : TestStep)
    (r : TestResult) :
  let out := runTest testCase steps captured env in
  testWindow captured = None ->
  steps !! j = Some step ->
  results (stateOf out) !! j = Some r ->
  r_status r <> pending ->
  s_type step = wait \/ s_type step = waitForPageLoad \/
  (j = 0 /\ s_type step = navigate /\ r_status r = passed) \/
  (r_status r = failed /\ r_message r = Some "Test window is not available").
Proof.
  simpl. intros Hwin Hstep Hr Hnp.
  destruct (runTest_outcome_at testCase steps captured env j step r Hstep Hr Hnp)
    as [_ ->].
  unfold stepOutcome.
  destruct (skipsFirst steps env && (j =? 0) &&
            StepType_eqb (s_type step) navigate) eqn:Hskip.
  - apply andb_true_iff in Hskip as [Hskip Ht].
    apply andb_true_iff in Hskip as [_ Hj]. apply Nat.eqb_eq in Hj.
    right. right. left. split; [exact Hj|]. split; [|reflexivity].
    now destruct (s_type step).
  - rewrite Hwin. unfold executeStep, windowGuard.
    destruct (s_type step); auto; right; right; right; now split.
Qed.

Lemma run_without_window_witness :
  let out := runTest sampleCase checkout initialState (browser sameOrigin) in
  exists r, results (stateOf out) !! 1 = Some r /\
            r_status r = failed /\
            r_message r = Some "Test window is not available".
Proof.
  simpl. eexists. split; [reflexivity|].
  destruct (run_without_window sampleCase checkout initialState
              (browser sameOrigin) 1 (stepClick "#buy")
              (mkResult "Click element" failed
                 (Some "Test window is not available") (Some 5%Z))
              eq_refl eq_refl eq_refl ltac:(discriminate))
    as [H|[H|[[H _]|H]]]; try discriminate.
  exact H.
Defined.

(** ** Live Execution Engine: the message of a stopped run *)

(** X7.  When the step at position [i] stops the run with message [m],
    the error shown is "Test failed at step", the 1-based position and
    [m], and the record posted carries that same text as its error
    message. *)
Theorem abort_reports_step_number (testCase : TestCase)
    (steps : list TestStep) (captured : Component) (env : RunEnv) (i : nat)
    (r : TestResult) (m : string) :
  let out := runTest testCase steps captured env in
  let text := "Test failed at step " +:+ pretty (i + 1) +:+ ": " +:+ m in
  i < length steps ->
  results (stateOf out) !! i = Some r ->
  r_status r = failed -> r_message r = Some m ->
  isCrossOriginWarning m = false ->
  error (stateOf out) = Some text /\
  exists rec, posts (traceOf out) = [rec] /\ e_errorMessage rec = Some text.
Proof.
  simpl. intros Hi Hr Hf Hm Hc.
  assert (Hfatal : fatal r) by (split; [exact Hf | now exists m]).
  assert (Hreach : reachesLoop steps env = true).
  { destruct (lookup_lt_is_Some_2 steps i Hi) as [step Hstep].
    refine (proj1 (runTest_outcome_at testCase steps captured env i step r
                     Hstep Hr _)). congruence. }
  destruct (runTest_reached testCase steps captured env Hreach)
    as (w & live & exit & live' & tr & pre & _ & Hlive & _ & _ & Hrun & Hpre
        & _ & Hout).
  pose proof (runLoop_spec testCase steps captured env _ steps 0 live live'
                exit tr Hrun) as (Hlen & _ & Hexit).
  rewrite Hlive, length_pendingResults in Hlen.
  rewrite Hout in Hr |- *.
  destruct exit.
  { destruct Hexit as (Hin & _).
    destruct (settled_not_fatal r (Hin i r ltac:(lia) Hr) Hfatal). }
  destruct Hexit as (k' & Hk' & Hin & Hat & Habove & _).
  change (results live' !! i = Some r) in Hr.
  assert (k' = i) as ->.
  { destruct (Nat.lt_trichotomy i k') as [Hlt|[->|Hgt]]; [|reflexivity|].
    - destruct (settled_not_fatal r (Hin i r ltac:(lia) Hr) Hfatal).
    - rewrite (Habove i Hgt), Hlive in Hr.
      apply lookup_pendingResults in Hr. congruence. }
  apply runLoop_abort in Hrun.
  destruct Hrun as (k & step & pre' & Hk & Hstep & Hs & Hcw & Htr & Hpre' & Herr
                    & _ & Hres).
  rewrite Nat.sub_0_r in Hstep.
  destruct (lookup_lt_is_Some_2 (results live) k) as [r0 Hr0].
  { rewrite Hlive, length_pendingResults. now apply lookup_lt_Some in Hstep. }
  specialize (Hres r0 Hr0).
  assert (k = i) as ->.
  { destruct (Nat.lt_trichotomy k i) as [Hlt|[->|Hgt]]; [|reflexivity|].
    - assert (Hfk : fatal (finishResult
                (executeStep testCase (testWindow captured) step k
                   (env_obs env k)).1 (env_duration env k) (markRunning r0))).
      { split; [simpl; now rewrite Hs|]. eexists. split; [reflexivity|].
        exact Hcw. }
      destruct (settled_not_fatal _ (Hin k _ ltac:(lia) Hres) Hfk).
    - rewrite (Habove k Hgt), Hr0 in Hres. injection Hres as Hres.
      rewrite Hlive in Hr0. apply lookup_pendingResults in Hr0.
      rewrite Hres in Hr0. simpl in Hr0. rewrite Hs in Hr0. discriminate. }
  rewrite Hr in Hres. injection Hres as ->. simpl in Hm. injection Hm as <-.
  simpl. split; [exact Herr|].
  eexists. unfold traceOf. simpl.
  rewrite Htr, !posts_app, Hpre, Hpre'. simpl. split; reflexivity.
Qed.

Lemma abort_reports_step_number_witness :
  let out := runTest sampleCase checkout initialState (browser sameOrigin) in
  error (stateOf out)
    = Some "Test failed at step 2: Test window is not available" /\
  exists rec, posts (traceOf out) = [rec] /\
    e_errorMessage rec
      = Some "Test failed at step 2: Test window is not available".
Proof.
  exact (abort_reports_step_number sampleCase checkout initialState
           (browser sameOrigin) 1
           (mkResult "Click element" failed
              (Some "Test window is not available") (Some 5%Z))
           "Test window is not available"
           ltac:(simpl; lia) eq_refl eq_refl eq_refl eq_refl).
Defined.


(** ** Code Emitter: local bindings, fallbacks and API calls *)

Lemma append_assoc (a b c : string) : (a +:+ b) +:+ c = a +:+ (b +:+ c).
Proof. induction a as [|x a IH]; simpl; [reflexivity | now rewrite IH]. Qed.

Lemma append_cancel_l (p a b : string) : p +:+ a = p +:+ b -> a = b.
Proof.
  induction p as [|c p IH]; simpl; intros H; [exact H|].
  injection H as H. now apply IH.
Qed.

(** X8.  With a step index, the selenium code of a verifyElement step
    binds the element to "element" followed by the index in decimal and
    asserts on that binding, so steps at different positions of one
    sequence never declare the same name, whatever their ids. *)
Theorem verify_bindings_distinct (s1 s2 : TestStep) (i j : nat)
    (baseUrl : option string) (r1 r2 : string) :
  (forall selector,
     s_type s1 = verifyElement -> s_selector s1 = Some selector ->
     nonEmpty selector = true ->
     seleniumCode s1 (elementVarName s1 (Some i) r1) baseUrl =
       Some (indent +:+ "const element" +:+ pretty i +:+
             " = await driver.findElement(" +:+ byMethod selector +:+ ")" +:+
             String "010" indent +:+ "expect(await element" +:+ pretty i +:+
             ".isDisplayed()).to.be.true")) /\
  (i <> j ->
     elementVarName s1 (Some i) r1 <> elementVarName s2 (Some j) r2).
Proof.
  split.
  - intros selector Ht Hs Hn. unfold seleniumCode, truthy, get, elementVarName.
    rewrite Ht, Hs. simpl. rewrite Hn. simpl. reflexivity.
  - intros Hne H. unfold elementVarName in H.
    apply append_cancel_l in H. now apply (inj pretty) in H.
Qed.

Lemma verify_bindings_distinct_witness :
  elementVarName (stepVerify "#a") (Some 0) "r"
    <> elementVarName (stepVerify "#a") (Some 1) "r" /\
  seleniumCode (stepVerify "#a") (elementVarName (stepVerify "#a") (Some 3) "r")
    None =
    Some ("      const element3 = await driver.findElement(By.id('a'))" +:+
          String "010"
            "      expect(await element3.isDisplayed()).to.be.true").
Proof.
  split.
  - apply (proj2 (verify_bindings_distinct (stepVerify "#a") (stepVerify "#a")
                    0 1 None "r" "r")). discriminate.
  - exact (proj1 (verify_bindings_distinct (stepVerify "#a") (stepVerify "#a")
                    3 1 None "r" "r") "#a" eq_refl eq_refl eq_refl).
Defined.

Section EmitterFallbacks.

Context {JsNumber : Type}.
Variable numberIsZero : JsNumber -> bool.
Variable JSON_parse : string -> Completion (Json JsNumber).
Variable JSON_stringify : Json JsNumber -> string.

(** X9.  For a step that is not an API call, [generateStepCode] falls
    back to a comment line holding the step's description, and does not
    throw, whenever the framework is not selenium, playwright or cypress,
    or the step lacks a field its type needs (the URL of a navigate step,
    the selector of a click, fill, wait or verifyElement step, the value
    of a fill step, the text of an assert or custom step). *)
Theorem missing_field_or_framework_gives_comment (step : TestStep)
    (framework : string) (language : option string) (stepIndex : option nat)
    (baseUrl : option string) (rand : string) :
  s_type step <> api_call ->
  hasStepCases framework = false \/ emittable step = false ->
  generateStepCode numberIsZero JSON_parse JSON_stringify step framework
    language stepIndex baseUrl rand =
    Return (indent +:+ "// " +:+ s_description step).
Proof.
  intros Ht H. unfold generateStepCode, hasStepCases, emittable in *.
  destruct H as [H|H].
  - apply orb_false_iff in H as [H H3]. apply orb_false_iff in H as [H1 H2].
    rewrite H1, H2, H3. now destruct (s_type step).
  - assert (Hs : seleniumCode step (elementVarName step stepIndex rand) baseUrl
                 = None).
    { unfold seleniumCode. destruct (s_type step); try discriminate;
        try contradiction; now rewrite H. }
    assert (Hp : playwrightCode step baseUrl = None).
    { unfold playwrightCode. destruct (s_type step); try discriminate;
        try contradiction; now rewrite H. }
    assert (Hc : cypressCode step baseUrl = None).
    { unfold cypressCode. destruct (s_type step); try discriminate;
        try contradiction; now rewrite H. }
    rewrite Hs, Hp, Hc.
    destruct (s_type step); try contradiction;
      destruct (String.eqb framework "selenium");
      try destruct (String.eqb (default "typescript" language) "typescript");
      try destruct (String.eqb framework "playwright");
      try destruct (String.eqb framework "cypress"); reflexivity.
Qed.

(** X10.  An API call step whose headers and body are absent or
    accepted by [JSON.parse] is emitted as the one-line comment
    "// API Call: METHOD URL" (method GET and an empty URL by default)
    for every framework but jest.  For jest, headers that parse to
    [null] make [Object.keys] throw a TypeError; headers that are an
    empty object together with a falsy body give the bare [fetch] call
    followed by the check of the status, 200 by default. *)
Theorem api_call_outcomes (step : TestStep) (framework : string)
    (language : option string) (stepIndex : option nat)
    (baseUrl : option string) (rand : string) (headers body : Json JsNumber) :
  let method := orElse (s_method step) "GET" in
  let url := orElse (s_url step) EmptyString in
  let run :=
    generateStepCode numberIsZero JSON_parse JSON_stringify step framework
      language stepIndex baseUrl rand in
  s_type step = api_call ->
  parsesTo JSON_parse (s_headers step) (JObject []) headers ->
  parsesTo JSON_parse (s_body step) JNull body ->
  (String.eqb framework "jest" = false ->
     run = Return ("// API Call: " +:+ method +:+ " " +:+ url)) /\
  (String.eqb framework "jest" = true -> headers = JNull ->
     run = Throw (TypeError "Cannot convert undefined or null to object")) /\
  (String.eqb framework "jest" = true -> headers = JObject [] ->
   jsonTruthy numberIsZero body = false ->
     run = Return
       ("    const response = await fetch('" +:+ url +:+ "', {" +:+
        String "010" "      method: '" +:+ method +:+ "'," +:+
        String "010" "    })" +:+
        String "010" "    expect(response.status).toBe(" +:+
        orElse (s_expectedStatus step) "200" +:+ ")")).
Proof.
  simpl. intros Ht Hh Hb.
  assert (Hph : parseHeaders JSON_parse step = Return headers).
  { unfold parseHeaders. destruct Hh as [[-> ->]|[-> ->]]; reflexivity. }
  assert (Hpb : parseBody JSON_parse step = Return body).
  { unfold parseBody. destruct Hb as [[-> ->]|[-> ->]]; reflexivity. }
  unfold generateStepCode, apiCallCode. rewrite Ht, Hph, Hpb. simpl.
  split; [|split].
  - now intros ->.
  - intros -> ->. reflexivity.
  - intros -> -> Hf. unfold jestApiCall. simpl. rewrite Hf.
    repeat (rewrite !append_assoc; simpl). reflexivity.
Qed.

End EmitterFallbacks.

Lemma missing_field_or_framework_gives_comment_witness :
  generateStepCode (Z.eqb 0) literalParse literalStringify
    (mkStep "c" click None None None None "Click the buy button" None None None
       None)
    "playwright" None (Some 2) None "r"
    = Return "      // Click the buy button" /\
  generateStepCode (Z.eqb 0) literalParse literalStringify (stepClick "#buy")
    "mocha" (Some "javascript") (Some 2) None "r"
    = Return "      // Click element".
Proof.
  split.
  - exact (missing_field_or_framework_gives_comment (Z.eqb 0) literalParse
             literalStringify
             (mkStep "c" click None None None None "Click the buy button" None
                None None None)
             "playwright" None (Some 2) None "r" ltac:(discriminate)
             (or_intror eq_refl)).
  - exact (missing_field_or_framework_gives_comment (Z.eqb 0) literalParse
             literalStringify (stepClick "#buy") "mocha" (Some "javascript")
             (Some 2) None "r" ltac:(discriminate) (or_introl eq_refl)).
Defined.

Lemma api_call_outcomes_witness :
  let call :=
    mkStep "s1" api_call (Some "https://api.test/users") None None None
      "List users" None (Some "{}") None None in
  generateStepCode (Z.eqb 0) literalParse literalStringify call "cypress" None
    (Some 0) None "r" = Return "// API Call: GET https://api.test/users" /\
  generateStepCode (Z.eqb 0) literalParse literalStringify call "jest" None
    (Some 0) None "r" =
    Return ("    const response = await fetch('https://api.test/users', {" +:+
            String "010" "      method: 'GET'," +:+
            String "010" "    })" +:+
            String "010" "    expect(response.status).toBe(200)").
Proof.
  intros call.
  pose proof (api_call_outcomes (Z.eqb 0) literalParse literalStringify call
                "cypress" None (Some 0) None "r" (JObject []) JNull eq_refl
                (or_intror (conj eq_refl eq_refl))
                (or_introl (conj eq_refl eq_refl))) as (H1 & _).
  pose proof (api_call_outcomes (Z.eqb 0) literalParse literalStringify call
                "jest" None (Some 0) None "r" (JObject []) JNull eq_refl
                (or_intror (conj eq_refl eq_refl))
                (or_introl (conj eq_refl eq_refl))) as (_ & _ & H3).
  split; [exact (H1 eq_refl) | exact (H3 eq_refl eq_refl eq_refl)].
Defined.

(** ** Code Emitter: the formatted expected result is stable *)

Lemma dropWhile_head (p : ascii -> bool) (s : string) :
  startsWithClass p (dropWhile p s) = false.
Proof.
  induction s as [|c r IH]; simpl; [reflexivity|].
  destruct (p c) eqn:Hc; [exact IH | simpl; exact Hc].
Qed.

Lemma dropWhile_fixed (p : ascii -> bool) (s : string) :
  startsWithClass p s = false -> dropWhile p s = s.
Proof. destruct s as [|c r]; simpl; [reflexivity | now intros ->]. Qed.

Lemma dropWhileEnd_fixed (p : ascii -> bool) (s : string) :
  endsWith p s = false -> dropWhileEnd p s = s.
Proof.
  induction s as [|c r IH]; simpl; [reflexivity|].
  destruct r as [|d r'].
  - simpl. now intros ->.
  - intros H. rewrite (IH H). reflexivity.
Qed.

Lemma dropWhileEnd_head (p : ascii -> bool) (s : string) :
  startsWithClass p s = false ->
  startsWithClass p (dropWhileEnd p s) = false.
Proof.
  destruct s as [|c r]; simpl; [reflexivity|]. intros Hc.
  destruct (dropWhileEnd p r); simpl; [now rewrite Hc | exact Hc].
Qed.

(** What [trim] returns neither starts nor ends with white space, and
    [trim] leaves such a text alone. *)
Lemma trim_trimmed (s : string) :
  startsWithClass isWhiteSpace (trim s) = false /\
  endsWith isWhiteSpace (trim s) = false /\
  trim (trim s) = trim s.
Proof.
  assert (H1 : startsWithClass isWhiteSpace (trim s) = false).
  { apply dropWhileEnd_head, dropWhile_head. }
  assert (H2 : endsWith isWhiteSpace (trim s) = false).
  { apply dropWhileEnd_not_ends. }
  split; [exact H1|]. split; [exact H2|].
  unfold trim at 1. rewrite (dropWhile_fixed _ _ H1).
  now apply dropWhileEnd_fixed.
Qed.

Lemma formatExpectedResult_cases (expectedResult : string) :
  formatExpectedResult expectedResult = "true" \/
  (formatExpectedResult expectedResult = trim expectedResult /\
   isValidExpression (trim expectedResult) = true).
Proof.
  unfold formatExpectedResult.
  destruct (negb (nonEmpty expectedResult) ||
            negb (nonEmpty (trim expectedResult))); [now left|].
  destruct (isValidExpression (trim expectedResult)); [now right | now left].
Qed.

(** X11.  The formatted expected result has no white space at either
    end, is itself accepted as an expression, and formatting it again
    changes nothing: what the emitter puts into the assertion is a fixed
    point of the formatter. *)
Theorem formatExpectedResult_stable (expectedResult : string) :
  let formatted := formatExpectedResult expectedResult in
  startsWithClass isWhiteSpace formatted = false /\
  endsWith isWhiteSpace formatted = false /\
  isValidExpression formatted = true /\
  formatExpectedResult formatted = formatted.
Proof.
  simpl.
  assert (Hcases : formatExpectedResult expectedResult = "true" \/
                   (formatExpectedResult expectedResult = trim expectedResult /\
                    isValidExpression (trim expectedResult) = true)).
  { destruct (formatExpectedResult_cases expectedResult) as [H|H]; auto. }
  destruct Hcases as [->|[-> Hv]]; [now repeat split|].
  destruct (trim_trimmed expectedResult) as (H1 & H2 & H3).
  split; [exact H1|]. split; [exact H2|]. split; [exact Hv|].
  unfold formatExpectedResult. rewrite H3, Hv.
  rewrite (isValidExpression_nonEmpty _ Hv).
  destruct (trim expectedResult); [discriminate Hv | reflexivity].
Qed.

(** ** The two engines on a navigate step *)

(** X12.  For a navigate step with a URL, the emitter, given the test
    case's base URL, and the runner go to the same address whenever the
    test case has a base URL or has no target page: the playwright,
    cypress and selenium lines all visit the URL that [executeStep]
    assigns to the location of the window it holds.  (With no base URL the
    runner falls back to the target page where the emitter falls back to
    the default base.) *)
Theorem engines_agree_on_navigate (testCase : TestCase) (step : TestStep)
    (w : Win) (i : nat) (obs : WindowObs) (elementVar : string) :
  let baseUrl := tc_baseUrl testCase in
  let target := resolveUrl testCase (get (s_url step)) in
  s_type step = navigate -> truthy (s_url step) = true ->
  truthy baseUrl = true \/ nonEmpty (tc_targetPageUrl testCase) = false ->
  (executeStep testCase (Some w) step i obs).2 = [EStepNavigation i w target] /\
  success (executeStep testCase (Some w) step i obs).1 = true /\
  playwrightCode step baseUrl =
    Some (indent +:+ "await page.goto('" +:+ target +:+ "')") /\
  cypressCode step baseUrl = Some (indent +:+ "cy.visit('" +:+ target +:+ "')") /\
  seleniumCode step elementVar baseUrl =
    Some (indent +:+ "await driver.get('" +:+ target +:+ "')").
Proof.
  simpl. intros Ht Hu Hbase.
  assert (Hsame : getFullUrl (tc_baseUrl testCase) (get (s_url step)) =
                  resolveUrl testCase (get (s_url step))).
  { unfold getFullUrl, resolveUrl.
    destruct (isAbsolute (get (s_url step))); [reflexivity|].
    f_equal. f_equal. unfold orElse, truthy in *.
    destruct Hbase as [H|H].
    - destruct (tc_baseUrl testCase) as [b|]; [|discriminate]. now rewrite H.
    - rewrite H. reflexivity. }
  unfold executeStep, windowGuard, stepSwitch, playwrightCode, cypressCode,
    seleniumCode.
  rewrite Ht, Hu, Hsame. simpl.
  destruct (o_assign obs); [destruct (o_hrefAfter obs)|]; now repeat split.
Qed.

Lemma engines_agree_on_navigate_witness :
  (executeStep sampleCase (Some 7) (stepNavigate "cart") 0 crossOrigin).2 =
    [EStepNavigation 0 7 "https://shop.test/cart"] /\
  playwrightCode (stepNavigate "cart") (tc_baseUrl sampleCase) =
    Some "      await page.goto('https://shop.test/cart')".
Proof.
  pose proof (engines_agree_on_navigate sampleCase (stepNavigate "cart") 7 0
                crossOrigin "element0" eq_refl eq_refl (or_introl eq_refl))
    as (H1 & _ & H2 & _).
  split; [exact H1 | exact H2].
Defined.


(** ** The steps shown before a run *)

Section DisplayStepsFacts.

Context {JsNumber : Type}.
Variable JSON_parse : string -> Completion (Json JsNumber).

(** X13.  With structured steps, the list shown before a run has one
    entry per step, labelled exactly as the results of the run will be.
    Without them, the list shows the test case's strings in their order,
    leaving out exactly those that start with an opening bracket or brace
    and are accepted by [JSON.parse]: a string is shown if and only if it
    is one of the test case's strings and is not such a JSON text. *)
Theorem displayed_steps (testCase : TestCase) (steps : list TestStep) :
  (steps <> [] ->
     map d_description (getDisplaySteps JSON_parse testCase steps) =
       map r_step (pendingResults steps)) /\
  (forall text,
     In text (map d_description (getDisplaySteps JSON_parse testCase [])) <->
     In text (tc_steps testCase) /\ isJsonText JSON_parse text = false) /\
  sublist (map d_description (getDisplaySteps JSON_parse testCase []))
    (tc_steps testCase).
Proof.
  split; [|split].
  - intros Hne. unfold getDisplaySteps, pendingResults.
    destruct steps as [|s0 rest]; [contradiction|]. simpl.
    rewrite !map_map. reflexivity.
  - intros text. unfold getDisplaySteps. simpl. rewrite map_map. simpl.
    rewrite map_id, List.filter_In, negb_true_iff. reflexivity.
  - unfold getDisplaySteps. simpl. rewrite map_map. simpl. rewrite map_id.
    induction (tc_steps testCase) as [|x l IH]; simpl; [constructor|].
    destruct (negb (isJsonText JSON_parse x)); now constructor.
Qed.

End DisplayStepsFacts.

Lemma displayed_steps_witness :
  map d_description (getDisplaySteps literalParse sampleCase checkout) =
    ["Navigate to URL"; "Click element"; "Custom code"; "Click element"] /\
  map d_description
    (getDisplaySteps literalParse
       (mkTestCase "tc-2" ["[]"; "open the page"; "await page.click('#a')"]
          None EmptyString) []) =
    ["open the page"; "await page.click('#a')"].
Proof.
  split.
  - refine (proj1 (displayed_steps literalParse sampleCase checkout) _).
    discriminate.
  - reflexivity.
Defined.

(** ** Code Emitter: what the generated test contains *)

Lemma prefix_refl (s : string) : String.prefix s s = true.
Proof.
  induction s as [|c r IH]; simpl; [reflexivity|].
  destruct (ascii_dec c c); [exact IH | contradiction].
Qed.

Lemma includes_unfold (s sub : string) :
  includes s sub =
    String.prefix sub s ||
    match s with
    | EmptyString => false
    | String _ r => includes r sub
    end.
Proof. now destruct s. Qed.

Lemma includes_refl (s : string) : includes s s = true.
Proof. now rewrite includes_unfold, prefix_refl. Qed.

Lemma includes_cons (c : ascii) (s sub : string) :
  includes s sub = true -> includes (String c s) sub = true.
Proof.
  intros H. change (String.prefix sub (String c s) || includes s sub = true).
  rewrite H. apply orb_true_r.
Qed.

Lemma includes_empty (s : string) : includes s EmptyString = true.
Proof. now destruct s. Qed.

Lemma includes_app_r (s t sub : string) :
  includes t sub = true -> includes (s +:+ t) sub = true.
Proof.
  intros H. induction s as [|c r IH]; simpl; [exact H|].
  now apply includes_cons.
Qed.

Lemma includes_app_l (s t sub : string) :
  includes s sub = true -> includes (s +:+ t) sub = true.
Proof.
  induction s as [|c r IH]; intros H.
  - destruct sub; [apply includes_empty | discriminate H].
  - change (String.prefix sub (String c r) || includes r sub = true) in H.
    apply orb_true_iff in H as [H|H].
    + change (String.prefix sub (String c r +:+ t) ||
              includes (r +:+ t) sub = true).
      apply orb_true_iff. left. now apply (startsWith_app (String c r) t sub).
    + simpl. apply includes_cons. now apply IH.
Qed.

Lemma includes_join_here (sep x sub : string) (rest : list string) :
  includes x sub = true -> includes (join sep (x :: rest)) sub = true.
Proof.
  intros H. destruct rest as [|y rest]; [exact H|].
  change (includes (x +:+ sep +:+ join sep (y :: rest)) sub = true).
  now apply includes_app_l.
Qed.

Lemma includes_join_later (sep x sub : string) (rest : list string) :
  includes (join sep rest) sub = true ->
  includes (join sep (x :: rest)) sub = true.
Proof.
  intros H. destruct rest as [|y rest].
  - destruct sub; [apply includes_empty | discriminate H].
  - change (includes (x +:+ sep +:+ join sep (y :: rest)) sub = true).
    now do 2 apply includes_app_r.
Qed.

Lemma includes_join (sep sub line : string) (lines : list string) :
  In line lines -> includes line sub = true ->
  includes (join sep lines) sub = true.
Proof.
  induction lines as [|x rest IH]; intros Hin H; [destruct Hin|].
  destruct Hin as [->|Hin].
  - now apply includes_join_here.
  - apply includes_join_later. now apply IH.
Qed.

Lemma includes_indentedSteps (steps : list string) (step : string) :
  In step steps -> includes (indentedSteps steps) step = true.
Proof.
  intros Hin. unfold indentedSteps.
  apply (includes_join _ _ ("    " +:+ step)).
  - now apply (in_map (fun step => "    " +:+ step)).
  - apply includes_app_r, includes_refl.
Qed.

(** Looks for [sub] in the lines of a template, one line after the
    other; [tac] finds it inside a line. *)
Ltac in_lines tac :=
  first [ apply includes_join_here; solve [tac]
        | apply includes_join_later; in_lines tac ].

(** Finds a text that ends a line which starts with a literal. *)
Ltac at_line_end :=
  cbn [String.append];
  repeat first [ apply includes_refl | apply includes_cons ].

Lemma generateTestCode_includes_step (testCase : GeneratorCase)
    (framework language step : string) :
  In step (g_steps testCase) ->
  includes (generateTestCode testCase framework language) step = true.
Proof.
  intros Hin. unfold generateTestCode.
  repeat match goal with
         | |- context [if ?b then _ else _] => destruct b
         end;
    in_lines ltac:(first [ now apply includes_indentedSteps
                         | apply (includes_join _ _ step);
                           [exact Hin | apply includes_refl] ]).
Qed.

(** X14.  For every framework and language, the generated test contains
    every step line and the comment "Expected: " followed by the
    expected-result text as it was given, and it is never empty. *)
Theorem generated_test_contains_steps_and_expectation
    (testCase : GeneratorCase) (framework language : string) :
  let code := generateTestCode testCase framework language in
  (forall step, In step (g_steps testCase) -> includes code step = true) /\
  includes code ("Expected: " +:+ g_expectedResult testCase) = true /\
  code <> EmptyString.
Proof.
  simpl. split; [|split].
  - intros step Hin. now apply generateTestCode_includes_step.
  - unfold generateTestCode.
    repeat match goal with
           | |- context [if ?b then _ else _] => destruct b
           end;
      in_lines at_line_end.
  - unfold generateTestCode.
    repeat match goal with
           | |- context [if ?b then _ else _] => destruct b
           end; discriminate.
Qed.


(** ** Code Emitter: the names and titles it derives *)

Lemma forallb_app (q : ascii -> bool) (a b : string) :
  forallb q (a +:+ b) = forallb q a && forallb q b.
Proof.
  induction a as [|c r IH]; simpl; [reflexivity|].
  now rewrite IH, andb_assoc.
Qed.

Lemma forallb_impl (p q : ascii -> bool) (s : string) :
  (forall c, p c = true -> q c = true) ->
  forallb p s = true -> forallb q s = true.
Proof.
  intros Hpq. induction s as [|c r IH]; simpl; [reflexivity|].
  intros H. apply andb_true_iff in H as [Hc Hr].
  now rewrite (Hpq c Hc), IH.
Qed.

Lemma forallb_all (q : ascii -> bool) (s : string) :
  (forall c, q c = true) -> forallb q s = true.
Proof.
  intros Hq. induction s as [|c r IH]; simpl; [reflexivity|].
  now rewrite Hq, IH.
Qed.

Lemma forallb_replaceEach (p q : ascii -> bool) (rep s : string) :
  forallb q rep = true ->
  forallb (fun c => p c || q c) s = true ->
  forallb q (replaceEach p rep s) = true.
Proof.
  intros Hrep. induction s as [|c r IH]; simpl; [reflexivity|].
  intros H. apply andb_true_iff in H as [Hc Hr].
  destruct (p c) eqn:Hp.
  - now rewrite forallb_app, Hrep, IH.
  - simpl in Hc. simpl. now rewrite Hc, IH.
Qed.

Lemma forallb_replaceRunsFrom (p q : ascii -> bool) (rep s : string) :
  forallb q rep = true ->
  forallb (fun c => p c || q c) s = true ->
  forall inRun, forallb q (replaceRunsFrom inRun p rep s) = true.
Proof.
  intros Hrep. induction s as [|c r IH]; simpl; [reflexivity|].
  intros H inRun. apply andb_true_iff in H as [Hc Hr].
  destruct (p c) eqn:Hp.
  - rewrite forallb_app, (IH Hr). now destruct inRun; simpl; rewrite ?Hrep.
  - simpl in Hc. simpl. now rewrite Hc, IH.
Qed.

Lemma forallb_take (q : ascii -> bool) (n : nat) (s : string) :
  forallb q s = true -> forallb q (take n s) = true.
Proof.
  revert s. induction n as [|n IH]; intros [|c r]; simpl; try reflexivity.
  intros H. apply andb_true_iff in H as [Hc Hr]. now rewrite Hc, IH.
Qed.

Lemma length_take (n : nat) (s : string) : String.length (take n s) <= n.
Proof.
  revert s. induction n as [|n IH]; intros [|c r]; simpl; try lia.
  specialize (IH r). lia.
Qed.

Lemma take_all (n : nat) (s : string) : String.length s <= n -> take n s = s.
Proof.
  revert s. induction n as [|n IH]; intros [|c r]; simpl; try reflexivity.
  - lia.
  - intros H. rewrite IH; [reflexivity | lia].
Qed.

Lemma escapedFrom_escapeApostrophes (s : string) :
  forall b, escapedFrom b (escapeApostrophes s) = true.
Proof.
  unfold escapeApostrophes.
  induction s as [|c r IH]; intros b; simpl; [reflexivity|].
  destruct (isApostrophe c) eqn:Hc; simpl.
  - apply IH.
  - rewrite Hc. simpl. apply IH.
Qed.

Lemma escapedFrom_take (n : nat) (s : string) :
  forall b, escapedFrom b s = true -> escapedFrom b (take n s) = true.
Proof.
  revert s. induction n as [|n IH]; intros [|c r] b; simpl; try reflexivity.
  intros H. apply andb_true_iff in H as [Hc Hr]. now rewrite Hc, IH.
Qed.

(** X15.  The title the selenium typescript template puts between
    apostrophes is at most 200 code units long, holds no newline, and
    every apostrophe in it comes right after a backslash; a description
    whose escaped form fits in 200 code units is not cut. *)
Theorem cleanDesc_fits_one_line (description : string) :
  String.length (cleanDesc description) <= 200 /\
  forallb (fun c => negb (isNewline c)) (cleanDesc description) = true /\
  escapedFrom false (cleanDesc description) = true /\
  (String.length
     (escapeApostrophes (replaceEach isNewline " " description)) <= 200 ->
   cleanDesc description =
     escapeApostrophes (replaceEach isNewline " " description)).
Proof.
  unfold cleanDesc. split; [apply length_take|].
  split; [|split; [|apply take_all]].
  - apply forallb_take. unfold escapeApostrophes.
    apply forallb_replaceEach; [reflexivity|].
    apply (forallb_impl (fun c => negb (isNewline c))).
    { intros c ->. apply orb_true_r. }
    apply forallb_replaceEach; [reflexivity|].
    apply forallb_all. intros c. now destruct (isNewline c).
  - apply escapedFrom_take, escapedFrom_escapeApostrophes.
Qed.

Lemma toLowerUnit_class (c : ascii) :
  isWhiteSpace (toLowerUnit c) = isWhiteSpace c /\
  isUpperAZ (toLowerUnit c) = false.
Proof. destruct c as [[] [] [] [] [] [] [] []]; vm_compute; now split. Qed.

(** X16.  The function name of the python templates holds no white space
    and no capital letter from A to Z, whatever the test case is called;
    the class and method name of the java templates holds no white
    space. *)
Theorem derived_names_have_no_white_space (name : string) :
  forallb (fun c => negb (isWhiteSpace c) && negb (isUpperAZ c))
    (pythonName name) = true /\
  forallb (fun c => negb (isWhiteSpace c)) (javaName name) = true.
Proof.
  unfold pythonName, javaName, replaceRuns. split.
  - apply forallb_replaceRunsFrom; [reflexivity|].
    unfold toLowerCase. induction name as [|c r IH]; simpl; [reflexivity|].
    rewrite IH, andb_true_r.
    destruct (toLowerUnit_class c) as [_ ->].
    now destruct (isWhiteSpace (toLowerUnit c)).
  - apply forallb_replaceRunsFrom; [reflexivity|].
    apply forallb_all. intros c. now destruct (isWhiteSpace c).
Qed.

(** ** Test-case route: the step lines of the generated file *)

Lemma nonBlank_bracket (firstStep : string) :
  startsWith (trim firstStep) "[" = true -> nonBlank firstStep = true.
Proof.
  unfold nonBlank. destruct firstStep as [|c r]; [discriminate|].
  intros H. destruct (trim (String c r)); [discriminate | reflexivity].
Qed.

Section TestFileContentFacts.

Context {JsNumber : Type}.
Variable numberIsZero : JsNumber -> bool.
Variable JSON_parse : string -> Completion (Json JsNumber).
Variable JSON_stringify : Json JsNumber -> string.
Variable parseStructured : string -> Completion (list TestStep).
Variable framework language : string.
Variable baseUrl : option string.

Let codeAt := stepCodeAt numberIsZero JSON_parse JSON_stringify framework
                language baseUrl.
Let mapCodes := mapStepCodes numberIsZero JSON_parse JSON_stringify framework
                  language baseUrl.
Let codesOf := stepCodesOf numberIsZero JSON_parse JSON_stringify
                 parseStructured framework language baseUrl.

(** The map returns when every call returns, with the code of the step
    at position [j] at position [j]. *)
Lemma mapStepCodes_returns (structured : list TestStep) :
  forall index,
  (forall j step, structured !! j = Some step ->
     returned (codeAt (index + j) step) = true) ->
  exists codes, mapCodes index structured = Return codes /\
    length codes = length structured /\
    forall j step, structured !! j = Some step ->
      exists code, codeAt (index + j) step = Return code /\
        codes !! j = Some code.
Proof.
  induction structured as [|step rest IH]; intros index Hall.
  - exists []. split; [reflexivity|]. split; [reflexivity|].
    intros j st Hj. discriminate.
  - pose proof (Hall 0 step eq_refl) as H0. rewrite Nat.add_0_r in H0.
    destruct (codeAt index step) as [code|e] eqn:Hcode; [|discriminate].
    destruct (IH (S index)) as (codes & Hmap & Hlen & Hat).
    { intros j st Hj. replace (S index + j) with (index + S j) by lia.
      now apply Hall. }
    exists (code :: codes). split; [|split].
    + unfold mapCodes in *. unfold codeAt in Hcode. simpl.
      rewrite Hcode. simpl. now rewrite Hmap.
    + simpl. now rewrite Hlen.
    + intros [|j] st Hj.
      * injection Hj as <-. exists code. rewrite Nat.add_0_r. now split.
      * replace (index + S j) with (S index + j) by lia. now apply Hat.
Qed.

(** One call that throws makes the map throw. *)
Lemma mapStepCodes_throws (structured : list TestStep) :
  forall index j step,
  structured !! j = Some step ->
  returned (codeAt (index + j) step) = false ->
  exists e, mapCodes index structured = Throw e.
Proof.
  induction structured as [|first rest IH]; intros index j step Hj Hthrow;
    [discriminate|].
  unfold mapCodes in *. simpl.
  fold (codeAt index first).
  destruct (codeAt index first) as [code|e] eqn:Hcode;
    [|exists e; reflexivity].
  destruct j as [|j].
  - injection Hj as <-. rewrite Nat.add_0_r, Hcode in Hthrow. discriminate.
  - replace (index + S j) with (S index + j) in Hthrow by lia.
    destruct (IH (S index) j step Hj Hthrow) as [e He].
    exists e. simpl. now rewrite He.
Qed.

(** X17.  When the first string starts, white space apart, with an
    opening bracket, parses to a list of steps and code is emitted for
    each of them, the step lines of the file are these codes: one per
    structured step, in order, each emitted with the position of its
    step as index; the strings after the first one are not used. *)
Theorem structured_steps_give_one_code_each
    (firstStep : string) (rest : list string) (structured : list TestStep) :
  startsWith (trim firstStep) "[" = true ->
  parseStructured firstStep = Return structured ->
  (forall i step, structured !! i = Some step ->
     returned (codeAt i step) = true) ->
  length (codesOf (firstStep :: rest)) = length structured /\
  (forall i step, structured !! i = Some step ->
     exists code, codeAt i step = Return code /\
       codesOf (firstStep :: rest) !! i = Some code) /\
  codesOf (firstStep :: rest) = codesOf [firstStep].
Proof.
  intros Hb Hparse Hall.
  destruct (mapStepCodes_returns structured 0 Hall) as (codes & Hmap & Hlen & Hat).
  assert (Hcodes : forall others, codesOf (firstStep :: others) = codes).
  { intros others. unfold codesOf, stepCodesOf. rewrite Hb, Hparse. simpl.
    unfold mapCodes in Hmap. now rewrite Hmap. }
  rewrite !Hcodes. split; [exact Hlen|]. split; [exact Hat | reflexivity].
Qed.

(** X18.  The step lines are the non-blank strings of the test case, in
    their order, in each of three cases: the first string does not
    start with an opening bracket; it does but is not parsed; it is
    parsed but emitting the code of one of its steps throws.  In the last
    two cases the first line is the bracketed text itself, and no code of
    any structured step is kept. *)
Theorem step_codes_fall_back_to_raw_strings
    (firstStep : string) (rest : list string) :
  startsWith (trim firstStep) "[" = false \/
  returned (parseStructured firstStep) = false \/
  (exists structured i step,
     parseStructured firstStep = Return structured /\
     structured !! i = Some step /\ returned (codeAt i step) = false) ->
  codesOf (firstStep :: rest) = List.filter nonBlank (firstStep :: rest) /\
  (startsWith (trim firstStep) "[" = true ->
   codesOf (firstStep :: rest) = firstStep :: List.filter nonBlank rest).
Proof.
  intros H.
  assert (Hraw : codesOf (firstStep :: rest)
                 = List.filter nonBlank (firstStep :: rest)).
  { unfold codesOf, stepCodesOf.
    destruct (startsWith (trim firstStep) "[") eqn:Hb; [|reflexivity].
    destruct H as [H|[H|(structured & i & step & Hparse & Hi & Hthrow)]].
    - discriminate.
    - destruct (parseStructured firstStep); [discriminate | reflexivity].
    - rewrite Hparse. simpl.
      destruct (mapStepCodes_throws structured 0 i step Hi Hthrow) as [e He].
      unfold mapCodes in He. now rewrite He. }
  split; [exact Hraw|].
  intros Hb. rewrite Hraw. simpl. now rewrite (nonBlank_bracket _ Hb).
Qed.

End TestFileContentFacts.

Lemma structured_steps_give_one_code_each_witness :
  let codes :=
    stepCodesOf (Z.eqb 0) literalParse literalStringify (literalSteps false)
      "playwright" "typescript" None [twoStepsText; "ignored"] in
  length codes = 2 /\
  codes !! 1 = Some "      await page.click('#buy')".
Proof.
  intros codes.
  destruct (structured_steps_give_one_code_each (Z.eqb 0) literalParse
              literalStringify (literalSteps false) "playwright" "typescript"
              None twoStepsText ["ignored"]
              [stepNavigate "/login"; stepClick "#buy"] eq_refl eq_refl)
    as (Hlen & Hat & _).
  { intros [|[|i]] step Hi; try discriminate; injection Hi as <-; reflexivity. }
  split; [exact Hlen|].
  destruct (Hat 1 (stepClick "#buy") eq_refl) as (code & Hcode & Hlook).
  injection Hcode as <-. exact Hlook.
Defined.

Lemma step_codes_fall_back_to_raw_strings_witness :
  stepCodesOf (Z.eqb 0) literalParse literalStringify (literalSteps true)
    "playwright" "typescript" None [twoStepsText; "  "; "open the cart"]
  = [twoStepsText; "open the cart"].
Proof.
  refine (proj2 (step_codes_fall_back_to_raw_strings (Z.eqb 0) literalParse
                   literalStringify (literalSteps true) "playwright"
                   "typescript" None twoStepsText ["  "; "open the cart"] _)
            eq_refl).
  right. right.
  exists [stepNavigate "/login"; stepBrokenCall], 1, stepBrokenCall.
  split; [reflexivity|]. split; reflexivity.
Defined.

(** ** Test-case route: the import header *)

Lemma prefix_split (sub s : string) :
  String.prefix sub s = true -> exists post, s = sub +:+ post.
Proof.
  revert s. induction sub as [|c r IH]; intros s H.
  - now exists s.
  - destruct s as [|d s']; [discriminate|]. simpl in H.
    destruct (ascii_dec c d) as [->|]; [|discriminate].
    destruct (IH s' H) as [post ->]. now exists post.
Qed.

Lemma includes_split (s sub : string) :
  includes s sub = true -> exists pre post, s = pre +:+ sub +:+ post.
Proof.
  induction s as [|c r IH]; rewrite includes_unfold; intros H;
    apply orb_true_iff in H as [H|H]; try discriminate.
  - destruct (prefix_split _ _ H) as [post ->]. now exists EmptyString, post.
  - destruct (prefix_split _ _ H) as [post ->]. now exists EmptyString, post.
  - destruct (IH H) as (pre & post & ->). now exists (String c pre), post.
Qed.

Lemma includes_trans (a b c : string) :
  includes a b = true -> includes b c = true -> includes a c = true.
Proof.
  intros Hab Hbc. destruct (includes_split _ _ Hab) as (pre & post & ->).
  now apply includes_app_r, includes_app_l.
Qed.

Lemma hasImports_trans (a b : string) :
  includes a b = true -> hasImports b = true -> hasImports a = true.
Proof.
  unfold hasImports. intros Hab H.
  apply orb_true_iff in H as [H|H]; apply orb_true_iff; [left|right];
    now apply (includes_trans a b).
Qed.

Lemma withImports_keeps (framework language testCode sub : string) :
  includes testCode sub = true ->
  includes (withImports framework language testCode) sub = true.
Proof.
  intros H. unfold withImports.
  destruct (nonEmpty _); [|exact H]. now do 3 apply includes_app_r.
Qed.

Lemma withImports_importing (framework language testCode : string) :
  importing framework = true ->
  hasImports (withImports framework language testCode) = true.
Proof.
  unfold importing, withImports. intros H.
  destruct (hasImports testCode) eqn:Hhas; [exact Hhas|].
  assert (Himp : hasImports (getImports framework language) = true).
  { repeat (apply orb_true_iff in H as [H|H]);
      apply String.eqb_eq in H; subst framework; unfold getImports; simpl;
      repeat match goal with
             | |- context [String.eqb ?a ?b] => destruct (String.eqb a b)
             end; reflexivity. }
  destruct (getImports framework language) eqn:Hg; [discriminate Himp|].
  cbn [nonEmpty]. apply (hasImports_trans _ (String a s)); [|exact Himp].
  apply includes_app_l, includes_refl.
Qed.

Section TestFileImports.

Context {JsNumber : Type}.
Variable numberIsZero : JsNumber -> bool.
Variable JSON_parse : string -> Completion (Json JsNumber).
Variable JSON_stringify : Json JsNumber -> string.
Variable parseStructured : string -> Completion (list TestStep).
Variable framework language : string.
Variable baseUrl : option string.

(** X19.  The generated file contains every step line; for playwright,
    selenium, mocha and vitest it always contains an import or a
    require; and a step line that itself contains the text of an import
    or of a require call makes the file the bare test, without the import
    header of the framework. *)
Theorem file_content_steps_and_header
    (name description : string) (steps : list string)
    (expectedResult : string) :
  let codes :=
    stepCodesOf numberIsZero JSON_parse JSON_stringify parseStructured
      framework language baseUrl steps in
  let content :=
    generateTestFileContent numberIsZero JSON_parse JSON_stringify
      parseStructured framework language baseUrl name description steps
      expectedResult in
  (forall code, In code codes -> includes content code = true) /\
  (importing framework = true -> hasImports content = true) /\
  (forall code, In code codes -> hasImports code = true ->
     content =
       generateTestCode (mkCase name description codes expectedResult)
         framework language).
Proof.
  simpl. unfold generateTestFileContent. split; [|split].
  - intros code Hin. apply withImports_keeps.
    now apply generateTestCode_includes_step.
  - apply withImports_importing.
  - intros code Hin Hcode. unfold withImports.
    rewrite (hasImports_trans _ code); [reflexivity| |exact Hcode].
    now apply generateTestCode_includes_step.
Qed.

End TestFileImports.

(** ** Download route: the file name is a slug *)

Lemma toLowerUnit_slug (c : ascii) :
  implb (isLetter c || isDigit c || isDash c) (isSlugUnit (toLowerUnit c))
  = true.
Proof. destruct c as [[] [] [] [] [] [] [] []]; vm_compute; reflexivity. Qed.

Lemma forallb_mapUnits (p q : ascii -> bool) (f : ascii -> ascii) (s : string) :
  (forall c, p c = true -> q (f c) = true) ->
  forallb p s = true -> forallb q (mapUnits f s) = true.
Proof.
  intros Hpq. induction s as [|c r IH]; simpl; [reflexivity|].
  intros H. apply andb_true_iff in H as [Hc Hr].
  now rewrite (Hpq c Hc), IH.
Qed.

Lemma forallb_dropFirstIf (p q : ascii -> bool) (s : string) :
  forallb q s = true -> forallb q (dropFirstIf p s) = true.
Proof.
  destruct s as [|c r]; simpl; [reflexivity|]. intros H.
  destruct (p c); [|exact H]. now apply andb_true_iff in H as [_ H].
Qed.

Lemma forallb_dropLastIf (p q : ascii -> bool) (s : string) :
  forallb q s = true -> forallb q (dropLastIf p s) = true.
Proof.
  induction s as [|c r IH]; [reflexivity|]. intros H.
  simpl in H. apply andb_true_iff in H as [Hc Hr].
  destruct r as [|d r'].
  - simpl. destruct (p c); [reflexivity|]. simpl. now rewrite Hc.
  - change (forallb q (String c (dropLastIf p (String d r'))) = true).
    cbn [forallb]. now rewrite Hc, (IH Hr).
Qed.

Lemma noRunFrom_weaken (b : bool) (p : ascii -> bool) (s : string) :
  noRunFrom b p s = true -> noRunFrom false p s = true.
Proof.
  destruct s as [|c r]; simpl; [reflexivity|]. intros H.
  now apply andb_true_iff in H as [_ H].
Qed.

Lemma noRunFrom_replaceRunsFrom (p : ascii -> bool) (c0 : ascii) (s : string) :
  p c0 = true ->
  forall b, noRunFrom b p (replaceRunsFrom b p (String c0 EmptyString) s) = true.
Proof.
  intros Hc0. induction s as [|c r IH]; intros b; simpl; [reflexivity|].
  destruct (p c) eqn:Hc.
  - destruct b; simpl.
    + apply IH.
    + rewrite Hc0. apply IH.
  - simpl. rewrite Hc, andb_false_r. apply IH.
Qed.

Lemma noRunFrom_dropLastIf (p : ascii -> bool) (s : string) :
  forall b, noRunFrom b p s = true -> noRunFrom b p (dropLastIf p s) = true.
Proof.
  induction s as [|c r IH]; intros b H; [reflexivity|].
  destruct r as [|d r'].
  - simpl. destruct (p c) eqn:Hc; [reflexivity | exact H].
  - change (noRunFrom b p (String c (dropLastIf p (String d r'))) = true).
    cbn [noRunFrom] in H |- *.
    apply andb_true_iff in H as [H1 H2]. rewrite H1.
    now apply IH.
Qed.

Lemma endsWith_dropLastIf (p : ascii -> bool) (s : string) :
  noRunFrom false p s = true -> endsWith p (dropLastIf p s) = false.
Proof.
  induction s as [|c r IH]; intros H; [reflexivity|].
  assert (Hr : noRunFrom (p c) p r = true) by exact H.
  pose proof (IH (noRunFrom_weaken _ _ _ Hr)) as IH'.
  destruct r as [|d r'].
  - simpl. destruct (p c) eqn:Hc; [reflexivity | simpl; exact Hc].
  - change (endsWith p (String c (dropLastIf p (String d r'))) = false).
    destruct (dropLastIf p (String d r')) as [|e t] eqn:Hd.
    + destruct r' as [|d' r'']; [|discriminate Hd].
      simpl in Hd. destruct (p d) eqn:Hpd; [|discriminate Hd].
      simpl in Hr. rewrite Hpd in Hr. simpl.
      destruct (p c); [discriminate Hr | reflexivity].
    + exact IH'.
Qed.

Lemma startsWithClass_dropLastIf (p : ascii -> bool) (s : string) :
  startsWithClass p s = false -> startsWithClass p (dropLastIf p s) = false.
Proof.
  destruct s as [|c [|d r]]; simpl; try reflexivity.
  - intros Hc. now rewrite Hc.
  - now intros ->.
Qed.

Lemma startsWithClass_dropFirstIf (p : ascii -> bool) (s : string) :
  noRunFrom false p s = true -> startsWithClass p (dropFirstIf p s) = false.
Proof.
  destruct s as [|c r]; simpl; [reflexivity|]. intros H.
  destruct (p c) eqn:Hc; [|simpl; exact Hc].
  destruct r as [|d r']; [reflexivity|]. simpl in *.
  apply andb_true_iff in H as [H _]. now destruct (p d).
Qed.

Lemma noRunFrom_dropFirstIf (p : ascii -> bool) (s : string) :
  noRunFrom false p s = true -> noRunFrom false p (dropFirstIf p s) = true.
Proof.
  destruct s as [|c r]; [reflexivity|]. intros H. simpl.
  destruct (p c); [|exact H]. simpl in H. now apply noRunFrom_weaken in H.
Qed.

Lemma isDash_dec (c : ascii) :
  isDash c = if ascii_dec "-" c then true else false.
Proof.
  unfold isDash. destruct (ascii_dec "-" c) as [<-|Hn]; [reflexivity|].
  apply Ascii.eqb_neq. congruence.
Qed.

Lemma prefix_two_dashes (c : ascii) (r : string) :
  String.prefix "--" (String c r) = isDash c && startsWithClass isDash r.
Proof.
  rewrite isDash_dec.
  change (String.prefix "--" (String c r))
    with (if ascii_dec "-" c then String.prefix "-" r else false).
  destruct (ascii_dec "-" c); [|reflexivity].
  destruct r as [|d r']; [reflexivity|].
  cbn [startsWithClass andb]. rewrite isDash_dec.
  change (String.prefix "-" (String d r'))
    with (if ascii_dec "-" d then String.prefix EmptyString r' else false).
  destruct (ascii_dec "-" d); [now destruct r' | reflexivity].
Qed.

Lemma noRunFrom_includes (s : string) :
  forall b, noRunFrom b isDash s = true ->
  includes s "--" = false /\ (b = true -> startsWithClass isDash s = false).
Proof.
  induction s as [|c r IH]; intros b H.
  - split; reflexivity.
  - cbn [noRunFrom] in H. apply andb_true_iff in H as [H1 H2].
    destruct (IH _ H2) as [IHi IHs]. split.
    + rewrite includes_unfold, IHi, orb_false_r, prefix_two_dashes.
      destruct (isDash c); [now apply IHs | reflexivity].
    + intros ->. cbn [startsWithClass]. now destruct (isDash c).
Qed.

Lemma all_replaced_collapses (p : ascii -> bool) (name : string) :
  forallb p name = true ->
  forall b,
  replaceRunsFrom b isDash "-" (toLowerCase (replaceEach p "-" name)) =
    if b then EmptyString
    else match name with EmptyString => EmptyString | _ => "-" end.
Proof.
  unfold toLowerCase.
  induction name as [|c r IH]; intros H b; [now destruct b|].
  cbn [forallb] in H. apply andb_true_iff in H as [Hc Hr].
  cbn [replaceEach]. rewrite Hc.
  change ("-" +:+ replaceEach p "-" r) with (String "-" (replaceEach p "-" r)).
  cbn [mapUnits replaceRunsFrom].
  change (isDash (toLowerUnit "-")) with true. cbv iota.
  rewrite (IH Hr true). now destruct b.
Qed.

(** X20.  The stem of a downloaded file name is made of the letters a to
    z, the digits and the dash only; it neither starts nor ends with a
    dash and holds no two dashes in a row; a test-case name without any
    letter or digit gives the empty stem. *)
Theorem safeName_is_a_slug (name : string) :
  let stem := safeName name in
  forallb isSlugUnit stem = true /\
  startsWithClass isDash stem = false /\
  endsWith isDash stem = false /\
  includes stem "--" = false /\
  (forallb (fun c => negb (isLetter c || isDigit c)) name = true ->
   stem = EmptyString).
Proof.
  simpl. unfold safeName, stripEdgeDashes, replaceRuns.
  set (kept := replaceEach _ "-" name).
  assert (Hrun : noRunFrom false isDash
                   (replaceRunsFrom false isDash "-" (toLowerCase kept)) = true).
  { now apply noRunFrom_replaceRunsFrom. }
  split; [|split; [|split; [|split]]].
  - apply forallb_dropLastIf, forallb_dropFirstIf.
    apply forallb_replaceRunsFrom; [reflexivity|].
    apply (forallb_impl isSlugUnit).
    { intros c ->. apply orb_true_r. }
    unfold toLowerCase.
    apply (forallb_mapUnits (fun c => isLetter c || isDigit c || isDash c)).
    { intros c Hc. pose proof (toLowerUnit_slug c) as H.
      now rewrite Hc in H. }
    subst kept. apply forallb_replaceEach; [reflexivity|].
    apply forallb_all. intros c.
    now destruct (isLetter c || isDigit c), (isDash c).
  - apply startsWithClass_dropLastIf, startsWithClass_dropFirstIf, Hrun.
  - apply endsWith_dropLastIf, noRunFrom_dropFirstIf, Hrun.
  - apply (noRunFrom_includes _ false).
    apply noRunFrom_dropLastIf, noRunFrom_dropFirstIf, Hrun.
  - intros Hnone. subst kept.
    unfold toLowerCase in *.
    pose proof (all_replaced_collapses _ name Hnone false) as Hall.
    unfold toLowerCase in Hall. rewrite Hall.
    now destruct name.
Qed.

(** ** Test-case form and route: what is saved is what is generated *)

Lemma filter_nonBlank_trimmed (steps : list string) :
  List.filter nonBlank (List.filter (fun step => nonEmpty (trim step)) steps)
  = List.filter (fun step => nonEmpty (trim step)) steps.
Proof.
  induction steps as [|x rest IH]; [reflexivity|].
  cbn [List.filter]. destruct (nonEmpty (trim x)) eqn:Hx; [|exact IH].
  cbn [List.filter]. unfold nonBlank at 1. rewrite Hx.
  destruct x; [discriminate Hx|]. cbn [nonEmpty andb]. now rewrite IH.
Qed.

Section SubmitFacts.

Context {JsNumber : Type}.
Variable numberIsZero : JsNumber -> bool.
Variable JSON_parse : string -> Completion (Json JsNumber).
Variable JSON_stringify : Json JsNumber -> string.
Variable stringifySteps : list TestStep -> string.
Variable parseStructured : string -> Completion (list TestStep).

(** X21.  What the form submits and what the route generates from it
    agree.  In structured mode with at least one step, the submitted
    strings are the serialized steps followed by one code per step; when
    the serialized steps start with an opening bracket and parse back to
    the same steps, the route, given the framework, language and base URL
    of the form, takes as step lines exactly the codes that were
    submitted.  In plain mode, whatever structured steps the form also
    holds, the submitted strings are never the empty list, and when the
    first of them does not start with an opening bracket the route takes
    as step lines the non-blank strings of the form. *)
Theorem submitted_steps_are_regenerated (formData : FormData) :
  let structured := f_structuredSteps formData in
  let submit := handleSubmit numberIsZero JSON_parse JSON_stringify
                  stringifySteps in
  let codesOf :=
    stepCodesOf numberIsZero JSON_parse JSON_stringify parseStructured
      (f_framework formData) (f_language formData)
      (Some (f_baseUrl formData)) in
  (structured <> [] ->
   startsWith (trim (stringifySteps structured)) "[" = true ->
   parseStructured (stringifySteps structured) = Return structured ->
   forall steps, submit true formData = Return steps ->
     exists codes, steps = stringifySteps structured :: codes /\
       length codes = length structured /\ codesOf steps = codes) /\
  (exists steps, submit false formData = Return steps /\ steps <> [] /\
     (forall firstStep rest, steps = firstStep :: rest ->
        startsWith (trim firstStep) "[" = false ->
        codesOf steps =
          List.filter (fun step => nonEmpty (trim step)) (f_steps formData))).
Proof.
  simpl. split.
  - intros Hne Hb Hparse steps Hsub. unfold handleSubmit in Hsub.
    destruct (f_structuredSteps formData) as [|s0 more] eqn:Hs;
      [now destruct Hne|].
    cbn [length Nat.ltb Nat.leb] in Hsub.
    destruct (mapStepCodes _ _ _ _ _ _ 0 (s0 :: more)) as [codes|e] eqn:Hmap;
      [|discriminate Hsub].
    injection Hsub as <-. exists codes. split; [reflexivity|].
    assert (Hall : forall j step, (s0 :: more) !! j = Some step ->
              returned (stepCodeAt numberIsZero JSON_parse JSON_stringify
                          (f_framework formData) (f_language formData)
                          (Some (f_baseUrl formData)) (0 + j) step) = true).
    { intros j step Hj.
      destruct (returned (stepCodeAt numberIsZero JSON_parse JSON_stringify
                  (f_framework formData) (f_language formData)
                  (Some (f_baseUrl formData)) (0 + j) step)) eqn:Hr;
        [reflexivity|].
      destruct (mapStepCodes_throws numberIsZero JSON_parse JSON_stringify
                  (f_framework formData) (f_language formData)
                  (Some (f_baseUrl formData)) (s0 :: more) 0 j step Hj Hr)
        as [e He].
      rewrite Hmap in He. discriminate He. }
    destruct (mapStepCodes_returns numberIsZero JSON_parse JSON_stringify
                (f_framework formData) (f_language formData)
                (Some (f_baseUrl formData)) (s0 :: more) 0 Hall)
      as (codes' & Hmap' & Hlen & _).
    rewrite Hmap in Hmap'. injection Hmap' as <-.
    split; [exact Hlen|].
    unfold stepCodesOf. rewrite Hb, Hparse. cbn [bind]. now rewrite Hmap.
  - unfold handleSubmit.
    pose proof (filter_nonBlank_trimmed (f_steps formData)) as Hfix.
    destruct (List.filter (fun step => nonEmpty (trim step)) (f_steps formData))
      as [|x kept] eqn:Hk.
    + exists [EmptyString]. split; [reflexivity|]. split; [discriminate|].
      intros firstStep rest Heq _. reflexivity.
    + exists (x :: kept). split; [reflexivity|]. split; [discriminate|].
      intros firstStep rest Heq Hnb. injection Heq as -> ->.
      unfold stepCodesOf. rewrite Hnb. exact Hfix.
Qed.

End SubmitFacts.

Lemma submitted_steps_are_regenerated_witness :
  let formData :=
    mkForm ["open the cart"; "  "] [stepNavigate "/login"; stepClick "#buy"]
      "playwright" "typescript" EmptyString in
  (exists codes,
     handleSubmit (Z.eqb 0) literalParse literalStringify
       (fun _ => twoStepsText) true formData = Return (twoStepsText :: codes) /\
     stepCodesOf (Z.eqb 0) literalParse literalStringify (literalSteps false)
       "playwright" "typescript" (Some EmptyString) (twoStepsText :: codes)
     = codes) /\
  (exists steps,
     handleSubmit (Z.eqb 0) literalParse literalStringify
       (fun _ => twoStepsText) false formData = Return steps /\
     steps <> []).
Proof.
  intros formData.
  pose proof (submitted_steps_are_regenerated (Z.eqb 0) literalParse
                literalStringify (fun _ => twoStepsText)
                (literalSteps false) formData) as [Hstructured Hplain].
  split.
  - destruct (Hstructured ltac:(discriminate) eq_refl eq_refl _ eq_refl)
      as (codes & Heq & _ & Hcodes).
    exists codes. injection Heq as <-. split; [reflexivity | exact Hcodes].
  - destruct Hplain as (steps & Hsub & Hne & _). now exists steps.
Defined.
